(** * Langgraph-app: the query pipeline, the vector store and their services

    A shallow embedding of the Python sources

      - [src/services/groq_service.py]     (module [GroqService])
      - [src/services/weather_services.py] (module [WeatherService])
      - [src/services/pdf_service.py]      (module [PDFService])
      - [src/services/vector_store.py]     (module [VectorStore])
      - [src/graph/nodes.py]               (module [GraphNodes])
      - [src/graph/graph.py]               (module [AIProcessingGraph])
      - [src/app.py], [process_pdf] only   (module [App])

    followed by the vocabulary of the statements, concrete capabilities for
    the examples, and the properties: [str.strip] and [str.lower], the
    intent classifier, the driver, the demotion of the vector store, the
    local search and store, the rounding of binary64, the cosine
    similarity, the ingestion result and the weather summary; then, function
    by function, the model service, the weather lookup, the nodes and the
    workflow, the construction and the invariants of the vector store, its
    persistent backend, the local search and the edges of the ingestion.

    Python values are the constructors of [pyval]; a [dict] with string keys
    is a [gmap string pyval]; a float is a binary64 [float] of the kernel,
    which is the arithmetic of NumPy's [float64].  A Python call that can
    raise returns a [result]; [try_except] is the [try ... except Exception]
    statement; a method that reads and writes attributes is a [stateful]
    computation.  The external capabilities (the chat model, the HTTP weather
    provider, the PDF reader, the text splitter, the sentence encoder, the
    Qdrant client, [uuid.uuid4], the LangGraph runtime) are parameters of the
    functions that call them.

    Limits of the model: a [str] is held as its UTF-8 bytes; [strip]
    removes every character of [str.isspace], ASCII or not, while [lower]
    and [title] change the case of the ASCII letters only (no other
    character is lower-cased by Python to an ASCII letter of ["weather"] or
    ["pdf"]); [np.dot] sums from the left; [list.sort] is the
    stable sort it is on keys without NaN; the identifiers of [uuid4] are
    those of a sequence of draws; the temperature of the chat model is an
    attribute that an assignment overwrites; [print] is left out. *)

From Stdlib Require Import ZArith QArith Qpower String Ascii List Bool Floats Sorted Lia Lqa.
From stdpp Require Import base option list strings gmap pretty.

Local Open Scope string_scope.
Local Open Scope Z_scope.
Set Warnings "-register-all".

(* ===================================================================== *)
(** * Python values, exceptions and the [str] methods the code calls     *)
(* ===================================================================== *)

Module Py.

(** The values that flow through the pipeline: JSON data of the weather
    provider, payloads and metadata of the vector store, the result
    mappings of the drivers. *)
Inductive pyval : Type :=
| PyNone
| PyBool (b : bool)
| PyInt (z : Z)
| PyFloat (f : float)
| PyStr (s : string)
| PyList (l : list pyval)
| PyDict (d : gmap string pyval).

(** The exception classes the handlers of the sources tell apart.  All of
    them are subclasses of [Exception]; [BaseException]s that are not
    ([KeyboardInterrupt], [SystemExit]) are outside the model. *)
Inductive exn_class : Type :=
| RequestException
| KeyError
| TypeError
| IndexError
| AttributeError
| ValueError
| RuntimeError.

Record exn : Type := Exn { exn_cls : exn_class; exn_msg : string }.

(** The outcome of a Python call: a value, or a raised exception. *)
Inductive result (A : Type) : Type :=
| Ok (a : A)
| Raise (e : exn).
Arguments Ok {A} a.
Arguments Raise {A} e.

Definition bind {A B} (r : result A) (k : A -> result B) : result B :=
  match r with
  | Ok a => k a
  | Raise e => Raise e
  end.

(** [try: body  except Exception as e: handler e]. *)
Definition try_except {A} (body : result A) (handler : exn -> result A) : result A :=
  match body with
  | Ok a => Ok a
  | Raise e => handler e
  end.

(** [try: body  except (C1, C2, ...) as e: handler e]: other classes propagate. *)
Definition try_except_only {A} (catches : exn_class -> bool)
    (body : result A) (handler : exn -> result A) : result A :=
  match body with
  | Ok a => Ok a
  | Raise e => if catches (exn_cls e) then handler e else Raise e
  end.

Definition raises {A} (r : result A) : Prop :=
  match r with
  | Ok _ => False
  | Raise _ => True
  end.

(** A call that also reads and writes a state [S] (the attributes of an
    object, a remote service): it returns or raises, and what it wrote
    before raising stays written. *)
Definition stateful (S A : Type) : Type := S -> result A * S.

Definition ret {S A} (a : A) : stateful S A := fun s => (Ok a, s).
Definition throw {S A} (e : exn) : stateful S A := fun s => (Raise e, s).
Definition lift {S A} (r : result A) : stateful S A := fun s => (r, s).
Definition mbindM {S A B} (m : stateful S A) (k : A -> stateful S B) : stateful S B :=
  fun s => match m s with
           | (Ok a, s') => k a s'
           | (Raise e, s') => (Raise e, s')
           end.
Definition try_exceptM {S A} (body : stateful S A) (handler : exn -> stateful S A)
    : stateful S A :=
  fun s => match body s with
           | (Ok a, s') => (Ok a, s')
           | (Raise e, s') => handler e s'
           end.

(** [str(e)] of an exception is its message. *)
Definition str_exn (e : exn) : string := exn_msg e.

(** ** Truthiness ([if x], [not x], [x or y]) *)

Definition truthy (v : pyval) : bool :=
  match v with
  | PyNone => false
  | PyBool b => b
  | PyInt z => negb (z =? 0)
  | PyFloat f => negb (PrimFloat.eqb f 0%float)
  | PyStr s => negb (String.eqb s "")
  | PyList l => match l with [] => false | _ => true end
  | PyDict d => negb (size d =? 0)%nat
  end.

(** A dict is true when [len] of it is not zero. *)
Definition dict_truthy (d : gmap string pyval) : bool :=
  negb (size d =? 0)%nat.

(** ** Character classes

    A [str] is held as its UTF-8 bytes, so a character is a string of one
    to four bytes. *)

(** The UTF-8 bytes of a code point below 65536. *)
Definition utf8 (cp : N) : string :=
  if (cp <? 128)%N then String (ascii_of_N cp) EmptyString
  else if (cp <? 2048)%N
  then String (ascii_of_N (192 + cp / 64))
              (String (ascii_of_N (128 + cp mod 64)) EmptyString)
  else String (ascii_of_N (224 + cp / 4096))
              (String (ascii_of_N (128 + (cp / 64) mod 64))
                      (String (ascii_of_N (128 + cp mod 64)) EmptyString)).

(** The code points on which [str.isspace] is true, which are the ones
    [str.strip] removes: TAB, LF, VT, FF, CR, the separators FS, GS, RS and
    US, the space, NEL, the no-break space, the Ogham space mark, the spaces
    U+2000 to U+200A, the line and the paragraph separator, the narrow
    no-break space, the medium mathematical space and the ideographic
    space. *)
Definition whitespace_code_points : list N :=
  [ 9; 10; 11; 12; 13; 28; 29; 30; 31; 32; 133; 160; 5760;
    8192; 8193; 8194; 8195; 8196; 8197; 8198; 8199; 8200; 8201; 8202;
    8232; 8233; 8239; 8287; 12288 ]%N.

Definition WHITESPACE : list string :=
  Eval vm_compute in utf8 <$> whitespace_code_points.

(** [c.isspace()] for one character [c], given as its bytes. *)
Definition py_isspace (c : string) : bool := existsb (String.eqb c) WHITESPACE.

(** The cased characters handled are the ASCII letters; a byte above 127
    is left as it is. *)
Definition is_upper (c : ascii) : bool :=
  let n := nat_of_ascii c in ((65 <=? n) && (n <=? 90))%nat.

Definition is_lower (c : ascii) : bool :=
  let n := nat_of_ascii c in ((97 <=? n) && (n <=? 122))%nat.

Definition to_lower (c : ascii) : ascii :=
  if is_upper c then ascii_of_nat (nat_of_ascii c + 32) else c.

Definition to_upper (c : ascii) : ascii :=
  if is_lower c then ascii_of_nat (nat_of_ascii c - 32) else c.

(** ** [str.strip], [str.lower], [str.title] *)

(** [s.lstrip()]: the white-space characters at the start are dropped; one
    of them takes one, two or three bytes. *)
Fixpoint lstrip (s : string) : string :=
  match s with
  | EmptyString => s
  | String b0 s1 =>
      if py_isspace (String b0 EmptyString) then lstrip s1
      else
        match s1 with
        | EmptyString => s
        | String b1 s2 =>
            if py_isspace (String b0 (String b1 EmptyString)) then lstrip s2
            else
              match s2 with
              | EmptyString => s
              | String b2 s3 =>
                  if py_isspace (String b0 (String b1 (String b2 EmptyString)))
                  then lstrip s3
                  else s
              end
        end
  end.

(** [s.rstrip()]: the string is cut where what is left of it is white space
    only, that is where [lstrip] would drop all of it. *)
Fixpoint rstrip (s : string) : string :=
  match s with
  | EmptyString => EmptyString
  | String c s' =>
      if String.eqb (lstrip s) EmptyString then EmptyString
      else String c (rstrip s')
  end.

Definition strip (s : string) : string := rstrip (lstrip s).

Fixpoint lower (s : string) : string :=
  match s with
  | EmptyString => EmptyString
  | String c s' => String (to_lower c) (lower s')
  end.

(** [str.title]: a cased character that follows an uncased one is put in
    upper case, one that follows a cased one in lower case. *)
Fixpoint title_from (previous_is_cased : bool) (s : string) : string :=
  match s with
  | EmptyString => EmptyString
  | String c s' =>
      if is_lower c || is_upper c
      then String (if previous_is_cased then to_lower c else to_upper c)
                  (title_from true s')
      else String c (title_from false s')
  end.

Definition title (s : string) : string := title_from false s.

(** The line feed, written [\n] in the sources, and the double quote. *)
Definition NL : string := String (ascii_of_nat 10) EmptyString.
Definition DQ : string := String (ascii_of_nat 34) EmptyString.

(** ** Method calls on a value of unknown type *)

Definition attribute_error (what : string) : exn :=
  Exn AttributeError ("object has no attribute '" ++ what ++ "'").

(** [v.strip()], [v.lower()], [v.title()]: only a [str] has them. *)
Definition str_method (name : string) (f : string -> string) (v : pyval) : result string :=
  match v with
  | PyStr s => Ok (f s)
  | _ => Raise (attribute_error name)
  end.

(** [d.get(key, default)] on a value: only a [dict] has [get]. *)
Definition py_get (v : pyval) (key : string) (dflt : pyval) : result pyval :=
  match v with
  | PyDict d => Ok (default dflt (d !! key))
  | _ => Raise (attribute_error "get")
  end.

(** [v[0]]. *)
Definition py_index0 (v : pyval) : result pyval :=
  match v with
  | PyList (x :: _) => Ok x
  | PyList [] => Raise (Exn IndexError "list index out of range")
  | PyStr (String c _) => Ok (PyStr (String c EmptyString))
  | PyStr EmptyString => Raise (Exn IndexError "string index out of range")
  | PyDict _ => Raise (Exn KeyError "0")
  | _ => Raise (Exn TypeError "object is not subscriptable")
  end.

(** ** Formatting a value inside an f-string ([str(v)])

    [float_repr] is Python's shortest round-trip rendering of a float and
    [container_repr] the rendering of a list or a dict; both are left to
    the caller of the formatting functions. *)
Section Formatting.
Variable float_repr : float -> string.
Variable container_repr : pyval -> string.

Definition py_str (v : pyval) : string :=
  match v with
  | PyNone => "None"
  | PyBool true => "True"
  | PyBool false => "False"
  | PyInt z => pretty z
  | PyFloat f => float_repr f
  | PyStr s => s
  | PyList _ | PyDict _ => container_repr v
  end.
End Formatting.

End Py.

Export Py.

(** [x ← r; k] runs [k] on the value of [r] and propagates what [r] raises. *)
#[global] Instance result_ret : MRet result := fun A a => Ok a.
#[global] Instance result_bind : MBind result := fun A B k r => Py.bind r k.

(** [do x <- m; k] and [m ;; k] sequence calls that share a state. *)
Notation "'do' x <- m ; k" := (mbindM m (fun x => k))
  (at level 10, x name, m at level 100, k at level 200, only parsing).
Notation "m ;; k" := (mbindM m (fun _ => k))
  (at level 100, k at level 200, right associativity, only parsing).

(* ===================================================================== *)
(** * [src/services/groq_service.py]                                    *)
(* ===================================================================== *)

Module GroqService.

(** A LangChain message object: [SystemMessage], [HumanMessage], [AIMessage]. *)
Inductive role : Type := System | Human | AI.
Record message : Type := Message { msg_role : role; msg_content : pyval }.

Definition SystemMessage (content : string) : message := Message System (PyStr content).
Definition HumanMessage (content : string) : message := Message Human (PyStr content).

(** What a caller may put in the list handed to [invoke]: a message object,
    or a dict with the keys [role] and [content]. *)
Inductive message_like : Type :=
| MsgObject (m : message)
| MsgDict (d : gmap string pyval).

(** The string every failure of the model call is turned into. *)
Definition APOLOGY : string :=
  "I apologize, but I encountered an error processing your request.".

Section Invoke.
(** [self.llm.invoke]: the chat model, handed the list of messages.  It
    returns the [content] of the answer, or raises. *)
Variable llm_invoke : list message_like -> result pyval.

(** One step of the conversion loop of [invoke]: [msg.get("role", "user")],
    [msg.get("content", "")], then the message class chosen by the role.
    A message object has no [get]; a message class takes a string or a list
    of blocks as its content. *)
Definition convert_message (msg : message_like) : result message :=
  match msg with
  | MsgObject _ => Raise (attribute_error "get")
  | MsgDict d =>
      let role := default (PyStr "user") (d !! "role") in
      let content := default (PyStr "") (d !! "content") in
      match content with
      | PyStr _ | PyList _ =>
          Ok (match role with
              | PyStr "system" => Message System content
              | PyStr "assistant" => Message AI content
              | _ => Message Human content
              end)
      | _ => Raise (Exn ValueError "content: input should be a string or a list")
      end
  end.

Fixpoint convert_messages (msgs : list message_like) : result (list message_like) :=
  match msgs with
  | [] => Ok []
  | msg :: rest =>
      m ← convert_message msg;
      ms ← convert_messages rest;
      Ok (MsgObject m :: ms)
  end.

(** [GroqService.invoke]: dicts are converted when the first element is a
    dict; the returned dict has the single key [content]. *)
Definition invoke (messages : list message_like) : result (gmap string pyval) :=
  try_except
    (langchain_messages ←
       match messages with
       | MsgDict _ :: _ => convert_messages messages
       | _ => Ok messages
       end;
     content ← llm_invoke langchain_messages;
     Ok ({[ "content" := content ]} : gmap string pyval))
    (fun e => Ok ({[ "content" := PyStr APOLOGY ]} : gmap string pyval)).

(** [response["content"]]. *)
Definition getitem (d : gmap string pyval) (key : string) : result pyval :=
  match d !! key with
  | Some v => Ok v
  | None => Raise (Exn KeyError key)
  end.
End Invoke.

Section ChatCompletion.
(** [self.llm.invoke] when [self.llm.temperature] holds the given value. *)
Variable llm_at : float -> list message_like -> result pyval.

(** The literal [0.1]: the binary64 nearest to one tenth. *)
Definition DEFAULT_TEMPERATURE : float := 0x1.999999999999ap-4%float.

(** [self.llm.temperature = temperature]. *)
Definition set_temperature (temperature : float) : stateful float unit :=
  fun _ => (Ok tt, temperature).

(** [self.invoke(messages)] with the model at its current temperature. *)
Definition invoke_at_current (messages : list message_like)
    : stateful float (gmap string pyval) :=
  fun t => (invoke (llm_at t) messages, t).

(** [chat_completion]: the state is [self.llm.temperature], which
    [GroqService.__init__] sets to [0.1]; [result.get("content")] is [None]
    for a missing key and the handler returns [None]. *)
Definition chat_completion (messages : list message_like) (temperature : float)
    : stateful float pyval :=
  try_exceptM
    ((if negb (PrimFloat.eqb temperature DEFAULT_TEMPERATURE)
      then set_temperature temperature
      else ret tt) ;;
     do result <- invoke_at_current messages;
     ret (default PyNone (result !! "content")))
    (fun e => ret PyNone).
End ChatCompletion.

End GroqService.

(* ===================================================================== *)
(** * [src/services/weather_services.py]                                *)
(* ===================================================================== *)

Module WeatherService.

Section Weather.
(** [requests.get(base_url, params, timeout=10)], [raise_for_status()] and
    [response.json()] for a city: the decoded JSON body, or the exception
    one of the three raises. *)
Variable http_get_json : string -> result pyval.
Variables (float_repr : float -> string) (container_repr : pyval -> string).

(** [data.get('cod') not in (200, '200')]: [==] against the int and the
    string; a float equal to 200 compares equal to the int. *)
Definition cod_is_200 (cod : pyval) : bool :=
  match cod with
  | PyInt z => z =? 200
  | PyFloat f => PrimFloat.eqb f 200%float
  | PyStr s => String.eqb s "200"
  | _ => false
  end.

Definition caught_when_parsing (c : exn_class) : bool :=
  match c with
  | RequestException | KeyError | TypeError | IndexError => true
  | _ => false
  end.

(** [get_weather]: [Ok None] is the Python [None]. *)
Definition get_weather (city : string) : result (option (gmap string pyval)) :=
  try_except_only caught_when_parsing
    (data ← http_get_json city;
     cod ← py_get data "cod" PyNone;
     if negb (cod_is_200 cod) then Ok None
     else
       name ← py_get data "name" (PyStr city);
       sys ← py_get data "sys" (PyDict ∅);
       country ← py_get sys "country" (PyStr "");
       main ← py_get data "main" (PyDict ∅);
       temp ← py_get main "temp" PyNone;
       main' ← py_get data "main" (PyDict ∅);
       feels_like ← py_get main' "feels_like" PyNone;
       main'' ← py_get data "main" (PyDict ∅);
       humidity ← py_get main'' "humidity" PyNone;
       weather ← py_get data "weather" (PyList [PyDict ∅]);
       first ← py_index0 weather;
       description ← py_get first "description" (PyStr "");
       wind ← py_get data "wind" (PyDict ∅);
       speed ← py_get wind "speed" PyNone;
       Ok (Some (<[ "city" := name ]>
                (<[ "country" := country ]>
                (<[ "temperature" := temp ]>
                (<[ "feels_like" := feels_like ]>
                (<[ "humidity" := humidity ]>
                (<[ "description" := description ]>
                (<[ "wind_speed" := speed ]> (∅ : gmap string pyval))))))))))
    (fun e => Ok None).

(** [weather_data.get(key, default)] formatted inside the f-string. *)
Definition field (weather_data : gmap string pyval) (key : string) (dflt : string) : string :=
  py_str float_repr container_repr (default (PyStr dflt) (weather_data !! key)).

(** [format_weather_response]. *)
Definition format_weather_response (weather_data : gmap string pyval) : result string :=
  if negb (dict_truthy weather_data) then Ok "Weather data not available."
  else
    condition ← str_method "title" title
                  (default (PyStr "Unknown") (weather_data !! "description"));
    Ok ("Weather in " ++ field weather_data "city" "Unknown" ++ ", "
          ++ field weather_data "country" "" ++ ":" ++ NL
        ++ "- Temperature: " ++ field weather_data "temperature" "N/A"
          ++ "°C (feels like " ++ field weather_data "feels_like" "N/A" ++ "°C)" ++ NL
        ++ "- Condition: " ++ condition ++ NL
        ++ "- Humidity: " ++ field weather_data "humidity" "N/A" ++ "%" ++ NL
        ++ "- Wind Speed: " ++ field weather_data "wind_speed" "N/A" ++ " m/s").
End Weather.

End WeatherService.

(* ===================================================================== *)
(** * [src/services/pdf_service.py]                                     *)
(* ===================================================================== *)

Module PDFService.

Definition vector : Type := list float.

Section PDF.
(** [PyPDF2.PdfReader(open(pdf_path, 'rb')).pages] with [extract_text()]
    on each page: the page texts, or what opening or reading raises. *)
Variable read_pages : string -> result (list string).
(** [RecursiveCharacterTextSplitter(chunk_size=1000, chunk_overlap=200)
    .split_text]. *)
Variable split_text : string -> list string.
(** [SentenceTransformer.encode(texts).tolist()]. *)
Variable encode : list string -> result (list vector).

Fixpoint join_pages (pages : list string) : string :=
  match pages with
  | [] => ""
  | page :: rest => (page ++ NL) ++ join_pages rest
  end.

(** The loop [text += page.extract_text() + "\n"] starts from [""]. *)
Definition extract_text_from_pdf (pdf_path : string) : string :=
  match read_pages pdf_path with
  | Ok pages => join_pages pages
  | Raise _ => ""
  end.

Definition chunk_text (text : string) : list string :=
  if String.eqb (strip text) "" then [] else split_text text.

Definition create_embeddings (chunks : list string) : list vector :=
  match encode chunks with
  | Ok embeddings => embeddings
  | Raise _ => []
  end.

(** [embedding[0].tolist()] of [encode([query])]; [[]] on any exception,
    an empty answer of the encoder included. *)
Definition create_query_embedding (query : string) : vector :=
  match encode [query] with
  | Ok (embedding :: _) => embedding
  | Ok [] => []
  | Raise _ => []
  end.

Definition py_chunks (chunks : list string) : pyval := PyList (PyStr <$> chunks).
Definition py_vector (v : vector) : pyval := PyList (PyFloat <$> v).
Definition py_embeddings (embeddings : list vector) : pyval :=
  PyList (py_vector <$> embeddings).

(** [process_pdf]: the two early returns carry no [metadata]. *)
Definition process_pdf (pdf_path : string) : gmap string pyval :=
  let text := extract_text_from_pdf pdf_path in
  if String.eqb text "" then
    <[ "chunks" := PyList [] ]> (<[ "embeddings" := PyList [] ]> ∅)
  else
    let chunks := chunk_text text in
    match chunks with
    | [] => <[ "chunks" := PyList [] ]> (<[ "embeddings" := PyList [] ]> ∅)
    | _ =>
        let embeddings := create_embeddings chunks in
        <[ "chunks" := py_chunks chunks ]>
        (<[ "embeddings" := py_embeddings embeddings ]>
        (<[ "metadata" :=
              PyDict (<[ "source" := PyStr pdf_path ]>
                     (<[ "total_chunks" := PyInt (Z.of_nat (length chunks)) ]> ∅)) ]> ∅))
    end.
End PDF.

End PDFService.

(* ===================================================================== *)
(** * [src/services/vector_store.py]                                    *)
(* ===================================================================== *)

Module VectorStore.

Import PDFService.

(** One record of [self._memory_store]: the dict with the keys [id],
    [vector], [text], [chunk_index] and [metadata]. *)
Record Item : Type := mkItem {
  item_id : string;
  item_vector : vector;
  item_text : string;
  item_chunk_index : nat;
  item_metadata : gmap string pyval
}.

(** One search result: the dict with the keys [text], [score], [metadata]. *)
Record DocumentMatch : Type := mkDoc {
  doc_text : pyval;
  doc_score : float;
  doc_metadata : gmap string pyval
}.

(** [qdrant_client.models.PointStruct] and a scored point of a search. *)
Record PointStruct : Type := mkPoint {
  point_id : string;
  point_vector : vector;
  point_payload : gmap string pyval
}.

Record ScoredPoint : Type := mkHit {
  hit_payload : option (gmap string pyval);
  hit_score : float
}.

(** What [get_collection_info] reads off [client.get_collection]:
    [info.config.params.vectors.size], [....distance.value], [info.points_count]. *)
Record CollectionInfo : Type := mkInfo {
  info_vector_size : pyval;
  info_distance : pyval;
  info_points_count : pyval
}.

(** The Qdrant service as the store sees it: each call runs against the
    state [W] of the remote service and returns or raises. *)
Record QdrantClient (W : Type) : Type := mkClient {
  get_collections : W -> result (list string) * W;
  create_collection : string -> Z -> W -> result unit * W;
  upsert : string -> list PointStruct -> W -> result unit * W;
  search : string -> vector -> Z -> W -> result (list ScoredPoint) * W;
  get_collection : string -> W -> result CollectionInfo * W
}.
Arguments get_collections {W} _ _.
Arguments create_collection {W} _ _ _ _.
Arguments upsert {W} _ _ _ _.
Arguments search {W} _ _ _ _ _.
Arguments get_collection {W} _ _ _.

(** The instance: the attributes [use_cloud], [_memory_store] ([None] while
    the attribute has never been assigned) and [collection_name], the state
    of the remote service, and the number of identifiers drawn so far.
    [self.client] is set whenever [use_cloud] is. *)
Record VS (W : Type) : Type := mkVS {
  use_cloud : bool;
  _memory_store : option (list Item);
  collection_name : string;
  remote : W;
  uuid_drawn : nat
}.
Arguments mkVS {W} _ _ _ _ _.
Arguments use_cloud {W} _.
Arguments _memory_store {W} _.
Arguments collection_name {W} _.
Arguments remote {W} _.
Arguments uuid_drawn {W} _.

(** ** Similarity arithmetic ([numpy] on [float64]) *)

(** [np.dot] of two 1-D arrays: the sum of the products, accumulated from
    the left (the BLAS kernel may associate the sum differently, which can
    change the last bits of a sum of three or more terms).  Arrays of
    different lengths raise [ValueError]. *)
Fixpoint dot_from (acc : float) (v1 v2 : vector) : float :=
  match v1, v2 with
  | x :: v1', y :: v2' => dot_from (acc + x * y)%float v1' v2'
  | _, _ => acc
  end.

Definition np_dot (v1 v2 : vector) : result float :=
  if (length v1 =? length v2)%nat then Ok (dot_from 0%float v1 v2)
  else Raise (Exn ValueError "shapes not aligned").

(** [np.linalg.norm] of a 1-D array: [sqrt(dot(x, x))]. *)
Definition np_norm (v : vector) : float := PrimFloat.sqrt (dot_from 0%float v v).

(** [_cosine_similarity]; the bare [except:] returns [0.0]. *)
Definition _cosine_similarity (vec1 vec2 : vector) : float :=
  match
    dot_product ← np_dot vec1 vec2;
    let norm1 := np_norm vec1 in
    let norm2 := np_norm vec2 in
    if PrimFloat.eqb norm1 0%float || PrimFloat.eqb norm2 0%float then Ok 0%float
    else Ok (dot_product / (norm1 * norm2))%float
  with
  | Ok similarity => similarity
  | Raise _ => 0%float
  end.

(** ** [list.sort(key=..., reverse=True)] and the slice [l[:limit]] *)

(** The stable sort in descending order of the key: an element moves past
    the elements of strictly greater key only, so equal keys keep their
    order.  On keys without NaN this is what [list.sort] returns. *)
Section Sort.
Context {A : Type}.
Variable key : A -> float.

Fixpoint insert_desc (x : A) (l : list A) : list A :=
  match l with
  | [] => [x]
  | h :: t =>
      if PrimFloat.ltb (key x) (key h) then h :: insert_desc x t
      else x :: h :: t
  end.

Fixpoint sort_desc (l : list A) : list A :=
  match l with
  | [] => []
  | x :: l' => insert_desc x (sort_desc l')
  end.
End Sort.

(** [l[:limit]]: a negative [limit] counts from the end. *)
Definition slice_to {A} (limit : Z) (l : list A) : list A :=
  if 0 <=? limit then take (Z.to_nat limit) l
  else take (length l - Z.to_nat (- limit)) l.

(** ** The methods, as computations on the instance *)

Section Store.
Context {W : Type}.
(** [self.client]. *)
Variable client : QdrantClient W.
(** [self.pdf_service.embedding_model.encode]. *)
Variable encode : list string -> result (list vector).
(** [str(uuid.uuid4())]: the identifier of the n-th draw. *)
Variable uuid4 : nat -> string.

(** A method body: it reads and writes the attributes of [self]. *)
Definition M (A : Type) : Type := stateful (VS W) A.

Definition get_use_cloud : M bool := fun s => (Ok (use_cloud s), s).
Definition set_use_cloud (b : bool) : M unit :=
  fun s => (Ok tt, mkVS b (_memory_store s) (collection_name s) (remote s) (uuid_drawn s)).
Definition set_memory_store (l : list Item) : M unit :=
  fun s => (Ok tt, mkVS (use_cloud s) (Some l) (collection_name s) (remote s) (uuid_drawn s)).
Definition get_collection_name : M string := fun s => (Ok (collection_name s), s).

(** Reading [self._memory_store]: [AttributeError] while it was never assigned. *)
Definition get_memory_store : M (list Item) :=
  fun s => match _memory_store s with
           | Some l => (Ok l, s)
           | None => (Raise (attribute_error "_memory_store"), s)
           end.

(** A call of the client: it runs on the remote state. *)
Definition call {A} (f : W -> result A * W) : M A :=
  fun s => let '(r, w) := f (remote s) in
           (r, mkVS (use_cloud s) (_memory_store s) (collection_name s) w (uuid_drawn s)).

(** [str(uuid.uuid4())]. *)
Definition draw_uuid : M string :=
  fun s => (Ok (uuid4 (uuid_drawn s)),
            mkVS (use_cloud s) (_memory_store s) (collection_name s) (remote s)
                 (S (uuid_drawn s))).

(** [for i, x in enumerate(l): body], counting from [i]. *)
Fixpoint for_enumerate {A} (i : nat) (l : list A) (body : nat -> A -> M unit) : M unit :=
  match l with
  | [] => ret tt
  | x :: l' => body i x ;; for_enumerate (S i) l' body
  end.

(** [[f(x) for x in l]] with an [f] that may raise. *)
Fixpoint map_results {A B} (f : A -> result B) (l : list A) : result (list B) :=
  match l with
  | [] => Ok []
  | x :: l' => y ← f x; ys ← map_results f l'; Ok (y :: ys)
  end.

(** [metadata or {}]. *)
Definition metadata_or_empty (metadata : option (gmap string pyval)) : gmap string pyval :=
  default ∅ metadata.

(** The [try] block of [_ensure_collection]. *)
Definition _ensure_collection_try : M unit :=
  do collection_names <- call (get_collections client);
  do name <- get_collection_name;
  if bool_decide (name ∈ collection_names) then ret tt
  else call (create_collection client name 384).

(** [_ensure_collection]. *)
Definition _ensure_collection : M unit :=
  do cloud <- get_use_cloud;
  if negb cloud then ret tt
  else
    try_exceptM _ensure_collection_try
      (fun e => set_use_cloud false ;; set_memory_store []).

(** One turn of the loop of [_store_memory]: [self._memory_store.append]
    of the record with a fresh [id]. *)
Definition append_record (metadata : option (gmap string pyval))
    (i : nat) (pair : string * vector) : M unit :=
  do store <- get_memory_store;
  do id <- draw_uuid;
  set_memory_store
    (store ++ [mkItem id (snd pair) (fst pair) i (metadata_or_empty metadata)]).

(** [_store_memory]: the loop appends one record per pair of [zip]. *)
Definition _store_memory (chunks : list string) (embeddings : list vector)
    (metadata : option (gmap string pyval)) : M bool :=
  try_exceptM
    (for_enumerate 0%nat (zip chunks embeddings) (append_record metadata) ;;
     ret true)
    (fun e => ret false).

(** The payload [{"text": chunk, "chunk_index": i, **(metadata or {})}]:
    a key of [metadata] replaces an earlier one. *)
Definition payload (chunk : string) (i : nat) (metadata : option (gmap string pyval))
    : gmap string pyval :=
  metadata_or_empty metadata
    ∪ <[ "text" := PyStr chunk ]> (<[ "chunk_index" := PyInt (Z.of_nat i) ]> ∅).

(** The loop of [_store_cloud] that builds [points]. *)
Fixpoint build_points (i : nat) (pairs : list (string * vector))
    (metadata : option (gmap string pyval)) : M (list PointStruct) :=
  match pairs with
  | [] => ret []
  | (chunk, embedding) :: rest =>
      do id <- draw_uuid;
      do points <- build_points (S i) rest metadata;
      ret (mkPoint id embedding (payload chunk i metadata) :: points)
  end.

(** The [try] block of [_store_cloud]. *)
Definition _store_cloud_try (chunks : list string) (embeddings : list vector)
    (metadata : option (gmap string pyval)) : M bool :=
  do points <- build_points 0%nat (zip chunks embeddings) metadata;
  do name <- get_collection_name;
  call (upsert client name points) ;;
  ret true.

(** [_store_cloud]. *)
Definition _store_cloud (chunks : list string) (embeddings : list vector)
    (metadata : option (gmap string pyval)) : M bool :=
  try_exceptM (_store_cloud_try chunks embeddings metadata)
    (fun e => set_use_cloud false ;; _store_memory chunks embeddings metadata).

(** [store_embeddings]. *)
Definition store_embeddings (chunks : list string) (embeddings : list vector)
    (metadata : option (gmap string pyval)) : M bool :=
  do cloud <- get_use_cloud;
  if cloud then _store_cloud chunks embeddings metadata
  else _store_memory chunks embeddings metadata.

(** The pairs [(similarity, item)] of [_search_memory], sorted and cut. *)
Definition similarities (query_embedding : vector) (store : list Item)
    : list (float * Item) :=
  (fun item => (_cosine_similarity query_embedding (item_vector item), item)) <$> store.

Definition to_result (p : float * Item) : DocumentMatch :=
  mkDoc (PyStr (item_text (snd p))) (fst p) (item_metadata (snd p)).

(** [_search_memory]. *)
Definition _search_memory (query : string) (limit : Z) : M (list DocumentMatch) :=
  try_exceptM
    (do store <- get_memory_store;
     match store with
     | [] => ret []
     | _ =>
         match create_query_embedding encode query with
         | [] => ret []
         | query_embedding =>
             ret (to_result <$>
                    slice_to limit (sort_desc fst (similarities query_embedding store)))
         end
     end)
    (fun e => ret []).

(** One formatted result of [_search_cloud]; a point without payload has
    no [get]. *)
Definition format_hit (hit : ScoredPoint) : result DocumentMatch :=
  match hit_payload hit with
  | Some p => Ok (mkDoc (default (PyStr "") (p !! "text")) (hit_score hit) (delete "text" p))
  | None => Raise (attribute_error "get")
  end.

(** The [try] block of [_search_cloud]. *)
Definition _search_cloud_try (query : string) (limit : Z) : M (list DocumentMatch) :=
  match create_query_embedding encode query with
  | [] => ret []
  | query_embedding =>
      do name <- get_collection_name;
      do results <- call (search client name query_embedding limit);
      lift (map_results format_hit results)
  end.

(** [_search_cloud]. *)
Definition _search_cloud (query : string) (limit : Z) : M (list DocumentMatch) :=
  try_exceptM (_search_cloud_try query limit)
    (fun e => set_use_cloud false ;; _search_memory query limit).

(** [search_similar]. *)
Definition search_similar (query : string) (limit : Z) : M (list DocumentMatch) :=
  do cloud <- get_use_cloud;
  if cloud then _search_cloud query limit else _search_memory query limit.

(** [get_collection_info]: the local branch reads [_memory_store] outside
    any [try]. *)
Definition get_collection_info : M (gmap string pyval) :=
  do cloud <- get_use_cloud;
  do name <- get_collection_name;
  if cloud then
    try_exceptM
      (do info <- call (get_collection client name);
       ret (<[ "name" := PyStr name ]>
           (<[ "vector_size" := info_vector_size info ]>
           (<[ "distance" := info_distance info ]>
           (<[ "points_count" := info_points_count info ]>
           (<[ "storage" := PyStr "Qdrant Cloud" ]> ∅))))))
      (fun e =>
         ret (<[ "name" := PyStr name ]>
             (<[ "storage" := PyStr "Qdrant Cloud (error)" ]>
             (<[ "error" := PyStr (str_exn e) ]> ∅))))
  else
    do store <- get_memory_store;
    ret (<[ "name" := PyStr name ]>
        (<[ "storage" := PyStr "In-Memory" ]>
        (<[ "points_count" := PyInt (Z.of_nat (length store)) ]>
        (<[ "vector_size" := PyInt 384 ]> ∅)))).

(** [__init__] with the two settings of [Config] and the state of the
    remote service; [COLLECTION_NAME] is ["pdf_embeddings"]. *)
Definition __init__ (QDRANT_URL QDRANT_API_KEY : string) (w : W) : VS W :=
  if negb (String.eqb QDRANT_URL "") && negb (String.eqb QDRANT_API_KEY "")
  then snd (_ensure_collection (mkVS true None "pdf_embeddings" w 0%nat))
  else mkVS false (Some []) "pdf_embeddings" w 0%nat.
End Store.

End VectorStore.

(* ===================================================================== *)
(** * [src/graph/nodes.py]                                              *)
(* ===================================================================== *)

Module GraphNodes.

Import GroqService VectorStore.

(** [GraphState], the [TypedDict] threaded through the workflow. *)
Record GraphState : Type := mkState {
  query : string;
  intent : string;
  weather_data : gmap string pyval;
  retrieved_docs : list DocumentMatch;
  final_response : pyval;
  metadata : gmap string pyval
}.

(** The dict a node returns: the keys it holds replace those of the state. *)
Record Update : Type := mkUpdate {
  upd_intent : option string;
  upd_weather_data : option (gmap string pyval);
  upd_retrieved_docs : option (list DocumentMatch);
  upd_final_response : option pyval;
  upd_metadata : option (gmap string pyval)
}.

Definition no_update : Update := mkUpdate None None None None None.

Definition apply_update (state : GraphState) (u : Update) : GraphState :=
  mkState (query state)
          (default (intent state) (upd_intent u))
          (default (weather_data state) (upd_weather_data u))
          (default (retrieved_docs state) (upd_retrieved_docs u))
          (default (final_response state) (upd_final_response u))
          (default (metadata state) (upd_metadata u)).

(** The prompts, line by line as the triple-quoted literals hold them. *)
Definition indent (n : nat) : string := string_of_list_ascii (replicate n " "%char).

Definition CLASSIFY_PROMPT : string :=
  "You are an intent classifier. Classify the user query as either:" ++ NL
  ++ indent 12 ++ "- " ++ DQ ++ "weather" ++ DQ
  ++ ": if asking about weather, temperature, climate conditions" ++ NL
  ++ indent 12 ++ "- " ++ DQ ++ "pdf" ++ DQ
  ++ ": if asking about document content, information from files" ++ NL
  ++ NL
  ++ indent 12 ++ "Respond with only one word: " ++ DQ ++ "weather" ++ DQ
  ++ " or " ++ DQ ++ "pdf" ++ DQ ++ " ".

Definition CITY_PROMPT : string :=
  "Extract the city name from this weather query. " ++ NL
  ++ indent 20 ++ "Respond with only the city name, nothing else." ++ NL
  ++ indent 20 ++ "If no city is mentioned, respond with " ++ DQ ++ "London" ++ DQ
  ++ " as default.".

Definition WEATHER_PROMPT : string :=
  "You are a helpful weather assistant. Provide a natural, conversational response " ++ NL
  ++ "about the weather based on the provided data. Be concise but informative.".

Definition PDF_PROMPT : string :=
  "You are a helpful assistant that answers questions based on provided document context."
  ++ NL ++ "Use only the information from the context to answer the question."
  ++ NL ++ "If the context doesn't contain enough information, say so clearly.".

Definition NO_WEATHER : string :=
  "I couldn't retrieve weather information. Please check the city name and try again.".
Definition NO_DOCUMENTS : string :=
  "I couldn't find relevant information in the document. Please try rephrasing your question.".
Definition GENERATE_APOLOGY : string :=
  "I apologize, but I encountered an error while processing your request.".

Section Nodes.
Context {W : Type}.
(** The model behind [self.llm], the provider behind [self.weather_service]
    and what [self.vector_store] is built on. *)
Variable llm_invoke : list message_like -> result pyval.
Variable http_get_json : string -> result pyval.
Variables (float_repr : float -> string) (container_repr : pyval -> string).
Variable client : QdrantClient W.
Variable encode : list string -> result (list PDFService.vector).

Definition ask (system human : string) : result (gmap string pyval) :=
  GroqService.invoke llm_invoke
    [MsgObject (SystemMessage system); MsgObject (HumanMessage human)].

(** [intent not in ["weather", "pdf"]]. *)
Definition valid_intent (intent : string) : bool :=
  String.eqb intent "weather" || String.eqb intent "pdf".

(** [classify_intent]. *)
Definition classify_intent (state : GraphState) : result Update :=
  try_except
    (response ← ask CLASSIFY_PROMPT (query state);
     content ← getitem response "content";
     stripped ← str_method "strip" strip content;
     let intent := lower stripped in
     let intent := if negb (valid_intent intent) then "pdf" else intent in
     Ok (mkUpdate (Some intent) None None None
                  (Some {[ "intent_classification" := PyStr intent ]})))
    (fun e =>
       Ok (mkUpdate (Some "pdf") None None None
                    (Some {[ "intent_classification" := PyStr "error" ]}))).

(** [fetch_weather]: [weather_data or {}]. *)
Definition fetch_weather (state : GraphState) : result Update :=
  try_except
    (response ← ask CITY_PROMPT (query state);
     content ← getitem response "content";
     city ← str_method "strip" strip content;
     data ← WeatherService.get_weather http_get_json city;
     Ok (mkUpdate None (Some (default ∅ data)) None None None))
    (fun e => Ok (mkUpdate None (Some ∅) None None None)).

(** [retrieve_from_pdf]: the search runs on the store of the instance. *)
Definition retrieve_from_pdf (state : GraphState) : stateful (VS W) Update :=
  try_exceptM
    (do results <- search_similar client encode (query state) 3;
     ret (mkUpdate None None (Some results) None None))
    (fun e => ret (mkUpdate None None (Some []) None None)).

(** [_generate_weather_response]. *)
Definition _generate_weather_response (state : GraphState) : result pyval :=
  if negb (dict_truthy (weather_data state)) then Ok (PyStr NO_WEATHER)
  else
    weather_text ← WeatherService.format_weather_response
                     float_repr container_repr (weather_data state);
    response ← ask WEATHER_PROMPT
                 ("User query: " ++ query state ++ NL ++ NL
                  ++ "Weather data:" ++ NL ++ weather_text);
    getitem response "content".

(** [sep.join(l)]: every element has to be a [str]. *)
Fixpoint join (sep : string) (l : list pyval) : result string :=
  match l with
  | [] => Ok ""
  | [PyStr s] => Ok s
  | PyStr s :: rest => tail ← join sep rest; Ok (s ++ sep ++ tail)
  | _ :: _ => Raise (Exn TypeError "sequence item: expected str instance")
  end.

(** [_generate_pdf_response]. *)
Definition _generate_pdf_response (state : GraphState) : result pyval :=
  match retrieved_docs state with
  | [] => Ok (PyStr NO_DOCUMENTS)
  | docs =>
      context ← join (NL ++ NL) (doc_text <$> docs);
      response ← ask PDF_PROMPT
                   ("Question: " ++ query state ++ NL ++ NL
                    ++ "Context:" ++ NL ++ context);
      getitem response "content"
  end.

(** [generate_response]. *)
Definition generate_response (state : GraphState) : result Update :=
  try_except
    (response ←
       (if String.eqb (intent state) "weather"
        then _generate_weather_response state
        else _generate_pdf_response state);
     Ok (mkUpdate None None None (Some response) None))
    (fun e => Ok (mkUpdate None None None (Some (PyStr GENERATE_APOLOGY)) None)).
End Nodes.

End GraphNodes.

(* ===================================================================== *)
(** * [src/graph/graph.py]                                              *)
(* ===================================================================== *)

Module AIProcessingGraph.

Import GroqService VectorStore GraphNodes.

(** [self.graph], the compiled LangGraph workflow: [invoke] and [ainvoke]
    run it on a state and return the final state, or raise.  [S] is all a
    run can read and write besides its own state. *)
Record CompiledGraph (S : Type) : Type := mkGraph {
  invoke : GraphState -> stateful S GraphState;
  ainvoke : GraphState -> stateful S GraphState
}.
Arguments invoke {S} _ _.
Arguments ainvoke {S} _ _.

Definition ERROR_RESPONSE : string :=
  "I encountered an error while processing your request. Please try again.".

Definition initial_state (query : string) : GraphState :=
  mkState query "" ∅ [] (PyStr "") ∅.

(** The mapping returned after a run. *)
Definition package (query : string) (result : GraphState) : gmap string pyval :=
  <[ "query" := PyStr query ]>
  (<[ "intent" := PyStr (intent result) ]>
  (<[ "response" := final_response result ]>
  (<[ "weather_data" := PyDict (weather_data result) ]>
  (<[ "retrieved_docs_count" := PyInt (Z.of_nat (length (retrieved_docs result))) ]>
  (<[ "metadata" := PyDict (metadata result) ]> ∅))))).

(** The mapping returned by the handler. *)
Definition error_result (query : string) (e : exn) : gmap string pyval :=
  <[ "query" := PyStr query ]>
  (<[ "intent" := PyStr "unknown" ]>
  (<[ "response" := PyStr ERROR_RESPONSE ]>
  (<[ "weather_data" := PyDict ∅ ]>
  (<[ "retrieved_docs_count" := PyInt 0 ]>
  (<[ "metadata" := PyDict {[ "error" := PyStr (str_exn e) ]} ]> ∅))))).

Section Driver.
Context {S : Type}.
Variable graph : CompiledGraph S.

(** [process_query]. *)
Definition process_query (query : string) : stateful S (gmap string pyval) :=
  try_exceptM
    (do result <- invoke graph (initial_state query);
     ret (package query result))
    (fun e => ret (error_result query e)).

(** [aprocess_query]: the same body around [await self.graph.ainvoke]. *)
Definition aprocess_query (query : string) : stateful S (gmap string pyval) :=
  try_exceptM
    (do result <- ainvoke graph (initial_state query);
     ret (package query result))
    (fun e => ret (error_result query e)).
End Driver.

(** ** The workflow of [_build_graph] *)

Section Workflow.
Context {W : Type}.
Variable llm_invoke : list message_like -> result pyval.
Variable http_get_json : string -> result pyval.
Variables (float_repr : float -> string) (container_repr : pyval -> string).
Variable client : QdrantClient W.
Variable encode : list string -> result (list PDFService.vector).

Inductive node : Type := FetchWeather | RetrieveFromPdf.

(** [_route_by_intent]. *)
Definition _route_by_intent (state : GraphState) : string := intent state.

(** The table of [add_conditional_edges]; a key outside it makes the
    runtime raise. *)
Definition conditional_edges (key : string) : result node :=
  if String.eqb key "weather" then Ok FetchWeather
  else if String.eqb key "pdf" then Ok RetrieveFromPdf
  else Raise (Exn KeyError key).

(** Entry point [classify_intent], the conditional edge, then
    [generate_response] and [END]; the update of each node is written
    into the state before the next one runs. *)
Definition run (state : GraphState) : stateful (VS W) GraphState :=
  do u1 <- lift (classify_intent llm_invoke state);
  let state1 := apply_update state u1 in
  do next <- lift (conditional_edges (_route_by_intent state1));
  do u2 <- match next with
           | FetchWeather => lift (fetch_weather llm_invoke http_get_json state1)
           | RetrieveFromPdf => retrieve_from_pdf client encode state1
           end;
  let state2 := apply_update state1 u2 in
  do u3 <- lift (generate_response llm_invoke float_repr container_repr state2);
  ret (apply_update state2 u3).

(** The graph of [AIProcessingGraph.__init__]. *)
Definition compiled : CompiledGraph (VS W) := mkGraph _ run run.
End Workflow.

End AIProcessingGraph.

(* ===================================================================== *)
(** * [src/app.py]: the ingestion of an uploaded file                   *)
(* ===================================================================== *)

Module App.

Import PDFService VectorStore.

Section Ingestion.
Context {W : Type}.
Variable read_pages : string -> result (list string).
Variable split_text : string -> list string.
Variable encode : list string -> result (list vector).
Variable client : QdrantClient W.
Variable uuid4 : nat -> string.
Variables (QDRANT_URL QDRANT_API_KEY : string).

(** What [process_pdf] of the app did with the store: nothing, one
    [store_embeddings] on a fresh [VectorStore()] with its outcome, or an
    exception caught by its handler. *)
Inductive ingestion : Type :=
| NoTextExtracted
| Stored (success : bool) (store : VS W)
| Failed (e : exn).

(** Reading [result["chunks"]] and [result["embeddings"]] back. *)
Definition as_strings (v : pyval) : list string :=
  match v with
  | PyList l => omap (fun x => match x with PyStr s => Some s | _ => None end) l
  | _ => []
  end.

Definition as_vector (v : pyval) : option vector :=
  match v with
  | PyList l => Some (omap (fun x => match x with PyFloat f => Some f | _ => None end) l)
  | _ => None
  end.

Definition as_vectors (v : pyval) : list vector :=
  match v with
  | PyList l => omap as_vector l
  | _ => []
  end.

(** The body of [process_pdf] between writing the temporary file and the
    message: [result["chunks"]] decides whether a store is built at all. *)
Definition process_pdf (tmp_path filename : string) (w : W) : ingestion :=
  let result := PDFService.process_pdf read_pages split_text encode tmp_path in
  match result !! "chunks", result !! "embeddings" with
  | Some chunks, embeddings =>
      if truthy chunks then
        let vector_store := __init__ client QDRANT_URL QDRANT_API_KEY w in
        match store_embeddings client uuid4 (as_strings chunks)
                (as_vectors (default PyNone embeddings))
                (Some {[ "filename" := PyStr filename ]}) vector_store with
        | (Ok success, vector_store') => Stored success vector_store'
        | (Raise e, _) => Failed e
        end
      else NoTextExtracted
  | None, _ => Failed (Exn KeyError "chunks")
  end.
End Ingestion.

End App.

(* ===================================================================== *)
(** * The vocabulary of the statements                                  *)
(* ===================================================================== *)

Import GroqService VectorStore GraphNodes AIProcessingGraph.

(** ** The classifier and the driver *)

(** The value a node update records under [intent_classification]. *)
Definition recorded_classification (u : Update) : option pyval :=
  upd_metadata u ≫= (fun m => m !! "intent_classification").

(** The messages [classify_intent] sends for a state. *)
Definition classify_messages (state : GraphState) : list message_like :=
  [MsgObject (SystemMessage CLASSIFY_PROMPT); MsgObject (HumanMessage (query state))].

(** The value is a [str]. *)
Definition is_str (v : pyval) : bool :=
  match v with
  | PyStr _ => true
  | _ => false
  end.

(** The keys of the mapping the drivers return. *)
Definition result_keys : gset string :=
  {[ "query"; "intent"; "response"; "weather_data"; "retrieved_docs_count"; "metadata" ]}.

(** ** The vector store *)

(** [self.use_cloud = False]. *)
Definition demoted {W} (s : VS W) : VS W :=
  mkVS false (_memory_store s) (collection_name s) (remote s) (uuid_drawn s).

(** The operations a caller can run on an instance. *)
Inductive operation : Type :=
| EnsureCollection
| StoreEmbeddings (chunks : list string) (embeddings : list PDFService.vector)
    (metadata : option (gmap string pyval))
| SearchSimilar (query : string) (limit : Z)
| GetCollectionInfo.

(** The instance after an operation, whatever it returned or raised. *)
Definition perform {W} (client : QdrantClient W)
    (encode : list string -> result (list PDFService.vector)) (uuid4 : nat -> string)
    (op : operation) (s : VS W) : VS W :=
  match op with
  | EnsureCollection => snd (_ensure_collection client s)
  | StoreEmbeddings chunks embeddings metadata =>
      snd (store_embeddings client uuid4 chunks embeddings metadata s)
  | SearchSimilar query limit => snd (search_similar client encode query limit s)
  | GetCollectionInfo => snd (get_collection_info client s)
  end.

Definition perform_all {W} (client : QdrantClient W)
    (encode : list string -> result (list PDFService.vector)) (uuid4 : nat -> string)
    (ops : list operation) (s : VS W) : VS W :=
  foldl (fun s op => perform client encode uuid4 op s) s ops.

(** The records of the local backend ([[]] while the list does not exist). *)
Definition records {W} (s : VS W) : list Item := default [] (_memory_store s).

(** The result [_search_memory] builds for a stored record. *)
Definition scored (query_embedding : PDFService.vector) (item : Item) : DocumentMatch :=
  mkDoc (PyStr (item_text item))
        (_cosine_similarity query_embedding (item_vector item))
        (item_metadata item).

(** The records one call of [_store_memory] appends: the entry at position
    [i] of the batch gets the identifier of draw [k]. *)
Fixpoint new_records (uuid4 : nat -> string) (metadata : option (gmap string pyval))
    (i k : nat) (pairs : list (string * PDFService.vector)) : list Item :=
  match pairs with
  | [] => []
  | entry :: rest =>
      mkItem (uuid4 k) (snd entry) (fst entry) i (metadata_or_empty metadata)
      :: new_records uuid4 metadata (S i) (S k) rest
  end.

(** ** Floats: order, zeros, exact values *)

(** [x == x] fails for NaN alone. *)
Definition not_nan (x : float) : Prop := PrimFloat.eqb x x = true.

(** The comparison of [x] with [z] that follows from those of [x] with [y]
    and of [y] with [z], when one does. *)
Definition cmp_trans (c1 c2 : comparison) : option comparison :=
  match c1, c2 with
  | Eq, c | c, Eq => Some c
  | Lt, Lt => Some Lt
  | Gt, Gt => Some Gt
  | _, _ => None
  end.

(** The order of two finite floats of one sign: by exponent, then mantissa. *)
Definition lex (e1 : Z) (m1 : positive) (e2 : Z) (m2 : positive) : comparison :=
  match e1 ?= e2 with
  | Lt => Lt | Gt => Gt | Eq => (m1 ?= m2)%positive
  end.

(** [x] ranks at least as high as [y]. *)
Definition ranks_before {A} (key : A -> float) (x y : A) : Prop :=
  PrimFloat.leb (key y) (key x) = true.

(** The elements whose key compares equal to [c]. *)
Definition with_key {A} (key : A -> float) (c : float) (l : list A) : list A :=
  List.filter (fun y => PrimFloat.eqb (key y) c) l.

(** A float that compares equal to zero is one of the two zeros. *)
Definition is_zero_float (x : float) : Prop := exists s, Prim2SF x = S754_zero s.

(** The rational a finite float stands for. *)
Definition F2Q (x : float) : option Q :=
  match Prim2SF x with
  | S754_zero _ => Some 0%Q
  | S754_finite s m e => Some (inject_Z (if s then Z.neg m else Z.pos m) * 2 ^ e)%Q
  | _ => None
  end.

(** One unit in the last place of a float in [[1, 2)]: [2^-52]. *)
Definition ulp : Q := 1 # (2 ^ 52).

(** The float is a number within eight units in the last place, that is
    within [2^-49], of one. *)
Definition close_to_one (x : float) : Prop :=
  exists q, F2Q x = Some q /\ (1 - 8 * ulp <= q /\ q <= 1 + 8 * ulp)%Q.

(** The float is a positive finite number: not zero, not infinite, not
    NaN. *)
Definition positive_finite (x : float) : Prop :=
  classify x = PNormal \/ classify x = PSubn.

(** [approx] is [exact] up to the relative error [eps] ([exact >= 0]). *)
Definition within (eps approx exact : Q) : Prop :=
  ((1 - eps) * exact <= approx /\ approx <= (1 + eps) * exact)%Q.

(** [approx] is the square root of [radicand] up to the relative error
    [eps], said of the squares. *)
Definition sqrt_within (eps approx radicand : Q) : Prop :=
  ((1 - eps) * (1 - eps) * radicand <= approx * approx
   /\ approx * approx <= (1 + eps) * (1 + eps) * radicand)%Q.

(** ** Ingestion and the weather summary *)

(** The chunks [process_pdf] works on. *)
Definition chunks_of (read_pages : string -> result (list string))
    (split_text : string -> list string) (pdf_path : string) : list string :=
  PDFService.chunk_text split_text (PDFService.extract_text_from_pdf read_pages pdf_path).

(** What both early returns of [process_pdf] give. *)
Definition nothing_to_index : gmap string pyval :=
  <[ "chunks" := PyList [] ]> (<[ "embeddings" := PyList [] ]> ∅).

(** [description] is absent or a string: [.title()] applies. *)
Definition description_ok (weather_data : gmap string pyval) : bool :=
  match weather_data !! "description" with
  | None => true
  | Some v => is_str v
  end.

(** ** Trimmed and lower-cased answers *)

(** A string of white space: white-space characters, one after another. *)
Inductive white : string -> Prop :=
| white_nil : white ""
| white_cons (c s : string) : In c WHITESPACE -> white s -> white (c ++ s).

(** [c] is the lower-case letter [d] or its capital. *)
Definition letter_of (d c : ascii) : Prop :=
  c = d \/ (nat_of_ascii c + 32 = nat_of_ascii d)%nat.

(** [s] spells [word], whatever the case of its letters. *)
Fixpoint spells (word s : string) : Prop :=
  match word, s with
  | EmptyString, EmptyString => True
  | String d word', String c s' => letter_of d c /\ spells word' s'
  | _, _ => False
  end.

(** [s] says [word]: it is [word], in any mix of upper and lower case,
    between white space. *)
Definition says (word s : string) : Prop :=
  exists pre core post,
    s = pre ++ core ++ post /\ white pre /\ white post /\ spells word core.

(** All the characters of [s] are ASCII letters. *)
Fixpoint letters (s : string) : bool :=
  match s with
  | EmptyString => true
  | String c s' => (is_lower c || is_upper c) && letters s'
  end.

(** ** The model call and the nodes around it *)

(** The content [GroqService.invoke] answers with for a list of message
    objects: that of the model, or the apology when the call raises. *)
Definition answer_of (llm_invoke : list message_like -> result pyval)
    (messages : list message_like) : pyval :=
  match llm_invoke messages with
  | Ok content => content
  | Raise _ => PyStr APOLOGY
  end.

(** The conversion loop of [invoke] accepts the element: a dict whose
    [content] is absent, a string or a list. *)
Definition convertible (m : message_like) : bool :=
  match m with
  | MsgObject _ => false
  | MsgDict d =>
      match d !! "content" with
      | None | Some (PyStr _) | Some (PyList _) => true
      | Some _ => false
      end
  end.

(** A dict every message class takes: its [content] is absent, a string,
    or a list of strings and dicts. *)
Definition plain_content (m : message_like) : bool :=
  match m with
  | MsgObject _ => false
  | MsgDict d =>
      match d !! "content" with
      | None | Some (PyStr _) => true
      | Some (PyList blocks) =>
          forallb (fun b => match b with PyStr _ | PyDict _ => true | _ => false end)
                  blocks
      | Some _ => false
      end
  end.

(** An element the loop cannot convert: a message object, which has no
    [get], or a dict whose [content] is [None]. *)
Definition inconvertible (m : message_like) : bool :=
  match m with
  | MsgObject _ => true
  | MsgDict d =>
      match d !! "content" with
      | Some PyNone => true
      | _ => false
      end
  end.

(** The message class [invoke] picks for a dict: by its [role], [user]
    when the key is missing, [HumanMessage] for everything that is neither
    ["system"] nor ["assistant"]. *)
Definition role_of (d : gmap string pyval) : role :=
  match d !! "role" with
  | Some (PyStr s) =>
      if String.eqb s "system" then System
      else if String.eqb s "assistant" then AI
      else Human
  | _ => Human
  end.

(** The message object a convertible dict becomes. *)
Definition message_of (m : message_like) : message_like :=
  match m with
  | MsgDict d => MsgObject (Message (role_of d) (default (PyStr "") (d !! "content")))
  | MsgObject _ => m
  end.

(** The messages of the three prompts for a state. *)
Definition city_messages (state : GraphState) : list message_like :=
  [MsgObject (SystemMessage CITY_PROMPT); MsgObject (HumanMessage (query state))].

Definition weather_messages (state : GraphState) (weather_text : string)
    : list message_like :=
  [MsgObject (SystemMessage WEATHER_PROMPT);
   MsgObject (HumanMessage ("User query: " ++ query state ++ NL ++ NL
                            ++ "Weather data:" ++ NL ++ weather_text))].

Definition pdf_messages (state : GraphState) (context : string) : list message_like :=
  [MsgObject (SystemMessage PDF_PROMPT);
   MsgObject (HumanMessage ("Question: " ++ query state ++ NL ++ NL
                            ++ "Context:" ++ NL ++ context))].

(** [weather_data or {}] for the outcome of a lookup; a lookup that raises
    leaves the handler of the node to answer [{}]. *)
Definition snapshot_or_empty (r : result (option (gmap string pyval)))
    : gmap string pyval :=
  match r with
  | Ok (Some weather_data) => weather_data
  | _ => ∅
  end.

(** The keys of the snapshot [get_weather] builds. *)
Definition snapshot_keys : gset string :=
  {[ "city"; "country"; "temperature"; "feels_like"; "humidity"; "description";
     "wind_speed" ]}.

(** The texts joined by a separator. *)
Fixpoint join_strings (sep : string) (l : list string) : string :=
  match l with
  | [] => ""
  | [s] => s
  | s :: rest => s ++ sep ++ join_strings sep rest
  end.

(** The queries of a session, run one after the other on the instance the
    pipeline owns; the mappings returned, in order. *)
Fixpoint ask_all {S} (graph : CompiledGraph S) (queries : list string) (s : S)
    : list (result (gmap string pyval)) * S :=
  match queries with
  | [] => ([], s)
  | q :: rest =>
      let '(r, s1) := process_query graph q s in
      let '(rs, s2) := ask_all graph rest s1 in
      (r :: rs, s2)
  end.

(** ** The vector store, continued *)

(** The points one call of [_store_cloud] builds: the entry at position [i]
    of the batch gets the identifier of draw [k]. *)
Fixpoint cloud_points (uuid4 : nat -> string) (metadata : option (gmap string pyval))
    (i k : nat) (pairs : list (string * PDFService.vector)) : list PointStruct :=
  match pairs with
  | [] => []
  | entry :: rest =>
      mkPoint (uuid4 k) (snd entry) (payload (fst entry) i metadata)
      :: cloud_points uuid4 metadata (S i) (S k) rest
  end.

(** The instance after a call of the client, and after [n] draws of an
    identifier. *)
Definition with_remote {W} (s : VS W) (w : W) : VS W :=
  mkVS (use_cloud s) (_memory_store s) (collection_name s) w (uuid_drawn s).

Definition with_draws {W} (s : VS W) (n : nat) : VS W :=
  mkVS (use_cloud s) (_memory_store s) (collection_name s) (remote s)
       (uuid_drawn s + n)%nat.

(** The result [_search_cloud] builds from a hit with a payload. *)
Definition formatted (hit : ScoredPoint) : DocumentMatch :=
  let p := default ∅ (hit_payload hit) in
  mkDoc (default (PyStr "") (p !! "text")) (hit_score hit) (delete "text" p).

(** The result for a record whose similarity is [0.0]. *)
Definition unscored (item : Item) : DocumentMatch :=
  mkDoc (PyStr (item_text item)) 0%float (item_metadata item).

(** [store_embeddings] has something to store: [zip] is not empty. *)
Definition non_empty_batch (chunks : list string) (embeddings : list PDFService.vector)
    : bool :=
  match chunks, embeddings with
  | _ :: _, _ :: _ => true
  | _, _ => false
  end.

(** The persistent backend never holds an in-memory list. *)
Definition cloud_without_list {W} (s : VS W) : Prop :=
  use_cloud s = true -> _memory_store s = None.

(** Every identifier of the local records is that of an earlier draw, and
    no draw was used twice. *)
Definition ids_from_draws {W} (uuid4 : nat -> string) (s : VS W) : Prop :=
  exists draws : list nat,
    item_id <$> records s = uuid4 <$> draws
    /\ NoDup draws
    /\ Forall (fun k => (k < uuid_drawn s)%nat) draws.

(** The number of elements of [l[:limit]] for a list of [n] elements. *)
Definition slice_length (limit : Z) (n : nat) : nat :=
  if 0 <=? limit then Nat.min (Z.to_nat limit) n else (n - Z.to_nat (- limit))%nat.


(* ===================================================================== *)
(** * Concrete capabilities for the examples                            *)
(* ===================================================================== *)

Module Fixtures.

Import GroqService VectorStore GraphNodes AIProcessingGraph.

(** A chat model that is down, one that answers a fixed text, and one whose
    answer is not a string. *)
Definition llm_down : list message_like -> result pyval :=
  fun _ => Raise (Exn RuntimeError "connection refused").
Definition llm_says (answer : string) : list message_like -> result pyval :=
  fun _ => Ok (PyStr answer).
Definition llm_blocks : list message_like -> result pyval :=
  fun _ => Ok (PyList [PyStr "weather"]).

(** A chat model that answers with the temperature it runs at. *)
Definition llm_reports_temperature : float -> list message_like -> result pyval :=
  fun t _ => Ok (PyFloat t).

(** A workflow runtime that fails before any node runs. *)
Definition broken_graph : CompiledGraph unit :=
  mkGraph unit (fun _ => throw (Exn RuntimeError "recursion limit reached"))
               (fun _ => throw (Exn RuntimeError "recursion limit reached")).

(** A Qdrant service that cannot be reached, and one that is reachable and
    holds the collection but refuses writes and searches. *)
Definition unreachable : exn := Exn RuntimeError "timed out".

Definition client_down : QdrantClient unit :=
  mkClient unit
    (fun w => (Raise unreachable, w))
    (fun _ _ w => (Raise unreachable, w))
    (fun _ _ w => (Raise unreachable, w))
    (fun _ _ _ w => (Raise unreachable, w))
    (fun _ w => (Raise unreachable, w)).

Definition client_read_only : QdrantClient unit :=
  mkClient unit
    (fun w => (Ok ["pdf_embeddings"], w))
    (fun _ _ w => (Ok tt, w))
    (fun _ _ w => (Raise unreachable, w))
    (fun _ _ _ w => (Raise unreachable, w))
    (fun _ w => (Raise unreachable, w)).

(** A Qdrant service that works: its state is the list of the points it
    holds, a search returns the first [limit] of them with the score 1. *)
Definition client_up : QdrantClient (list PointStruct) :=
  mkClient (list PointStruct)
    (fun w => (Ok ["pdf_embeddings"], w))
    (fun _ _ w => (Ok tt, w))
    (fun _ points w => (Ok tt, (w ++ points)%list))
    (fun _ _ limit w =>
       (Ok ((fun p => mkHit (Some (point_payload p)) 1%float)
              <$> take (Z.to_nat limit) w), w))
    (fun _ w => (Ok (mkInfo (PyInt 384) (PyStr "Cosine") (PyInt (Z.of_nat (length w)))), w)).

(** An encoder whose model failed to load. *)
Definition encode_down : list string -> result (list PDFService.vector) :=
  fun _ => Raise (Exn RuntimeError "model not loaded").

(** An encoder that maps every text to one vector, and the identifiers
    [id-0], [id-1], ... *)
Definition encode_as (v : PDFService.vector) : list string -> result (list PDFService.vector) :=
  fun texts => Ok ((fun _ => v) <$> texts).
Definition uuid_of (n : nat) : string := "id-" ++ pretty n.

(** PDF readers: a missing file, a scan without text, two pages of text;
    a splitter that cuts at every line feed; formatters for the examples. *)
Definition no_file : string -> result (list string) :=
  fun _ => Raise (Exn RuntimeError "No such file or directory").
Definition blank_pages : string -> result (list string) :=
  fun _ => Ok ["   "; ""].
Definition two_pages : string -> result (list string) :=
  fun _ => Ok ["Rain is water."; "Snow is ice."].

Fixpoint lines_from (line : string) (s : string) : list string :=
  match s with
  | EmptyString => if String.eqb line "" then [] else [String.rev line]
  | String c s' =>
      if Ascii.eqb c (ascii_of_nat 10)
      then (if String.eqb line "" then [] else [String.rev line]) ++ lines_from "" s'
      else lines_from (String c line) s'
  end%list.
Definition split_lines (text : string) : list string := lines_from "" text.

Definition no_repr {A} : A -> string := fun _ => "?".

(** A weather provider that cannot be reached. *)
Definition http_down : string -> result pyval :=
  fun _ => Raise (Exn RequestException "connection error").

(** A provider answer with the code 200 and nothing else of use. *)
Definition sparse_answer : string -> result pyval :=
  fun _ => Ok (PyDict (<[ "cod" := PyInt 200 ]>
                      (<[ "name" := PyStr "Unknown" ]>
                      (<[ "main" := PyDict ∅ ]>
                      (<[ "weather" := PyList [PyDict ∅] ]>
                      (<[ "wind" := PyDict ∅ ]> ∅)))))).

(** The snapshot [get_weather] builds from that answer. *)
Definition sparse_snapshot : gmap string pyval :=
  <[ "city" := PyStr "Unknown" ]>
  (<[ "country" := PyStr "" ]>
  (<[ "temperature" := PyNone ]>
  (<[ "feels_like" := PyNone ]>
  (<[ "humidity" := PyNone ]>
  (<[ "description" := PyStr "" ]>
  (<[ "wind_speed" := PyNone ]> ∅)))))).

(** Vectors: a unit vector, a 3-4-5 vector, and one whose square underflows. *)
Definition e1 : PDFService.vector := [1%float; 0%float].
Definition e2 : PDFService.vector := [0%float; 1%float].
Definition diagonal : PDFService.vector := [1%float; 1%float].
Definition three_four : PDFService.vector := [3%float; 4%float].
Definition tiny : PDFService.vector := [0x1p-600%float].

(** The instance built without credentials: the local backend, empty. *)
Definition local_store : VS unit := __init__ client_down "" "" tt.

(** The instance built with credentials against the read-only service: the
    persistent backend, no [_memory_store] attribute. *)
Definition cloud_store : VS unit := __init__ client_read_only "https://qdrant" "key" tt.

(** The instance built with credentials against the working service. *)
Definition cloud_up : VS (list PointStruct) :=
  __init__ client_up "https://qdrant" "key" [].

(** That instance after one chunk was stored. *)
Definition cloud_one_point : VS (list PointStruct) :=
  snd (store_embeddings client_up uuid_of ["intro"] [e1] None cloud_up).

(** The local backend after one batch of three chunks. *)
Definition three_records : VS unit :=
  snd (_store_memory uuid_of ["east"; "north"; "north-east"] [e1; e2; diagonal]
         None local_store).

End Fixtures.

(* ===================================================================== *)
(** * [str.strip] and [str.lower]                                        *)
(* ===================================================================== *)

Section Trimming.

Lemma append_nil_r (s : string) : s ++ "" = s.
Proof.
  induction s as [ | c s IH]; [reflexivity | ].
  change (String c s ++ "") with (String c (s ++ "")). rewrite IH. reflexivity.
Qed.

Lemma append_assoc (s1 s2 s3 : string) : (s1 ++ s2) ++ s3 = s1 ++ s2 ++ s3.
Proof.
  induction s1 as [ | c s1 IH]; [reflexivity | ].
  change (String c (s1 ++ s2) ++ s3 = String c (s1 ++ s2 ++ s3)).
  change (String c ((s1 ++ s2) ++ s3) = String c (s1 ++ s2 ++ s3)).
  rewrite IH. reflexivity.
Qed.

Lemma py_isspace_spec (c : string) : py_isspace c = true <-> In c WHITESPACE.
Proof.
  unfold py_isspace. rewrite existsb_exists. split.
  - intros (w & Hw & Heq). apply String.eqb_eq in Heq. subst w. exact Hw.
  - intros Hw. exists c. split; [exact Hw | apply String.eqb_refl].
Qed.

(** A white-space character at the start is dropped. *)
Lemma lstrip_character (c s : string) : In c WHITESPACE -> lstrip (c ++ s) = lstrip s.
Proof.
  intros Hc. unfold WHITESPACE in Hc. cbn [In] in Hc.
  repeat (destruct Hc as [<- | Hc]; [reflexivity | ]). destruct Hc.
Qed.

Lemma lstrip_white (pre s : string) : white pre -> lstrip (pre ++ s) = lstrip s.
Proof.
  induction 1 as [ | c pre Hc _ IH]; [reflexivity | ].
  rewrite append_assoc, (lstrip_character c _ Hc). exact IH.
Qed.

(** What [lstrip] drops is white space. *)
Lemma lstrip_drops_white (s : string) : exists pre, white pre /\ s = pre ++ lstrip s.
Proof.
  assert (forall n s, (String.length s <= n)%nat ->
                      exists pre, white pre /\ s = pre ++ lstrip s) as H.
  { clear s. induction n as [ | n IH]; intros s Hn.
    - destruct s; [ | cbn in Hn; lia]. exists "". split; [constructor | reflexivity].
    - destruct s as [ | b0 s1]; [exists ""; split; [constructor | reflexivity] | ].
      cbn [String.length] in Hn. cbn [lstrip].
      destruct (py_isspace (String b0 "")) eqn:H0.
      { destruct (IH s1 ltac:(lia)) as (pre & Hpre & Heq).
        exists (String b0 "" ++ pre). split.
        - constructor; [apply py_isspace_spec, H0 | exact Hpre].
        - exact (f_equal (String b0) Heq). }
      destruct s1 as [ | b1 s2]; [exists ""; split; [constructor | reflexivity] | ].
      cbn [String.length] in Hn.
      destruct (py_isspace (String b0 (String b1 ""))) eqn:H1.
      { destruct (IH s2 ltac:(lia)) as (pre & Hpre & Heq).
        exists (String b0 (String b1 "") ++ pre). split.
        - constructor; [apply py_isspace_spec, H1 | exact Hpre].
        - exact (f_equal (fun x => String b0 (String b1 x)) Heq). }
      destruct s2 as [ | b2 s3]; [exists ""; split; [constructor | reflexivity] | ].
      cbn [String.length] in Hn.
      destruct (py_isspace (String b0 (String b1 (String b2 "")))) eqn:H2.
      { destruct (IH s3 ltac:(lia)) as (pre & Hpre & Heq).
        exists (String b0 (String b1 (String b2 "")) ++ pre). split.
        - constructor; [apply py_isspace_spec, H2 | exact Hpre].
        - exact (f_equal (fun x => String b0 (String b1 (String b2 x))) Heq). }
      exists "". split; [constructor | reflexivity]. }
  exact (H (String.length s) s (le_n _)).
Qed.

Lemma lstrip_of_white (s : string) : white s -> lstrip s = "".
Proof.
  intros H. rewrite <- (append_nil_r s). rewrite (lstrip_white s "" H). reflexivity.
Qed.

Lemma lstrip_empty_white (s : string) : lstrip s = "" -> white s.
Proof.
  intros H. destruct (lstrip_drops_white s) as (pre & Hpre & Heq).
  rewrite H, append_nil_r in Heq. subst. exact Hpre.
Qed.

(** What [rstrip] drops is white space. *)
Lemma rstrip_drops_white (s : string) : exists post, white post /\ s = rstrip s ++ post.
Proof.
  induction s as [ | c s IH]; [exists ""; split; [constructor | reflexivity] | ].
  cbn [rstrip]. destruct (String.eqb (lstrip (String c s)) "") eqn:Heq.
  - apply String.eqb_eq in Heq. exists (String c s).
    split; [apply lstrip_empty_white, Heq | reflexivity].
  - destruct IH as (post & Hpost & Hs). exists post.
    split; [exact Hpost | ]. exact (f_equal (String c) Hs).
Qed.

Lemma rstrip_of_white (s : string) : white s -> rstrip s = "".
Proof.
  intros H. destruct s as [ | c s]; [reflexivity | ].
  cbn [rstrip]. rewrite (lstrip_of_white _ H). reflexivity.
Qed.

(** An ASCII letter starts no white-space character. *)
Lemma letter_not_space (c : ascii) (r : string) :
  is_lower c || is_upper c = true -> py_isspace (String c r) = false.
Proof.
  destruct c as [[] [] [] [] [] [] [] []]; intros H; try discriminate H; reflexivity.
Qed.

Lemma lstrip_letter (c : ascii) (s : string) :
  is_lower c || is_upper c = true -> lstrip (String c s) = String c s.
Proof.
  intros H. destruct s as [ | b1 [ | b2 s]]; cbn [lstrip];
    rewrite ?(letter_not_space c _ H); reflexivity.
Qed.

Lemma rstrip_letters (core post : string) :
  letters core = true -> white post -> rstrip (core ++ post) = core.
Proof.
  intros Hcore Hpost. induction core as [ | c core IH]; [apply rstrip_of_white, Hpost | ].
  cbn [letters] in Hcore. apply andb_true_iff in Hcore as [Hc Hcore].
  change (String c core ++ post) with (String c (core ++ post)).
  cbn [rstrip]. rewrite (lstrip_letter c _ Hc). cbn [String.eqb].
  rewrite (IH Hcore). reflexivity.
Qed.

Lemma strip_letters (pre core post : string) :
  white pre -> letters core = true -> white post ->
  strip (pre ++ core ++ post) = core.
Proof.
  intros Hpre Hcore Hpost. unfold strip. rewrite (lstrip_white pre _ Hpre).
  destruct core as [ | c core].
  - change ("" ++ post) with post. rewrite (lstrip_of_white _ Hpost). reflexivity.
  - cbn [letters] in Hcore. pose proof Hcore as Hc. apply andb_true_iff in Hc as [Hc _].
    change (String c core ++ post) with (String c (core ++ post)).
    rewrite (lstrip_letter c _ Hc).
    exact (rstrip_letters (String c core) post Hcore Hpost).
Qed.

(** What [strip] drops is white space, on both sides. *)
Lemma strip_drops_white (s : string) :
  exists pre post, white pre /\ white post /\ s = pre ++ strip s ++ post.
Proof.
  destruct (lstrip_drops_white s) as (pre & Hpre & Hs).
  destruct (rstrip_drops_white (lstrip s)) as (post & Hpost & Hl).
  exists pre, post. split; [exact Hpre | split; [exact Hpost | ]].
  unfold strip. rewrite <- Hl. exact Hs.
Qed.

Lemma to_lower_letter_of (d c : ascii) :
  is_lower d = true -> to_lower c = d <-> letter_of d c.
Proof.
  unfold is_lower, to_lower, is_upper, letter_of. intros Hd.
  apply andb_true_iff in Hd as [Hd1 Hd2].
  apply Nat.leb_le in Hd1, Hd2.
  pose proof (nat_ascii_bounded c) as Hc.
  destruct ((65 <=? nat_of_ascii c)%nat && (nat_of_ascii c <=? 90)%nat) eqn:Hup.
  - apply andb_true_iff in Hup as [H1 H2]. apply Nat.leb_le in H1, H2. split.
    + intros <-. right. rewrite nat_ascii_embedding by lia. reflexivity.
    + intros [-> | H]; [lia | ]. rewrite H. apply ascii_nat_embedding.
  - split; [intros ->; left; reflexivity | ].
    intros [H | H]; [exact H | ]. exfalso.
    apply andb_false_iff in Hup as [Hup | Hup]; apply Nat.leb_gt in Hup; lia.
Qed.

Lemma lower_spells (word s : string) :
  forallb is_lower (list_ascii_of_string word) = true ->
  lower s = word <-> spells word s.
Proof.
  revert s. induction word as [ | d word IH]; intros s Hw.
  - destruct s; cbn; [tauto | ]. split; [discriminate | tauto].
  - cbn in Hw. apply andb_true_iff in Hw as [Hd Hw].
    destruct s as [ | c s]; cbn [lower spells]; [split; [discriminate | tauto] | ].
    rewrite <- (IH s Hw), <- (to_lower_letter_of d c Hd).
    split; [intros [= H1 H2]; split; assumption | intros [-> ->]; reflexivity].
Qed.

Lemma spells_letters (word s : string) :
  forallb is_lower (list_ascii_of_string word) = true ->
  spells word s -> letters s = true.
Proof.
  revert s. induction word as [ | d word IH]; intros s Hw; destruct s as [ | c s];
    cbn [spells letters]; try tauto.
  cbn in Hw. apply andb_true_iff in Hw as [Hd Hw]. intros [Hc Hs].
  rewrite (IH s Hw Hs), andb_true_r.
  unfold letter_of in Hc. unfold is_lower, is_upper in *.
  apply andb_true_iff in Hd as [Hd1 Hd2]. apply Nat.leb_le in Hd1, Hd2.
  destruct Hc as [-> | Hc].
  - apply orb_true_iff. left. apply andb_true_iff. split; apply Nat.leb_le; lia.
  - apply orb_true_iff. right. apply andb_true_iff. split; apply Nat.leb_le; lia.
Qed.

(** [s.strip().lower()] is [word] exactly when [s] says [word]. *)
Lemma strip_lower_says (word s : string) :
  forallb is_lower (list_ascii_of_string word) = true ->
  lower (strip s) = word <-> says word s.
Proof.
  intros Hw. split.
  - intros H. apply (lower_spells word _ Hw) in H.
    destruct (strip_drops_white s) as (pre & post & Hpre & Hpost & Hs).
    exists pre, (strip s), post. repeat split; assumption.
  - intros (pre & core & post & -> & Hpre & Hpost & Hcore).
    rewrite (strip_letters pre core post Hpre (spells_letters word core Hw Hcore) Hpost).
    apply (lower_spells word core Hw), Hcore.
Qed.

End Trimming.


(** The no-break space and the em space are trimmed like the ASCII ones. *)
Example strip_unicode_space :
  strip (utf8 160 ++ " Weather" ++ utf8 8195 ++ NL) = "Weather".
Proof. reflexivity. Qed.

(* ===================================================================== *)
(** * The intent classifier                                             *)
(* ===================================================================== *)

Section Classifier.
Variable llm_invoke : list message_like -> result pyval.

Lemma invoke_objects (system human : string) :
  ask llm_invoke system human =
    match llm_invoke [MsgObject (SystemMessage system); MsgObject (HumanMessage human)] with
    | Ok content => Ok {[ "content" := content ]}
    | Raise _ => Ok {[ "content" := PyStr APOLOGY ]}
    end.
Proof.
  unfold ask, GroqService.invoke. cbn.
  destruct (llm_invoke _); reflexivity.
Qed.

Lemma getitem_content (v : pyval) :
  getitem ({[ "content" := v ]} : gmap string pyval) "content" = Ok v.
Proof. unfold getitem. rewrite lookup_singleton_eq. reflexivity. Qed.

(** What the node returns, by the three outcomes of the model call. *)
Lemma classify_intent_cases (state : GraphState) :
  classify_intent llm_invoke state =
    match llm_invoke (classify_messages state) with
    | Ok (PyStr s) =>
        let intent := if valid_intent (lower (strip s)) then lower (strip s) else "pdf" in
        Ok (mkUpdate (Some intent) None None None
              (Some {[ "intent_classification" := PyStr intent ]}))
    | Ok _ =>
        Ok (mkUpdate (Some "pdf") None None None
              (Some {[ "intent_classification" := PyStr "error" ]}))
    | Raise _ =>
        Ok (mkUpdate (Some "pdf") None None None
              (Some {[ "intent_classification" := PyStr "pdf" ]}))
    end.
Proof.
  unfold classify_intent, classify_messages. rewrite invoke_objects.
  destruct (llm_invoke _) as [content | e]; cbn.
  - rewrite getitem_content. cbn.
    destruct content; cbn; try reflexivity.
    destruct (valid_intent (lower (strip s))); reflexivity.
  - rewrite getitem_content. reflexivity.
Qed.

Lemma valid_intent_spec (s : string) :
  valid_intent s = true <-> s = "weather" \/ s = "pdf".
Proof.
  unfold valid_intent. rewrite orb_true_iff, !String.eqb_eq. reflexivity.
Qed.

(** C2. [classify_intent] never raises and returns an intent of the
    closed set: ["weather"] exactly when the model call returned a string
    that says ["weather"], that is the word in any mix of upper and lower
    case with white space around it - what is left of the answer once
    trimmed and lower-cased - and ["pdf"] in every other case: an answer
    outside the set, an empty or malformed answer, an answer that is not a
    string, a failed call. *)
Theorem classify_intent_closed_set (state : GraphState) :
  exists u,
    classify_intent llm_invoke state = Ok u
    /\ (upd_intent u = Some "weather" \/ upd_intent u = Some "pdf")
    /\ (upd_intent u = Some "weather" <->
        exists s, llm_invoke (classify_messages state) = Ok (PyStr s)
                  /\ says "weather" s)
    /\ (upd_intent u = Some "pdf" <->
        forall s, llm_invoke (classify_messages state) = Ok (PyStr s) ->
                  ~ says "weather" s).
Proof.
  rewrite classify_intent_cases.
  destruct (llm_invoke (classify_messages state)) as [content | e];
    [destruct content as [ | b | z | f | s | l | d ] | ];
    try (eexists; split; [reflexivity | cbn; repeat split;
           solve [ right; reflexivity | intros [=] | intros (s' & [=] & _)
                 | intros _ s' [=] ]]).
  pose proof (strip_lower_says "weather" s eq_refl) as Hsays.
  destruct (valid_intent (lower (strip s))) eqn:Hv;
    (eexists; split; [reflexivity | cbn]).
  - apply valid_intent_spec in Hv. destruct Hv as [Hw | Hp].
    + rewrite Hw. apply Hsays in Hw.
      split; [left; reflexivity | split; split].
      * intros _. exists s. split; [reflexivity | exact Hw].
      * reflexivity.
      * intros [=].
      * intros H. exfalso. apply (H s); [reflexivity | exact Hw].
    + assert (~ says "weather" s) as Hne.
      { intros Hs. apply Hsays in Hs. rewrite Hp in Hs. discriminate. }
      rewrite Hp. split; [right; reflexivity | split; split].
      * intros [=].
      * intros (s' & [= <-] & Hs'). contradiction.
      * intros _ s' [= <-]. exact Hne.
      * reflexivity.
  - assert (~ says "weather" s) as Hne.
    { intros Hs. apply Hsays in Hs. rewrite Hs in Hv. discriminate. }
    split; [right; reflexivity | split; split].
    + intros [=].
    + intros (s' & [= <-] & Hs'). contradiction.
    + intros _ s' [= <-]. exact Hne.
    + reflexivity.
Qed.

(** What the node records under [intent_classification].
    [GroqService.invoke] turns a failed model call into its apology text,
    which the node trims, lower-cases and coerces like any other answer, so
    that a failed call is recorded as ["pdf"]; the literal ["error"] is
    recorded when the node's own handler runs, which an answer that is not
    a string brings about; for an answer that is a string the recorded
    value is the intent the node returns. *)
Lemma classify_intent_records (state : GraphState) :
  exists u,
    classify_intent llm_invoke state = Ok u
    /\ (forall e, llm_invoke (classify_messages state) = Raise e ->
        recorded_classification u = Some (PyStr "pdf") /\ upd_intent u = Some "pdf")
    /\ (forall v, llm_invoke (classify_messages state) = Ok v -> is_str v = false ->
        recorded_classification u = Some (PyStr "error") /\ upd_intent u = Some "pdf")
    /\ (forall s, llm_invoke (classify_messages state) = Ok (PyStr s) ->
        recorded_classification u = PyStr <$> upd_intent u
        /\ (says "weather" s -> upd_intent u = Some "weather")
        /\ (~ says "weather" s -> upd_intent u = Some "pdf")).
Proof.
  rewrite classify_intent_cases.
  destruct (llm_invoke (classify_messages state)) as [content | e].
  - destruct content as [ | b | z | f | s | l | d ];
      try (eexists; split; [reflexivity | ];
           split; [intros e [=] | ];
           split; [intros v [= <-] _; split; reflexivity | intros s' [=]]).
    eexists; split; [reflexivity | ].
    split; [intros e [=] | ].
    split; [intros v [= <-] [=] | ].
    intros s' [= <-]. cbn.
    pose proof (strip_lower_says "weather" s eq_refl) as Hsays.
    destruct (valid_intent (lower (strip s))) eqn:Hv; cbn.
    + apply valid_intent_spec in Hv as [Hw | Hp].
      * rewrite Hw. split; [reflexivity | split; [reflexivity | ]].
        intros Hne. exfalso. apply Hne, Hsays, Hw.
      * rewrite Hp. split; [reflexivity | split; [ | reflexivity]].
        intros Hs. apply Hsays in Hs. rewrite Hp in Hs. discriminate.
    + split; [reflexivity | split; [ | reflexivity]].
      intros Hs. apply Hsays in Hs. rewrite Hs in Hv. discriminate.
  - eexists; split; [reflexivity | ].
    split; [intros e' _; split; reflexivity | ].
    split; [intros v [=] | intros s [=]].
Qed.

End Classifier.

(** C8. A query whose model call fails: the claim, like the handler of
    the node, has ["error"] recorded under [intent_classification], and the
    node records ["pdf"], since [GroqService.invoke] has made the failure
    an ordinary answer before the handler could see it. *)
Lemma classify_intent_failed_call_records_pdf :
  exists u,
    Fixtures.llm_down (classify_messages (initial_state "Will it rain in Paris?"))
      = Raise (Exn RuntimeError "connection refused")
    /\ classify_intent Fixtures.llm_down (initial_state "Will it rain in Paris?") = Ok u
    /\ recorded_classification u = Some (PyStr "pdf")
    /\ recorded_classification u <> Some (PyStr "error").
Proof.
  eexists. split; [reflexivity | ]. split; [reflexivity | ].
  split; [reflexivity | ].
  cbn. intros [=].
Qed.

(** The handler of the node is reached by an answer that is not a string. *)
Example classify_intent_non_string_answer :
  classify_intent Fixtures.llm_blocks (initial_state "Will it rain in Paris?")
  = Ok (mkUpdate (Some "pdf") None None None
          (Some {[ "intent_classification" := PyStr "error" ]})).
Proof. reflexivity. Qed.

Example classify_intent_trims_and_lowers :
  classify_intent (Fixtures.llm_says ("  Weather" ++ NL)) (initial_state "Will it rain in Paris?")
  = Ok (mkUpdate (Some "weather") None None None
          (Some {[ "intent_classification" := PyStr "weather" ]})).
Proof. reflexivity. Qed.

Example classify_intent_coerces :
  classify_intent (Fixtures.llm_says "Weather.") (initial_state "Will it rain in Paris?")
  = Ok (mkUpdate (Some "pdf") None None None
          (Some {[ "intent_classification" := PyStr "pdf" ]})).
Proof. reflexivity. Qed.

(* ===================================================================== *)
(** * The driver                                                        *)
(* ===================================================================== *)

Section DriverProperties.
Context {S : Type}.
Variable graph : CompiledGraph S.

Lemma dom_package (query : string) (st : GraphState) :
  dom (package query st) = result_keys.
Proof.
  unfold package, result_keys. rewrite !dom_insert_L, dom_empty_L. set_solver.
Qed.

Lemma dom_error_result (query : string) (e : exn) :
  dom (error_result query e) = result_keys.
Proof.
  unfold error_result, result_keys. rewrite !dom_insert_L, dom_empty_L. set_solver.
Qed.

(** What a driver built around a runner returns, by the outcome of the run. *)
Lemma driver_cases (runner : GraphState -> stateful S GraphState) (query : string) (s : S) :
  try_exceptM
    (do result <- runner (initial_state query); ret (package query result))
    (fun e => ret (error_result query e)) s
  = match runner (initial_state query) s with
    | (Ok st, s') => (Ok (package query st), s')
    | (Raise e, s') => (Ok (error_result query e), s')
    end.
Proof.
  unfold try_exceptM, mbindM, ret.
  destruct (runner (initial_state query) s) as [[st | e] s']; reflexivity.
Qed.

Lemma driver_total (runner : GraphState -> stateful S GraphState) (query : string) (s : S) :
  exists r s',
    try_exceptM
      (do result <- runner (initial_state query); ret (package query result))
      (fun e => ret (error_result query e)) s = (Ok r, s')
    /\ dom r = result_keys
    /\ r !! "query" = Some (PyStr query)
    /\ (forall e s'', runner (initial_state query) s = (Raise e, s'') ->
        s' = s''
        /\ r !! "intent" = Some (PyStr "unknown")
        /\ r !! "response" = Some (PyStr ERROR_RESPONSE)
        /\ r !! "weather_data" = Some (PyDict ∅)
        /\ r !! "retrieved_docs_count" = Some (PyInt 0)
        /\ r !! "metadata" = Some (PyDict {[ "error" := PyStr (str_exn e) ]})).
Proof.
  rewrite driver_cases.
  destruct (runner (initial_state query) s) as [[st | e] s'].
  - exists (package query st), s'. split; [reflexivity | ].
    split; [apply dom_package | ]. split; [reflexivity | ].
    intros e s'' [=].
  - exists (error_result query e), s'. split; [reflexivity | ].
    split; [apply dom_error_result | ]. split; [reflexivity | ].
    intros e' s'' [= <- <-]. repeat split; reflexivity.
Qed.

(** C1. For every query (the empty string included) and whatever the
    workflow does, [process_query] and [aprocess_query] return a mapping with
    exactly the keys [query], [intent], [response], [weather_data],
    [retrieved_docs_count] and [metadata] and never raise; when the run of
    the workflow raises [e], the mapping has [intent = "unknown"], the fixed
    error text as [response] and [str(e)] under [metadata["error"]]. *)
Theorem process_query_never_raises (query : string) (s : S) :
  (exists r s',
     process_query graph query s = (Ok r, s')
     /\ dom r = result_keys
     /\ r !! "query" = Some (PyStr query)
     /\ (forall e s'', invoke graph (initial_state query) s = (Raise e, s'') ->
         r !! "intent" = Some (PyStr "unknown")
         /\ r !! "response" = Some (PyStr ERROR_RESPONSE)
         /\ r !! "metadata" = Some (PyDict {[ "error" := PyStr (str_exn e) ]})))
  /\ (exists r s',
     aprocess_query graph query s = (Ok r, s')
     /\ dom r = result_keys
     /\ r !! "query" = Some (PyStr query)
     /\ (forall e s'', ainvoke graph (initial_state query) s = (Raise e, s'') ->
         r !! "intent" = Some (PyStr "unknown")
         /\ r !! "response" = Some (PyStr ERROR_RESPONSE)
         /\ r !! "metadata" = Some (PyDict {[ "error" := PyStr (str_exn e) ]}))).
Proof.
  split.
  - destruct (driver_total (invoke graph) query s) as (r & s' & Hrun & Hdom & Hq & Herr).
    exists r, s'. repeat split; try assumption;
      destruct (Herr _ _ H) as (_ & Hi & Hr & _ & _ & Hm); assumption.
  - destruct (driver_total (ainvoke graph) query s) as (r & s' & Hrun & Hdom & Hq & Herr).
    exists r, s'. repeat split; try assumption;
      destruct (Herr _ _ H) as (_ & Hi & Hr & _ & _ & Hm); assumption.
Qed.

End DriverProperties.

(** ** The workflow of this repository *)

Section WorkflowProperties.
Context {W : Type}.
Variable llm_invoke : list message_like -> result pyval.
Variable http_get_json : string -> result pyval.
Variables (float_repr : float -> string) (container_repr : pyval -> string).
Variable client : QdrantClient W.
Variable encode : list string -> result (list PDFService.vector).

(** The nodes return, and only the classifier writes [intent]. *)
Lemma classify_intent_returns (state : GraphState) :
  exists u i,
    classify_intent llm_invoke state = Ok u
    /\ upd_intent u = Some i /\ (i = "weather" \/ i = "pdf").
Proof.
  rewrite classify_intent_cases.
  destruct (llm_invoke (classify_messages state)) as [[ | b | z | f | a | l | d] | e];
    try (eexists; eexists; split; [reflexivity | split; [reflexivity | right; reflexivity]]).
  destruct (valid_intent (lower (strip a))) eqn:Hv.
  - eexists; eexists. split; [reflexivity | ]. split; [reflexivity | ].
    apply valid_intent_spec, Hv.
  - eexists; eexists. split; [reflexivity | ].
    split; [reflexivity | right; reflexivity].
Qed.

Lemma fetch_weather_returns (state : GraphState) :
  exists u, fetch_weather llm_invoke http_get_json state = Ok u /\ upd_intent u = None.
Proof.
  unfold fetch_weather, try_except.
  destruct (response ← _; _) as [u | e] eqn:Hbody; [ | eexists; split; reflexivity].
  exists u. split; [reflexivity | ].
  destruct (ask llm_invoke CITY_PROMPT (query state)) as [response | e]; [ | discriminate].
  cbn in Hbody. destruct (getitem response "content") as [content | e]; [ | discriminate].
  cbn in Hbody. destruct (str_method "strip" strip content) as [city | e]; [ | discriminate].
  cbn in Hbody. destruct (WeatherService.get_weather http_get_json city) as [data | e];
    [ | discriminate].
  cbn in Hbody. injection Hbody as <-. reflexivity.
Qed.

Lemma generate_response_returns (state : GraphState) :
  exists u,
    generate_response llm_invoke float_repr container_repr state = Ok u
    /\ upd_intent u = None.
Proof.
  unfold generate_response, try_except.
  destruct (if String.eqb (intent state) "weather" then _ else _) as [response | e];
    eexists; split; reflexivity.
Qed.

Lemma retrieve_from_pdf_returns (state : GraphState) (s : VS W) :
  exists u, fst (retrieve_from_pdf client encode state s) = Ok u /\ upd_intent u = None.
Proof.
  unfold retrieve_from_pdf, try_exceptM, mbindM, ret.
  destruct (search_similar client encode (query state) 3 s) as [[docs | e] s'];
    eexists; split; reflexivity.
Qed.

Lemma intent_apply_update (state : GraphState) (u : Update) :
  intent (apply_update state u) = default (intent state) (upd_intent u).
Proof. reflexivity. Qed.

Lemma query_apply_update (state : GraphState) (u : Update) :
  query (apply_update state u) = query state.
Proof. reflexivity. Qed.

(** Every node has its own guard and the classifier returns a key of the
    routing table: a run of the workflow returns, with an intent of the
    closed set. *)
Lemma run_returns (state : GraphState) (s : VS W) :
  exists final s',
    run llm_invoke http_get_json float_repr container_repr client encode state s
      = (Ok final, s')
    /\ (intent final = "weather" \/ intent final = "pdf")
    /\ query final = query state.
Proof.
  unfold run. unfold mbindM at 1. unfold lift at 1.
  destruct (classify_intent_returns state) as (u1 & i & -> & Hi & Hclosed).
  unfold mbindM at 1. unfold lift at 1. unfold _route_by_intent.
  assert (intent (apply_update state u1) = i) as Hintent
    by (rewrite intent_apply_update, Hi; reflexivity).
  rewrite Hintent.
  destruct Hclosed as [-> | ->]; cbn [conditional_edges String.eqb Ascii.eqb Bool.eqb];
    unfold mbindM at 1.
  - unfold lift at 1.
    destruct (fetch_weather_returns (apply_update state u1)) as (u2 & -> & H2).
    unfold mbindM, lift, ret.
    destruct (generate_response_returns (apply_update (apply_update state u1) u2))
      as (u3 & -> & H3).
    eexists; eexists. split; [reflexivity | ].
    rewrite !intent_apply_update, !query_apply_update, H3, H2, Hi.
    split; [left; reflexivity | reflexivity].
  - destruct (retrieve_from_pdf_returns (apply_update state u1) s) as (u2 & Hu2 & H2).
    destruct (retrieve_from_pdf client encode (apply_update state u1) s) as [r s'].
    cbn in Hu2. subst r.
    unfold mbindM, lift, ret.
    destruct (generate_response_returns (apply_update (apply_update state u1) u2))
      as (u3 & -> & H3).
    eexists; eexists. split; [reflexivity | ].
    rewrite !intent_apply_update, !query_apply_update, H3, H2, Hi.
    split; [right; reflexivity | reflexivity].
Qed.

End WorkflowProperties.

(** A query classified as weather with the provider down. *)
Example process_query_weather_provider_down :
  fst (process_query
         (compiled (Fixtures.llm_says "weather") Fixtures.http_down
            Fixtures.no_repr Fixtures.no_repr Fixtures.client_down
            (Fixtures.encode_as Fixtures.e1))
         "Will it rain in Paris?" Fixtures.local_store)
  = Ok (<[ "query" := PyStr "Will it rain in Paris?" ]>
       (<[ "intent" := PyStr "weather" ]>
       (<[ "response" := PyStr NO_WEATHER ]>
       (<[ "weather_data" := PyDict ∅ ]>
       (<[ "retrieved_docs_count" := PyInt 0 ]>
       (<[ "metadata" := PyDict {[ "intent_classification" := PyStr "weather" ]} ]> ∅)))))).
Proof. reflexivity. Qed.

(** A query classified as pdf against an empty index, on the empty query
    with the model down. *)
Example process_query_empty_index :
  fst (process_query
         (compiled Fixtures.llm_down Fixtures.http_down
            Fixtures.no_repr Fixtures.no_repr Fixtures.client_down
            (Fixtures.encode_as Fixtures.e1))
         "" Fixtures.local_store)
  = Ok (<[ "query" := PyStr "" ]>
       (<[ "intent" := PyStr "pdf" ]>
       (<[ "response" := PyStr NO_DOCUMENTS ]>
       (<[ "weather_data" := PyDict ∅ ]>
       (<[ "retrieved_docs_count" := PyInt 0 ]>
       (<[ "metadata" := PyDict {[ "intent_classification" := PyStr "pdf" ]} ]> ∅)))))).
Proof. reflexivity. Qed.

(** The handler at work: a runtime that raises, on the empty query. *)
Example process_query_broken_graph :
  process_query Fixtures.broken_graph "" tt
  = (Ok (error_result "" (Exn RuntimeError "recursion limit reached")), tt).
Proof. reflexivity. Qed.

(* ===================================================================== *)
(** * The vector store: backend demotion                                *)
(* ===================================================================== *)

Section Demotion.
Context {W : Type}.
Variable client : QdrantClient W.
Variable encode : list string -> result (list PDFService.vector).
Variable uuid4 : nat -> string.

(** The loop of [_store_memory] leaves [use_cloud] alone. *)
Lemma for_enumerate_append_use_cloud metadata (pairs : list (string * PDFService.vector)) :
  forall i (s : VS W),
    use_cloud (snd (for_enumerate i pairs (append_record uuid4 metadata) s)) = use_cloud s.
Proof.
  induction pairs as [ | pair pairs IH]; intros i s; [reflexivity | ].
  cbn. unfold mbindM at 1. unfold append_record at 1.
  unfold mbindM, get_memory_store, draw_uuid, set_memory_store.
  destruct (_memory_store s) as [store | ]; cbn; [ | reflexivity].
  rewrite IH. reflexivity.
Qed.

Lemma _store_memory_use_cloud chunks embeddings metadata (s : VS W) :
  use_cloud (snd (_store_memory uuid4 chunks embeddings metadata s)) = use_cloud s.
Proof.
  unfold _store_memory, try_exceptM, mbindM, ret.
  pose proof (for_enumerate_append_use_cloud metadata (zip chunks embeddings) 0%nat s) as H.
  destruct (for_enumerate _ _ _ s) as [[[] | e] s']; exact H.
Qed.

(** [_store_memory] and [_search_memory] return: their handlers catch all. *)
Lemma _store_memory_returns chunks embeddings metadata (s : VS W) :
  exists b, fst (_store_memory uuid4 chunks embeddings metadata s) = Ok b.
Proof.
  unfold _store_memory, try_exceptM, mbindM, ret.
  destruct (for_enumerate _ _ _ s) as [[[] | e] s']; eexists; reflexivity.
Qed.

Lemma _search_memory_state query limit (s : VS W) :
  snd (_search_memory encode query limit s) = s.
Proof.
  unfold _search_memory, try_exceptM, mbindM, get_memory_store, ret.
  destruct (_memory_store s) as [[ | item store] | ]; try reflexivity.
  destruct (PDFService.create_query_embedding encode query); reflexivity.
Qed.

Lemma _search_memory_returns query limit (s : VS W) :
  exists docs, fst (_search_memory encode query limit s) = Ok docs.
Proof.
  unfold _search_memory, try_exceptM, mbindM, get_memory_store, ret.
  destruct (_memory_store s) as [[ | item store] | ]; try (eexists; reflexivity).
  destruct (PDFService.create_query_embedding encode query); eexists; reflexivity.
Qed.

(** No operation turns [use_cloud] on. *)
Lemma perform_keeps_local (op : operation) (s : VS W) :
  use_cloud s = false -> use_cloud (perform client encode uuid4 op s) = false.
Proof.
  intros Hlocal. destruct op as [ | chunks embeddings metadata | query limit | ]; cbn.
  - unfold _ensure_collection, mbindM, get_use_cloud. rewrite Hlocal. exact Hlocal.
  - unfold store_embeddings, mbindM, get_use_cloud. rewrite Hlocal.
    rewrite _store_memory_use_cloud. exact Hlocal.
  - unfold search_similar, mbindM, get_use_cloud. rewrite Hlocal.
    rewrite _search_memory_state. exact Hlocal.
  - unfold get_collection_info, mbindM, get_use_cloud, get_collection_name, get_memory_store.
    rewrite Hlocal. destruct (_memory_store s); exact Hlocal.
Qed.

Lemma perform_all_keeps_local (ops : list operation) :
  forall s : VS W, use_cloud s = false -> use_cloud (perform_all client encode uuid4 ops s) = false.
Proof.
  induction ops as [ | op ops IH]; intros s Hlocal; [exact Hlocal | ].
  cbn. apply IH, perform_keeps_local, Hlocal.
Qed.

(** [store_embeddings] and [search_similar] return on either backend. *)
Lemma store_embeddings_returns chunks embeddings metadata (s : VS W) :
  exists b, fst (store_embeddings client uuid4 chunks embeddings metadata s) = Ok b.
Proof.
  unfold store_embeddings. unfold mbindM at 1. unfold get_use_cloud.
  destruct (use_cloud s); [ | apply _store_memory_returns].
  unfold _store_cloud. unfold try_exceptM at 1.
  destruct (_store_cloud_try _ _ _ _ _ _) as [[b | e] s1]; [exists b; reflexivity | ].
  apply (_store_memory_returns chunks embeddings metadata (demoted s1)).
Qed.

Lemma search_similar_returns query limit (s : VS W) :
  exists docs, fst (search_similar client encode query limit s) = Ok docs.
Proof.
  unfold search_similar. unfold mbindM at 1. unfold get_use_cloud.
  destruct (use_cloud s); [ | apply _search_memory_returns].
  unfold _search_cloud. unfold try_exceptM at 1.
  destruct (_search_cloud_try _ _ _ _ _) as [[docs | e] s1]; [exists docs; reflexivity | ].
  apply (_search_memory_returns query limit (demoted s1)).
Qed.

(** C3. [use_cloud] is one-way: once it is false no sequence of operations
    ([_ensure_collection], [store_embeddings], [search_similar],
    [get_collection_info]) sets it back; and when the [try] block of a
    persistent-backend ensure, store or search raises, the method sets
    [use_cloud] to false and, instead of raising, returns what the local
    backend returns for the same arguments ([_ensure_collection] creates the
    empty in-memory list, to which a further call adds nothing). *)
Theorem use_cloud_one_way :
  (forall ops (s : VS W),
     use_cloud s = false -> use_cloud (perform_all client encode uuid4 ops s) = false)
  /\ (forall (s s1 : VS W) e,
        use_cloud s = true ->
        _ensure_collection_try client s = (Raise e, s1) ->
        exists s2,
          _ensure_collection client s = (Ok tt, s2)
          /\ use_cloud s2 = false
          /\ _memory_store s2 = Some []
          /\ _ensure_collection client s2 = (Ok tt, s2))
  /\ (forall (s s1 : VS W) chunks embeddings metadata e,
        use_cloud s = true ->
        _store_cloud_try client uuid4 chunks embeddings metadata s = (Raise e, s1) ->
        store_embeddings client uuid4 chunks embeddings metadata s
          = _store_memory uuid4 chunks embeddings metadata (demoted s1)
        /\ (exists b, fst (store_embeddings client uuid4 chunks embeddings metadata s) = Ok b)
        /\ use_cloud (snd (store_embeddings client uuid4 chunks embeddings metadata s))
           = false)
  /\ (forall (s s1 : VS W) query limit e,
        use_cloud s = true ->
        _search_cloud_try client encode query limit s = (Raise e, s1) ->
        search_similar client encode query limit s
          = _search_memory encode query limit (demoted s1)
        /\ (exists docs, fst (search_similar client encode query limit s) = Ok docs)
        /\ use_cloud (snd (search_similar client encode query limit s)) = false).
Proof.
  split; [exact perform_all_keeps_local | ].
  split; [ | split].
  - intros s s1 e Hcloud Htry. eexists.
    unfold _ensure_collection. unfold mbindM at 1. unfold get_use_cloud.
    rewrite Hcloud. cbn [negb]. unfold try_exceptM. rewrite Htry.
    split; [reflexivity | ]. split; [reflexivity | ]. split; reflexivity.
  - intros s s1 chunks embeddings metadata e Hcloud Htry.
    assert (store_embeddings client uuid4 chunks embeddings metadata s
            = _store_memory uuid4 chunks embeddings metadata (demoted s1)) as Heq.
    { unfold store_embeddings. unfold mbindM at 1. unfold get_use_cloud.
      rewrite Hcloud. unfold _store_cloud. unfold try_exceptM at 1.
      rewrite Htry. reflexivity. }
    rewrite Heq. split; [reflexivity | ].
    split; [apply _store_memory_returns | ].
    rewrite _store_memory_use_cloud. reflexivity.
  - intros s s1 query limit e Hcloud Htry.
    assert (search_similar client encode query limit s
            = _search_memory encode query limit (demoted s1)) as Heq.
    { unfold search_similar. unfold mbindM at 1. unfold get_use_cloud.
      rewrite Hcloud. unfold _search_cloud. unfold try_exceptM at 1.
      rewrite Htry. reflexivity. }
    rewrite Heq. split; [reflexivity | ].
    split; [apply _search_memory_returns | ].
    rewrite _search_memory_state. reflexivity.
Qed.

End Demotion.

(** Construction against an unreachable service ends on the local backend,
    with the empty list. *)
Example construction_unreachable :
  __init__ Fixtures.client_down "https://qdrant" "key" tt
  = mkVS false (Some []) "pdf_embeddings" tt 0%nat.
Proof. reflexivity. Qed.

(** A refused write demotes the instance; the local store then fails, the
    in-memory list never having been created, and nothing is raised. *)
Example store_embeddings_refused :
  use_cloud Fixtures.cloud_store = true
  /\ store_embeddings Fixtures.client_read_only Fixtures.uuid_of
       ["intro"] [Fixtures.e1] None Fixtures.cloud_store
     = (Ok false, mkVS false None "pdf_embeddings" tt 1%nat).
Proof. split; reflexivity. Qed.

Example search_similar_refused :
  search_similar Fixtures.client_read_only (Fixtures.encode_as Fixtures.e1)
    "which way is east?" 3 Fixtures.cloud_store
  = (Ok [], demoted Fixtures.cloud_store).
Proof. reflexivity. Qed.

(** [get_collection_info] on the demoted instance raises. *)
Example get_collection_info_without_list :
  fst (get_collection_info Fixtures.client_read_only (demoted Fixtures.cloud_store))
  = Raise (attribute_error "_memory_store").
Proof. reflexivity. Qed.

(* ===================================================================== *)
(** * The order of binary64 floats                                      *)
(* ===================================================================== *)

Section FloatOrder.

Lemma SFcompare_antisym (x y : spec_float) (c : comparison) :
  SFcompare x y = Some c -> SFcompare y x = Some (CompOpp c).
Proof.
  destruct x as [sx | sx | | sx mx ex], y as [sy | sy | | sy my ey]; cbn;
    try discriminate;
    try (intros [= <-]; repeat match goal with b : bool |- _ => destruct b end; reflexivity).
  intros [= <-]. f_equal.
  change (Pos.compare_cont Eq mx my) with (Pos.compare mx my).
  change (Pos.compare_cont Eq my mx) with (Pos.compare my mx).
  destruct sx, sy; try reflexivity;
    rewrite (Z.compare_antisym ex ey);
    destruct (ex ?= ey) eqn:He; cbn; try reflexivity;
    rewrite (Pos.compare_antisym mx my), ?CompOpp_involutive; reflexivity.
Qed.

Lemma lex_spec e1 m1 e2 m2 :
  match lex e1 m1 e2 m2 with
  | Lt => e1 < e2 \/ (e1 = e2 /\ (m1 < m2)%positive)
  | Eq => e1 = e2 /\ m1 = m2
  | Gt => e2 < e1 \/ (e1 = e2 /\ (m2 < m1)%positive)
  end.
Proof.
  unfold lex.
  destruct (Z.compare_spec e1 e2); [ | left; assumption | left; assumption].
  destruct (Pos.compare_spec m1 m2); [split | right; split | right; split]; assumption.
Qed.

Lemma SFcompare_finite s1 m1 e1 s2 m2 e2 :
  SFcompare (S754_finite s1 m1 e1) (S754_finite s2 m2 e2)
  = Some (match s1, s2 with
          | true, false => Lt
          | false, true => Gt
          | false, false => lex e1 m1 e2 m2
          | true, true => CompOpp (lex e1 m1 e2 m2)
          end).
Proof.
  unfold lex. cbn. destruct s1, s2; try reflexivity.
  destruct (e1 ?= e2); reflexivity.
Qed.

Lemma SFcompare_trans (x y z : spec_float) (c1 c2 c3 : comparison) :
  SFcompare x y = Some c1 -> SFcompare y z = Some c2 ->
  cmp_trans c1 c2 = Some c3 -> SFcompare x z = Some c3.
Proof.
  destruct x as [sx | sx | | sx mx ex], y as [sy | sy | | sy my ey],
           z as [sz | sz | | sz mz ez];
    try (cbn; discriminate);
    try (cbn; intros [= <-] [= <-];
         repeat match goal with b : bool |- _ => destruct b end; cbn;
         repeat match goal with
                | |- context [Z.compare ?a ?b] => destruct (Z.compare a b)
                | |- context [Pos.compare_cont Eq ?a ?b] => destruct (Pos.compare_cont Eq a b)
                end; cbn;
         try discriminate; intros [= <-]; reflexivity).
  rewrite !SFcompare_finite. intros [= <-] [= <-] H. f_equal.
  pose proof (lex_spec ex mx ey my) as H12.
  pose proof (lex_spec ey my ez mz) as H23.
  pose proof (lex_spec ex mx ez mz) as H13.
  destruct sx, sy, sz, (lex ex mx ey my), (lex ey my ez mz), (lex ex mx ez mz);
    cbn in H |- *; try discriminate; injection H as <-; try reflexivity; exfalso; lia.
Qed.

(** ** Consequences for the primitive comparisons *)

Lemma SFcompare_refl_not_nan (x : spec_float) :
  x <> S754_nan -> SFcompare x x = Some Eq.
Proof.
  destruct x as [s | s | | s m e]; cbn; intros H; try reflexivity; try contradiction.
  - destruct s; reflexivity.
  - destruct s; rewrite Z.compare_refl;
      change (Pos.compare_cont Eq m m) with (Pos.compare m m);
      rewrite Pos.compare_refl; reflexivity.
Qed.

Lemma not_nan_spec (x : float) : not_nan x <-> Prim2SF x <> S754_nan.
Proof.
  unfold not_nan. rewrite FloatAxioms.eqb_spec. unfold SFeqb. split.
  - intros H Hn. rewrite Hn in H. discriminate.
  - intros H. rewrite SFcompare_refl_not_nan; [reflexivity | exact H].
Qed.

Lemma SFcompare_total (x y : spec_float) :
  x <> S754_nan -> y <> S754_nan -> exists c, SFcompare x y = Some c.
Proof.
  destruct x, y; cbn; intros Hx Hy; try contradiction; eexists; reflexivity.
Qed.

Lemma ltb_leb (x y : float) : PrimFloat.ltb x y = true -> PrimFloat.leb x y = true.
Proof.
  rewrite FloatAxioms.ltb_spec, FloatAxioms.leb_spec. unfold SFltb, SFleb.
  destruct (SFcompare _ _) as [[] | ]; congruence.
Qed.

Lemma ltb_false_leb (x y : float) :
  not_nan x -> not_nan y -> PrimFloat.ltb x y = false -> PrimFloat.leb y x = true.
Proof.
  rewrite !not_nan_spec, FloatAxioms.ltb_spec, FloatAxioms.leb_spec. unfold SFltb, SFleb. intros Hx Hy.
  destruct (SFcompare_total _ _ Hx Hy) as [c Hc]. rewrite Hc.
  rewrite (SFcompare_antisym _ _ _ Hc). destruct c; cbn; congruence.
Qed.

Lemma leb_trans (x y z : float) :
  PrimFloat.leb x y = true -> PrimFloat.leb y z = true -> PrimFloat.leb x z = true.
Proof.
  rewrite !FloatAxioms.leb_spec. unfold SFleb.
  destruct (SFcompare (Prim2SF x) (Prim2SF y)) as [c1 | ] eqn:H1; [ | discriminate].
  destruct (SFcompare (Prim2SF y) (Prim2SF z)) as [c2 | ] eqn:H2; [ | destruct c1; discriminate].
  intros Hc1 Hc2.
  destruct c1, c2; try discriminate;
    (erewrite SFcompare_trans; [ | exact H1 | exact H2 | reflexivity]); reflexivity.
Qed.

(** A float equal to [c] is strictly below no float equal to [c]. *)
Lemma eqb_ltb_neq (x h c : float) :
  PrimFloat.eqb x c = true -> PrimFloat.ltb x h = true -> PrimFloat.eqb h c = false.
Proof.
  rewrite !FloatAxioms.eqb_spec, FloatAxioms.ltb_spec. unfold SFeqb, SFltb.
  destruct (SFcompare (Prim2SF x) (Prim2SF c)) as [[] | ] eqn:Hxc; try discriminate.
  destruct (SFcompare (Prim2SF x) (Prim2SF h)) as [[] | ] eqn:Hxh; try discriminate.
  intros _ _.
  apply SFcompare_antisym in Hxh. cbn in Hxh.
  rewrite (SFcompare_trans _ _ _ _ _ Gt Hxh Hxc); reflexivity.
Qed.

Lemma mul_comm (x y : float) : (x * y = y * x)%float.
Proof.
  apply Prim2SF_inj. rewrite !FloatAxioms.mul_spec. unfold SF64mul, SFmul.
  destruct (Prim2SF x) as [sx | sx | | sx mx ex], (Prim2SF y) as [sy | sy | | sy my ey];
    try reflexivity; rewrite (xorb_comm sx sy); try reflexivity.
  rewrite (Pos.mul_comm mx my), (Z.add_comm ex ey). reflexivity.
Qed.

End FloatOrder.

(* ===================================================================== *)
(** * The descending stable sort                                        *)
(* ===================================================================== *)

Section SortProperties.
Context {A : Type}.
Variable key : A -> float.

Lemma insert_desc_perm (x : A) (l : list A) : insert_desc key x l ≡ₚ x :: l.
Proof.
  induction l as [ | h t IH]; cbn; [reflexivity | ].
  destruct (PrimFloat.ltb (key x) (key h)); [ | reflexivity].
  rewrite IH. apply Permutation_swap.
Qed.

Lemma sort_desc_perm (l : list A) : sort_desc key l ≡ₚ l.
Proof.
  induction l as [ | x l IH]; cbn; [reflexivity | ].
  rewrite insert_desc_perm, IH. reflexivity.
Qed.

Lemma sort_desc_length (l : list A) : length (sort_desc key l) = length l.
Proof. apply Permutation_length, sort_desc_perm. Qed.

Lemma insert_desc_sorted (x : A) (l : list A) :
  not_nan (key x) -> Forall (fun y => not_nan (key y)) l ->
  StronglySorted (ranks_before key) l ->
  StronglySorted (ranks_before key) (insert_desc key x l).
Proof.
  intros Hx Hl Hsorted. induction Hsorted as [ | h t Hsorted IH Hh]; cbn.
  - constructor; constructor.
  - apply Forall_cons in Hl as [Hnh Hl].
    destruct (PrimFloat.ltb (key x) (key h)) eqn:Hlt.
    + constructor; [apply IH, Hl | ].
      rewrite insert_desc_perm. constructor; [ | exact Hh].
      apply ltb_leb, Hlt.
    + assert (ranks_before key x h) as Hxh by (apply ltb_false_leb; assumption).
      constructor; [constructor; assumption | ].
      constructor; [exact Hxh | ].
      eapply Forall_impl; [exact Hh | ].
      intros y Hy. unfold ranks_before in *. eapply leb_trans; eassumption.
Qed.

Lemma sort_desc_sorted (l : list A) :
  Forall (fun y => not_nan (key y)) l ->
  StronglySorted (ranks_before key) (sort_desc key l).
Proof.
  induction l as [ | x l IH]; cbn; intros Hl; [constructor | ].
  apply Forall_cons in Hl as [Hx Hl].
  apply insert_desc_sorted; [exact Hx | | apply IH, Hl].
  rewrite sort_desc_perm. exact Hl.
Qed.

(** Stability: among the elements of one key the order is kept. *)
Lemma with_key_insert_desc (c : float) (x : A) (l : list A) :
  with_key key c (insert_desc key x l) = with_key key c (x :: l).
Proof.
  induction l as [ | h t IH]; [reflexivity | ].
  cbn. destruct (PrimFloat.ltb (key x) (key h)) eqn:Hlt; [ | reflexivity].
  cbn. unfold with_key in IH. rewrite IH. cbn.
  destruct (PrimFloat.eqb (key x) c) eqn:Hx; [ | reflexivity].
  rewrite (eqb_ltb_neq _ _ _ Hx Hlt). reflexivity.
Qed.

Lemma with_key_sort_desc (c : float) (l : list A) :
  with_key key c (sort_desc key l) = with_key key c l.
Proof.
  induction l as [ | x l IH]; [reflexivity | ].
  cbn [sort_desc]. rewrite with_key_insert_desc.
  unfold with_key in *. cbn. rewrite IH. reflexivity.
Qed.

Lemma with_key_take (c : float) (n : nat) (l : list A) :
  with_key key c (take n l) `prefix_of` with_key key c l.
Proof.
  exists (with_key key c (drop n l)). unfold with_key.
  rewrite <- List.filter_app, take_drop. reflexivity.
Qed.

Lemma StronglySorted_take (R : A -> A -> Prop) (n : nat) (l : list A) :
  StronglySorted R l -> StronglySorted R (take n l).
Proof.
  intros H. revert n. induction H as [ | h t Hsorted IH Hh]; intros [ | n]; cbn;
    try constructor.
  - apply IH.
  - apply Forall_take, Hh.
Qed.

(** A new maximum appended at the end is ranked first. *)
Lemma sort_desc_new_maximum (x : A) (l : list A) :
  Forall (fun y => PrimFloat.ltb (key y) (key x) = true) l ->
  sort_desc key (l ++ [x]) = x :: sort_desc key l.
Proof.
  induction l as [ | h t IH]; intros Hl; [reflexivity | ].
  apply Forall_cons in Hl as [Hh Hl]. cbn. rewrite (IH Hl). cbn. rewrite Hh. reflexivity.
Qed.

End SortProperties.

(* ===================================================================== *)
(** * The local backend: search                                         *)
(* ===================================================================== *)

Section SearchProperties.
Context {W : Type}.
Variable encode : list string -> result (list PDFService.vector).

Lemma to_result_similarities (q : PDFService.vector) (store : list Item) :
  to_result <$> similarities q store = scored q <$> store.
Proof.
  unfold similarities. rewrite <- list_fmap_compose. reflexivity.
Qed.

(** What [_search_memory] returns, in closed form. *)
Lemma _search_memory_cases (query : string) (limit : Z) (s : VS W) :
  _search_memory encode query limit s =
    (Ok (match records s, PDFService.create_query_embedding encode query with
         | [], _ | _, [] => []
         | store, q => to_result <$> slice_to limit (sort_desc fst (similarities q store))
         end), s).
Proof.
  unfold _search_memory, records, try_exceptM, mbindM, get_memory_store, ret.
  destruct (_memory_store s) as [[ | item store] | ]; cbn; try reflexivity.
  destruct (PDFService.create_query_embedding encode query); reflexivity.
Qed.

Lemma with_key_fmap {A B} (f : A -> B) (kb : B -> float) (c : float) (l : list A) :
  with_key kb c (f <$> l) = f <$> with_key (fun a => kb (f a)) c l.
Proof.
  unfold with_key. induction l as [ | a l IH]; [reflexivity | ].
  cbn. destruct (PrimFloat.eqb (kb (f a)) c); cbn; rewrite IH; reflexivity.
Qed.

Lemma StronglySorted_fmap {A B} (f : A -> B) (R : B -> B -> Prop) (l : list A) :
  StronglySorted (fun x y => R (f x) (f y)) l -> StronglySorted R (f <$> l).
Proof.
  induction 1 as [ | h t Hsorted IH Hh]; cbn; constructor; [exact IH | ].
  apply Forall_fmap. exact Hh.
Qed.

(** The ranking of a non-empty store for a non-empty query embedding. *)
Lemma ranking_properties (q : PDFService.vector) (store : list Item) (n : nat) :
  Forall (fun item => not_nan (_cosine_similarity q (item_vector item))) store ->
  let docs := to_result <$> take n (sort_desc fst (similarities q store)) in
  (length docs <= n)%nat
  /\ StronglySorted (ranks_before doc_score) docs
  /\ (forall c, with_key doc_score c docs `prefix_of` with_key doc_score c (scored q <$> store))
  /\ (forall d, d ∈ docs -> exists item, item ∈ store /\ d = scored q item).
Proof.
  intros Hnan docs. subst docs. repeat split.
  - rewrite length_fmap, length_take. lia.
  - apply StronglySorted_fmap, StronglySorted_take.
    apply (sort_desc_sorted (A := float * Item) fst).
    unfold similarities. apply Forall_fmap. exact Hnan.
  - intros c. rewrite <- to_result_similarities, !with_key_fmap.
    rewrite <- (with_key_sort_desc _ c (similarities q store)).
    destruct (with_key_take (fun a : float * Item => doc_score (to_result a)) c n
                (sort_desc fst (similarities q store))) as [k Hk].
    exists (to_result <$> k).
    change (fun a : float * Item => doc_score (to_result a)) with (@fst float Item) in *.
    rewrite Hk, fmap_app. reflexivity.
  - intros d Hd. apply list_elem_of_fmap in Hd as (p & -> & Hp).
    apply elem_of_take in Hp as (i & Hp & _).
    apply list_elem_of_lookup_2 in Hp.
    rewrite sort_desc_perm in Hp.
    unfold similarities in Hp. apply list_elem_of_fmap in Hp as (item & -> & Hitem).
    exists item. split; [exact Hitem | reflexivity].
Qed.

(** C4, as the code has it.  For every state of the local backend, every
    query and every limit that is not negative, when no similarity is NaN:
    [_search_memory] returns (it never raises, and leaves the instance as it
    is) at most [limit] results; the scores never increase along the list;
    the results of one score are the first stored records of that score, in
    stored order; and every result is built from a stored record, with the
    cosine similarity of the query embedding and the record's vector as its
    score. *)
Theorem _search_memory_ranked (s : VS W) (query : string) (limit : Z) :
  0 <= limit ->
  Forall (fun item => not_nan (_cosine_similarity
                                 (PDFService.create_query_embedding encode query)
                                 (item_vector item))) (records s) ->
  exists docs,
    _search_memory encode query limit s = (Ok docs, s)
    /\ Z.of_nat (length docs) <= limit
    /\ StronglySorted (fun a b => PrimFloat.leb (doc_score b) (doc_score a) = true) docs
    /\ (forall c,
         with_key doc_score c docs `prefix_of`
         with_key doc_score c
           (scored (PDFService.create_query_embedding encode query) <$> records s))
    /\ (forall d, d ∈ docs ->
         exists item, item ∈ records s
           /\ d = scored (PDFService.create_query_embedding encode query) item).
Proof.
  intros Hlimit Hnan. rewrite _search_memory_cases.
  eexists. split; [reflexivity | ].
  assert (Z.of_nat (length (@nil DocumentMatch)) <= limit
          /\ StronglySorted (fun a b => PrimFloat.leb (doc_score b) (doc_score a) = true) []
          /\ (forall c (l : list DocumentMatch),
               with_key doc_score c [] `prefix_of` with_key doc_score c l))
    as (Hnil1 & Hnil2 & Hnil3).
  { split; [cbn; lia | ]. split; [constructor | intros; apply prefix_nil]. }
  destruct (records s) as [ | item store] eqn:Hstore.
  { split; [exact Hnil1 | ]. split; [exact Hnil2 | ].
    split; [intros c; apply Hnil3 | intros d Hd; inversion Hd]. }
  destruct (PDFService.create_query_embedding encode query) as [ | x q] eqn:Hq.
  { split; [exact Hnil1 | ]. split; [exact Hnil2 | ].
    split; [intros c; apply Hnil3 | intros d Hd; inversion Hd]. }
  unfold slice_to. rewrite (proj2 (Z.leb_le 0 limit) Hlimit).
  destruct (ranking_properties (x :: q) (item :: store) (Z.to_nat limit) Hnan)
    as (Hlen & Hsorted & Hstable & Hfrom).
  repeat split; try assumption. lia.
Qed.

End SearchProperties.

(* ===================================================================== *)
(** * The local backend: store                                          *)
(* ===================================================================== *)

Section StoreProperties.
Context {W : Type}.
Variable uuid4 : nat -> string.

Lemma for_enumerate_append_closed metadata (pairs : list (string * PDFService.vector)) :
  forall i (s : VS W) store,
    _memory_store s = Some store ->
    for_enumerate i pairs (append_record uuid4 metadata) s
    = (Ok tt, mkVS (use_cloud s)
                (Some (store ++ new_records uuid4 metadata i (uuid_drawn s) pairs)%list)
                (collection_name s) (remote s) (uuid_drawn s + length pairs)%nat).
Proof.
  induction pairs as [ | entry pairs IH]; intros i s store Hstore.
  - cbn. unfold ret. rewrite app_nil_r, Nat.add_0_r, <- Hstore. destruct s; reflexivity.
  - cbn [for_enumerate]. unfold mbindM at 1. unfold append_record at 1.
    unfold mbindM, get_memory_store, draw_uuid, set_memory_store.
    rewrite Hstore. cbn.
    erewrite IH; [ | reflexivity]. cbn.
    rewrite <- app_assoc, Nat.add_succ_r. reflexivity.
Qed.

Lemma new_records_length metadata (pairs : list (string * PDFService.vector)) :
  forall i k, length (new_records uuid4 metadata i k pairs) = length pairs.
Proof.
  induction pairs as [ | entry pairs IH]; intros i k; cbn; [reflexivity | ].
  rewrite IH. reflexivity.
Qed.

Lemma new_records_lookup metadata (pairs : list (string * PDFService.vector)) :
  forall i k j item,
    new_records uuid4 metadata i k pairs !! j = Some item ->
    exists entry, pairs !! j = Some entry
      /\ item = mkItem (uuid4 (k + j)) (snd entry) (fst entry) (i + j)
                  (metadata_or_empty metadata).
Proof.
  induction pairs as [ | entry pairs IH]; intros i k j item; cbn; [intros [=] | ].
  destruct j as [ | j]; cbn.
  - intros [= <-]. exists entry. rewrite !Nat.add_0_r. split; reflexivity.
  - intros H. apply IH in H as (entry' & Hp & ->). exists entry'.
    rewrite !Nat.add_succ_r. split; [exact Hp | reflexivity].
Qed.

Lemma zip_lookup_Some {A B} (l1 : list A) (l2 : list B) j p :
  zip l1 l2 !! j = Some p -> l1 !! j = Some (fst p) /\ l2 !! j = Some (snd p).
Proof.
  revert l2 j. induction l1 as [ | a l1 IH]; intros [ | b l2] [ | j]; cbn;
    try (intros [=]; fail).
  - intros [= <-]. split; reflexivity.
  - apply IH.
Qed.

(** C7, as the code has it.  On a local backend whose in-memory list
    exists, for every list of chunks, list of vectors and metadata:
    [_store_memory] returns true and appends, after the records already
    there, exactly [min(len(chunks), len(vectors))] records; record [i] holds
    [chunks[i]], [vectors[i]], [chunk_index = i] as a field of its own, the
    caller's metadata unchanged ([{}] when there is none) and the identifier
    of one further draw of [uuid4], which differs from the identifiers of the
    other new records and from every identifier drawn before. *)
Theorem _store_memory_appends (s : VS W) (store : list Item)
    (chunks : list string) (embeddings : list PDFService.vector)
    (metadata : option (gmap string pyval)) :
  _memory_store s = Some store ->
  Inj (=) (=) uuid4 ->
  exists new s',
    _store_memory uuid4 chunks embeddings metadata s = (Ok true, s')
    /\ _memory_store s' = Some (store ++ new)%list
    /\ use_cloud s' = use_cloud s
    /\ length new = min (length chunks) (length embeddings)
    /\ (forall i item, new !! i = Some item ->
          chunks !! i = Some (item_text item)
          /\ embeddings !! i = Some (item_vector item)
          /\ item_chunk_index item = i
          /\ item_metadata item = metadata_or_empty metadata
          /\ item_id item = uuid4 (uuid_drawn s + i))
    /\ NoDup (item_id <$> new)
    /\ (forall item k, item ∈ new -> (k < uuid_drawn s)%nat -> item_id item <> uuid4 k).
Proof.
  intros Hstore Hinj.
  exists (new_records uuid4 metadata 0 (uuid_drawn s) (zip chunks embeddings)).
  eexists. split.
  { unfold _store_memory, try_exceptM. unfold mbindM at 1.
    rewrite (for_enumerate_append_closed _ _ _ _ _ Hstore). reflexivity. }
  split; [reflexivity | ]. split; [reflexivity | ].
  split. { rewrite new_records_length, length_zip. reflexivity. }
  assert (forall i item,
            new_records uuid4 metadata 0 (uuid_drawn s) (zip chunks embeddings) !! i
              = Some item ->
            chunks !! i = Some (item_text item)
            /\ embeddings !! i = Some (item_vector item)
            /\ item_chunk_index item = i
            /\ item_metadata item = metadata_or_empty metadata
            /\ item_id item = uuid4 (uuid_drawn s + i)) as Hnew.
  { intros i item H. apply new_records_lookup in H as (entry & Hp & ->).
    apply zip_lookup_Some in Hp as [Hc He]. cbn. repeat split; assumption. }
  split; [exact Hnew | ]. split.
  - apply NoDup_alt. intros i j id Hi Hj.
    rewrite list_lookup_fmap in Hi, Hj.
    destruct (_ !! i) as [item1 | ] eqn:H1; [ | discriminate].
    destruct (_ !! j) as [item2 | ] eqn:H2; [ | discriminate].
    cbn in Hi, Hj. injection Hi as <-. injection Hj as Hj.
    apply Hnew in H1 as (_ & _ & _ & _ & Hid1).
    apply Hnew in H2 as (_ & _ & _ & _ & Hid2).
    rewrite Hid1, Hid2 in Hj. apply Hinj in Hj. lia.
  - intros item k Hitem Hk Heq.
    apply list_elem_of_lookup in Hitem as [i Hi].
    apply Hnew in Hi as (_ & _ & _ & _ & Hid).
    rewrite Hid in Heq. apply Hinj in Heq. lia.
Qed.

End StoreProperties.

(* ===================================================================== *)
(** * Rounding in binary64                                              *)
(* ===================================================================== *)

Section Rounding.

Lemma digits2_pos_bounds (p : positive) :
  2 ^ (Zpos (digits2_pos p) - 1) <= Zpos p < 2 ^ Zpos (digits2_pos p).
Proof.
  induction p as [p IH | p IH | ]; cbn [digits2_pos]; [ | | cbn; lia].
  - rewrite Pos2Z.inj_succ. change (Zpos p~1) with (2 * Zpos p + 1).
    replace (Z.succ (Zpos (digits2_pos p)) - 1) with (Z.succ (Zpos (digits2_pos p) - 1)) by lia.
    rewrite !Z.pow_succ_r by lia.
    revert IH. generalize (2 ^ (Zpos (digits2_pos p) - 1)), (2 ^ Zpos (digits2_pos p)). intros a b. lia.
  - rewrite Pos2Z.inj_succ. change (Zpos p~0) with (2 * Zpos p).
    replace (Z.succ (Zpos (digits2_pos p)) - 1) with (Z.succ (Zpos (digits2_pos p) - 1)) by lia.
    rewrite !Z.pow_succ_r by lia.
    revert IH. generalize (2 ^ (Zpos (digits2_pos p) - 1)), (2 ^ Zpos (digits2_pos p)). intros a b. lia.
Qed.

Lemma digits2_pos_unique (p : positive) (k : Z) :
  2 ^ (k - 1) <= Zpos p < 2 ^ k -> Zpos (digits2_pos p) = k.
Proof.
  intros [Hlow Hhigh]. pose proof (digits2_pos_bounds p) as [Hl Hh].
  set (d := Zpos (digits2_pos p)) in *.
  assert (0 < d) as Hd by (subst d; lia).
  destruct (Z.lt_trichotomy d k) as [Hlt | [Heq | Hgt]]; [ | exact Heq | ]; exfalso.
  - assert (2 ^ d <= 2 ^ (k - 1)) by (apply Z.pow_le_mono_r; lia). lia.
  - destruct (Z.le_gt_cases 0 k) as [Hk | Hk].
    + assert (2 ^ k <= 2 ^ (d - 1)) by (apply Z.pow_le_mono_r; lia). lia.
    + rewrite (Z.pow_neg_r 2 k) in Hhigh by lia. lia.
Qed.

Lemma shr_m_of_loc (m : Z) (l : location) : shr_m (shr_record_of_loc m l) = m.
Proof. destruct l as [ | []]; reflexivity. Qed.

Lemma loc_of_shr_record_of_loc (m : Z) (l : location) :
  loc_of_shr_record (shr_record_of_loc m l) = l.
Proof. destruct l as [ | []]; reflexivity. Qed.

Lemma shr_1_m (mrs : shr_record) :
  0 <= shr_m mrs -> shr_m (shr_1 mrs) = shr_m mrs / 2.
Proof.
  destruct mrs as [m r s]. cbn [shr_m]. intros Hm. rewrite <- Z.div2_div.
  destruct m as [ | [p | p | ] | p]; try reflexivity. lia.
Qed.

Lemma iter_shr_1_m (p : positive) (mrs : shr_record) :
  0 <= shr_m mrs -> shr_m (SpecFloat.iter_pos shr_1 p mrs) = shr_m mrs / 2 ^ Zpos p.
Proof.
  revert mrs. induction p as [p IH | p IH | ]; intros mrs Hm; cbn [SpecFloat.iter_pos].
  - assert (0 <= shr_m (shr_1 mrs)) as H1.
    { rewrite shr_1_m by exact Hm. apply Z.div_pos; lia. }
    assert (0 <= shr_m (SpecFloat.iter_pos shr_1 p (shr_1 mrs))) as H2.
    { rewrite IH by exact H1. apply Z.div_pos; [exact H1 | apply Z.pow_pos_nonneg; lia]. }
    rewrite IH by exact H2. rewrite IH by exact H1. rewrite shr_1_m by exact Hm.
    rewrite !Z.div_div by (try apply Z.mul_pos_pos; try apply Z.pow_pos_nonneg; lia).
    f_equal. change (Zpos p~1) with (2 * Zpos p + 1).
    replace (2 * Zpos p + 1) with (1 + Zpos p + Zpos p) by lia.
    rewrite !Z.pow_add_r by lia. change (2 ^ 1) with 2. ring.
  - assert (0 <= shr_m (SpecFloat.iter_pos shr_1 p mrs)) as H2.
    { rewrite IH by exact Hm. apply Z.div_pos; [exact Hm | apply Z.pow_pos_nonneg; lia]. }
    rewrite IH by exact H2. rewrite IH by exact Hm.
    rewrite !Z.div_div by (try apply Z.pow_pos_nonneg; lia).
    f_equal. change (Zpos p~0) with (2 * Zpos p).
    replace (2 * Zpos p) with (Zpos p + Zpos p) by lia.
    rewrite !Z.pow_add_r by lia. reflexivity.
  - apply shr_1_m, Hm.
Qed.

Lemma round_nearest_even_cases (m : Z) (l : location) :
  round_nearest_even m l = m \/ round_nearest_even m l = m + 1.
Proof.
  destruct l as [ | []]; cbn; try (left; reflexivity); try (right; reflexivity).
  destruct (Z.even m); [left | right]; reflexivity.
Qed.

(** Rounding a positive mantissa of at least 53 digits whose value is in the
    normal range: the 53 leading digits [t] are kept, or [t + 1] is taken;
    the sum is a mantissa of 53 digits, or [2^53], which is [2^52] one
    exponent higher. *)
Lemma binary_round_aux_normal (sx : bool) (m e : Z) (l : location) :
  0 < m ->
  53 <= Zdigits2 m ->
  -1074 <= e + (Zdigits2 m - 53) <= 971 ->
  (m / 2 ^ (Zdigits2 m - 53) + 1 < 2 ^ 53 \/ e + (Zdigits2 m - 53) + 1 <= 971) ->
  exists (m' : positive) (c : Z),
    binary_round_aux prec emax sx m e l = S754_finite sx m' (e + (Zdigits2 m - 53) + c)
    /\ 2 ^ 52 <= m / 2 ^ (Zdigits2 m - 53) < 2 ^ 53
    /\ 2 ^ 52 <= Zpos m' < 2 ^ 53
    /\ (c = 0 \/ c = 1)
    /\ (Zpos m' * 2 ^ c = m / 2 ^ (Zdigits2 m - 53)
        \/ Zpos m' * 2 ^ c = m / 2 ^ (Zdigits2 m - 53) + 1)
    /\ (Zdigits2 m = 53 -> Zpos m' * 2 ^ c = round_nearest_even m l).
Proof.
  intros Hm Hdg Hrange Hcarry.
  set (n := Zdigits2 m - 53) in *. set (t := m / 2 ^ n) in *. set (e1 := e + n) in *.
  assert (0 <= n) as Hn by (subst n; lia).
  assert (2 ^ 52 <= t < 2 ^ 53) as Ht.
  { destruct m as [ | p | p]; try lia.
    pose proof (digits2_pos_bounds p) as [Hl Hh]. cbn [Zdigits2] in n, Hdg.
    assert (0 < 2 ^ n) by (apply Z.pow_pos_nonneg; lia).
    split.
    - apply Z.div_le_lower_bound; [assumption | ].
      rewrite <- Z.pow_add_r by lia.
      replace (n + 52) with (Zpos (digits2_pos p) - 1) by (subst n; lia). exact Hl.
    - apply Z.div_lt_upper_bound; [assumption | ].
      rewrite <- Z.pow_add_r by lia.
      replace (n + 53) with (Zpos (digits2_pos p)) by (subst n; lia). exact Hh. }
  assert (exists mrs, shr_fexp prec emax m e l = (mrs, e1)
                      /\ shr_m mrs = t
                      /\ (n = 0 -> loc_of_shr_record mrs = l)) as (mrs & Hshr & Hmrs & Hloc).
  { unfold shr_fexp.
    replace (fexp prec emax (Zdigits2 m + e) - e) with n
      by (unfold fexp, SpecFloat.emin, prec, emax; subst n e1; lia).
    destruct n as [ | p | p] eqn:Hp; [ | | lia].
    - eexists. split; [unfold shr; subst e1; rewrite Z.add_0_r; reflexivity | ].
      split; [ | intros _; apply loc_of_shr_record_of_loc].
      rewrite shr_m_of_loc. subst t. rewrite Z.div_1_r. reflexivity.
    - eexists. split; [reflexivity | ].
      split; [ | intros [=]].
      rewrite iter_shr_1_m by (rewrite shr_m_of_loc; lia).
      rewrite shr_m_of_loc. reflexivity. }
  unfold binary_round_aux. rewrite Hshr, Hmrs.
  set (m2 := round_nearest_even t (loc_of_shr_record mrs)).
  assert (m2 = t \/ m2 = t + 1) as Hm2 by apply round_nearest_even_cases.
  assert (Hround : Zdigits2 m = 53 -> m2 = round_nearest_even m l).
  { intros H53. assert (n = 0) as Hn0 by (subst n; lia).
    subst m2. rewrite (Hloc Hn0). subst t. rewrite Hn0, Z.div_1_r. reflexivity. }
  destruct (Z.lt_ge_cases m2 (2 ^ 53)) as [Hlt | Hge].
  - destruct m2 as [ | p2 | p2] eqn:Hp2; try lia.
    exists p2, 0. rewrite Z.add_0_r, Z.mul_1_r.
    assert (Zdigits2 (Zpos p2) = 53) as Hd2.
    { apply digits2_pos_unique. change (53 - 1) with 52. lia. }
    unfold shr_fexp. rewrite Hd2.
    replace (fexp prec emax (53 + e1) - e1) with 0
      by (unfold fexp, SpecFloat.emin, prec, emax; lia).
    cbn [shr shr_record_of_loc shr_m].
    replace (e1 <=? emax - prec) with true
      by (symmetry; apply Z.leb_le; unfold emax, prec; lia).
    split; [reflexivity | ]. split; [exact Ht | ]. split; [lia | ].
    split; [left; reflexivity | ]. split; [exact Hm2 | exact Hround].
  - assert (m2 = 2 ^ 53) as H53 by lia.
    assert (t + 1 = 2 ^ 53) as Ht1 by lia.
    exists (4503599627370496)%positive, 1.
    rewrite H53. change (2 ^ 53) with 9007199254740992.
    unfold shr_fexp. change (Zdigits2 9007199254740992) with 54.
    replace (fexp prec emax (54 + e1) - e1) with 1
      by (unfold fexp, SpecFloat.emin, prec, emax; lia).
    cbn [shr shr_record_of_loc shr_m SpecFloat.iter_pos shr_1 orb].
    replace (e1 + 1 <=? emax - prec) with true
      by (symmetry; apply Z.leb_le; unfold emax, prec; lia).
    split; [reflexivity | ]. split; [exact Ht | ].
    split; [cbn; lia | ]. split; [right; reflexivity | ].
    change (4503599627370496 * 2 ^ 1) with (2 ^ 53).
    split; [right; lia | ]. intros H. rewrite <- (Hround H). symmetry. exact H53.
Qed.

End Rounding.

Section Operations.

(** A positive normal number: a mantissa of 53 digits. *)
Lemma normal_shape (x : float) :
  classify x = PNormal ->
  exists m e, Prim2SF x = S754_finite false m e
              /\ 2 ^ 52 <= Zpos m < 2 ^ 53 /\ -1074 <= e <= 971.
Proof.
  rewrite classify_spec. pose proof (Prim2SF_valid x) as Hvalid.
  unfold SF64classify, SFclassify.
  destruct (Prim2SF x) as [[] | [] | | [] m e]; try discriminate;
    destruct (Z.eqb_spec (Z.pos (digits2_pos m)) prec) as [Hd | ]; try discriminate.
  intros _.
  exists m, e. split; [reflexivity | ].
  pose proof (digits2_pos_bounds m) as Hb. rewrite Hd in Hb. change (prec - 1) with 52 in Hb.
  change prec with 53 in Hb. split; [exact Hb | ].
  cbn in Hvalid. unfold bounded, canonical_mantissa in Hvalid.
  apply andb_true_iff in Hvalid as [Hc He].
  apply Z.eqb_eq in Hc. apply Z.leb_le in He. rewrite Hd in Hc.
  unfold fexp, SpecFloat.emin, prec, emax in *. lia.
Qed.

Lemma square_le_inv (a b : Z) : 0 <= a -> 0 <= b -> a * a < b * b -> a < b.
Proof. intros Ha Hb H. nia. Qed.

(** The square root of a positive normal number. *)
Lemma SFsqrt_normal (m : positive) (e : Z) :
  2 ^ 52 <= Zpos m < 2 ^ 53 -> -1074 <= e <= 971 ->
  exists (mn : positive) (q s : Z),
    SF64sqrt (S754_finite false m e) = S754_finite false mn (e / 2 - 26)
    /\ (s = 52 \/ s = 53) /\ e = 2 * (e / 2 - 26) + s
    /\ 2 ^ 52 <= q
    /\ q * q <= Zpos m * 2 ^ s < (q + 1) * (q + 1)
    /\ (Zpos mn = q \/ Zpos mn = q + 1)
    /\ 2 ^ 52 <= Zpos mn < 2 ^ 53.
Proof.
  intros Hm He. unfold SF64sqrt, SFsqrt, SFsqrt_core_binary.
  assert (Zdigits2 (Zpos m) = 53) as Hd by (apply digits2_pos_unique; exact Hm).
  rewrite Hd, !Z.div2_div.
  pose proof (Z.div_mod e 2 ltac:(lia)) as Hdiv.
  pose proof (Z.mod_pos_bound e 2 ltac:(lia)) as Hmod.
  replace ((53 + e + 1) / 2) with (e / 2 + 27)
    by (replace (53 + e + 1) with (e + 27 * 2) by lia; rewrite Z.div_add by lia; reflexivity).
  set (h := e / 2) in *.
  replace (Z.min (fexp prec emax (h + 27)) h) with (h - 26)
    by (unfold fexp, SpecFloat.emin, prec, emax; lia).
  set (s := e - 2 * (h - 26)).
  assert (s = 52 \/ s = 53) as Hs by (subst s; lia).
  assert (match s with
          | 0 => Zpos m
          | Zpos _ => Z.shiftl (Zpos m) s
          | Zneg _ => 0
          end = Zpos m * 2 ^ s) as ->.
  { destruct Hs as [-> | ->]; rewrite Z.shiftl_mul_pow2 by lia; reflexivity. }
  assert (2 ^ 104 <= Zpos m * 2 ^ s < 2 ^ 106) as Hm'.
  { destruct Hs as [-> | ->]; lia. }
  assert (Zpos m * 2 ^ s <= (2 ^ 53 - 1) * 2 ^ 53) as Htop.
  { destruct Hs as [-> | ->]; lia. }
  pose proof (Z.sqrtrem_spec (Zpos m * 2 ^ s) ltac:(lia)) as Hsqrt.
  destruct (Z.sqrtrem (Zpos m * 2 ^ s)) as [q r]. destruct Hsqrt as [Hq Hr].
  assert (0 <= q) as Hq0 by lia.
  assert (2 ^ 52 <= q) as Hqlow.
  { apply Z.lt_succ_r. apply square_le_inv; [lia | lia | ].
    change (2 ^ 52 * 2 ^ 52) with (2 ^ 104). nia. }
  assert (q < 2 ^ 53) as Hqhigh.
  { apply square_le_inv; [lia | lia | ]. change (2 ^ 53 * 2 ^ 53) with (2 ^ 106). nia. }
  set (l := if r =? 0 then loc_Exact else loc_Inexact (if r <=? q then Lt else Gt)).
  assert (Zdigits2 q = 53) as Hdq.
  { destruct q as [ | pq | pq]; try lia. apply digits2_pos_unique. lia. }
  destruct (binary_round_aux_normal false q (h - 26) l) as (mn & c & Hres & _ & Hmn & Hc & Hval & Hround);
    [lia | lia | rewrite Hdq; lia | right; rewrite Hdq; lia | ].
  rewrite Hdq in Hres, Hval. change (2 ^ (53 - 53)) with 1 in Hval. rewrite Z.div_1_r in Hval.
  specialize (Hround Hdq).
  assert (round_nearest_even q l < 2 ^ 53) as Hno.
  { destruct (round_nearest_even_cases q l) as [-> | Hup]; [exact Hqhigh | ].
    rewrite Hup. assert (q + 1 <> 2 ^ 53); [ | lia]. intros Hq1.
    subst l. destruct (r =? 0); [cbn in Hup; lia | ].
    destruct (Z.leb_spec r q) as [Hle | Hgt]; [cbn in Hup; lia | ].
    assert (q = 2 ^ 53 - 1) as -> by lia. lia. }
  assert (c = 0) as -> by (destruct Hc as [-> | ->]; [reflexivity | lia]).
  rewrite Z.mul_1_r in Hval. rewrite !Z.add_0_r in Hres. replace (h - 26 + (53 - 53)) with (h - 26) in Hres by lia.
  exists mn, q, s. split; [exact Hres | ].
  split; [exact Hs | ]. split; [subst s; lia | ]. split; [exact Hqlow | ].
  split; [lia | ]. split; [exact Hval | exact Hmn].
Qed.

(** The square of a float with a mantissa of 53 digits, away from underflow
    and overflow. *)
Lemma SFmul_square (mn : positive) (en : Z) :
  2 ^ 52 <= Zpos mn < 2 ^ 53 -> -563 <= en <= 459 ->
  exists (mp : positive) (t n c : Z),
    SF64mul (S754_finite false mn en) (S754_finite false mn en)
    = S754_finite false mp (2 * en + n + c)
    /\ (n = 52 \/ n = 53) /\ (c = 0 \/ c = 1)
    /\ 2 ^ 52 <= t
    /\ t * 2 ^ n <= Zpos mn * Zpos mn < (t + 1) * 2 ^ n
    /\ (Zpos mp * 2 ^ c = t \/ Zpos mp * 2 ^ c = t + 1)
    /\ 2 ^ 52 <= Zpos mp < 2 ^ 53.
Proof.
  intros Hm He. unfold SF64mul, SFmul. cbn [xorb].
  set (m := Zpos (mn * mn)).
  assert (m = Zpos mn * Zpos mn) as Hmm by (subst m; apply Pos2Z.inj_mul).
  assert (2 ^ 104 <= m <= (2 ^ 53 - 1) * (2 ^ 53 - 1)) as Hrange.
  { rewrite Hmm. change (2 ^ 104) with (2 ^ 52 * 2 ^ 52). nia. }
  assert (Zdigits2 m = 105 \/ Zdigits2 m = 106) as Hd.
  { subst m. cbn [Zdigits2]. destruct (Z.lt_ge_cases (Zpos (mn * mn)) (2 ^ 105)).
    - left. apply digits2_pos_unique. change (105 - 1) with 104. lia.
    - right. apply digits2_pos_unique. change (106 - 1) with 105. lia. }
  assert (0 < 2 ^ (Zdigits2 m - 53)) as Hpow by (apply Z.pow_pos_nonneg; lia).
  pose proof (Z.mul_div_le m _ Hpow) as Hlow.
  pose proof (Z.mul_succ_div_gt m _ Hpow) as Hhigh.
  destruct (binary_round_aux_normal false m (en + en) loc_Exact)
    as (mp & c & Hres & Ht & Hmp & Hc & Hval & _).
  - lia.
  - lia.
  - lia.
  - destruct Hd as [Hd | Hd]; [right; lia | left].
    rewrite Hd. change (106 - 53) with 53.
    assert (m / 2 ^ 53 < 2 ^ 53 - 1); [ | lia].
    apply Z.div_lt_upper_bound; lia.
  - exists mp, (m / 2 ^ (Zdigits2 m - 53)), (Zdigits2 m - 53), c.
    split; [rewrite Hres; f_equal; lia | ].
    split; [lia | ]. split; [exact Hc | ]. split; [lia | ].
    split; [rewrite <- Hmm; lia | ]. split; [exact Hval | exact Hmp].
Qed.

(** The quotient of two positive normal numbers of about the same size. *)
Lemma SFdiv_normal (md mp : positive) (ed ep : Z) :
  2 ^ 52 <= Zpos md < 2 ^ 53 -> 2 ^ 52 <= Zpos mp < 2 ^ 53 ->
  -2 <= ed - ep <= 2 ->
  exists (mr : positive) (t n c : Z),
    SF64div (S754_finite false md ed) (S754_finite false mp ep)
    = S754_finite false mr (ed - ep - 53 + n + c)
    /\ (n = 0 \/ n = 1) /\ (c = 0 \/ c = 1)
    /\ 2 ^ 52 <= t
    /\ t * 2 ^ n * Zpos mp <= Zpos md * 2 ^ 53 < (t + 1) * 2 ^ n * Zpos mp
    /\ (Zpos mr * 2 ^ c = t \/ Zpos mr * 2 ^ c = t + 1).
Proof.
  intros Hmd Hmp He. unfold SF64div, SFdiv, SFdiv_core_binary. cbn [xorb].
  assert (Zdigits2 (Zpos md) = 53) as -> by (apply digits2_pos_unique; exact Hmd).
  assert (Zdigits2 (Zpos mp) = 53) as -> by (apply digits2_pos_unique; exact Hmp).
  replace (Z.min (fexp prec emax (53 + ed - (53 + ep))) (ed - ep)) with (ed - ep - 53)
    by (unfold fexp, SpecFloat.emin, prec, emax; lia).
  replace (ed - ep - (ed - ep - 53)) with 53 by lia.
  rewrite Z.shiftl_mul_pow2 by lia.
  pose proof (Z_div_mod (Zpos md * 2 ^ 53) (Zpos mp) ltac:(lia)) as Hdiv.
  destruct (Z.div_eucl (Zpos md * 2 ^ 53) (Zpos mp)) as [q r]. destruct Hdiv as [Hq Hr].
  assert (2 ^ 105 <= Zpos md * 2 ^ 53 < 2 ^ 106) as Hm' by lia.
  assert (2 ^ 52 <= q) as Hqlow.
  { destruct (Z.lt_ge_cases q (2 ^ 52)) as [Hlt | Hge]; [exfalso | exact Hge].
    assert (Zpos mp * (q + 1) <= Zpos mp * 2 ^ 52) by (apply Z.mul_le_mono_nonneg_l; lia).
    assert (Zpos mp * 2 ^ 52 <= 2 ^ 53 * 2 ^ 52) by (apply Z.mul_le_mono_nonneg_r; lia).
    change (2 ^ 53 * 2 ^ 52) with (2 ^ 105) in *. lia. }
  assert (q < 2 ^ 54) as Hqhigh.
  { destruct (Z.lt_ge_cases q (2 ^ 54)) as [Hlt | Hge]; [exact Hlt | exfalso].
    assert (Zpos mp * 2 ^ 54 <= Zpos mp * q) by (apply Z.mul_le_mono_nonneg_l; lia).
    assert (2 ^ 52 * 2 ^ 54 <= Zpos mp * 2 ^ 54) by (apply Z.mul_le_mono_nonneg_r; lia).
    change (2 ^ 52 * 2 ^ 54) with (2 ^ 106) in *. lia. }
  assert (Zdigits2 q = 53 \/ Zdigits2 q = 54) as Hd.
  { destruct q as [ | pq | pq]; try lia. cbn [Zdigits2].
    destruct (Z.lt_ge_cases (Zpos pq) (2 ^ 53)).
    - left. apply digits2_pos_unique. change (53 - 1) with 52. lia.
    - right. apply digits2_pos_unique. change (54 - 1) with 53. lia. }
  assert (0 < 2 ^ (Zdigits2 q - 53)) as Hpow by (apply Z.pow_pos_nonneg; lia).
  pose proof (Z.mul_div_le q _ Hpow) as Hlow.
  pose proof (Z.mul_succ_div_gt q _ Hpow) as Hhigh.
  destruct (binary_round_aux_normal false q (ed - ep - 53)
              (new_location (Zpos mp) r))
    as (mr & c & Hres & Ht & _ & Hc & Hval & _); [lia | lia | lia | right; lia | ].
  set (n := Zdigits2 q - 53) in *. set (t := q / 2 ^ n) in *.
  exists mr, t, n, c.
  split; [exact Hres | ]. split; [subst n; lia | ]. split; [exact Hc | ].
  split; [lia | ]. split; [ | exact Hval].
  split.
  - assert (t * 2 ^ n * Zpos mp <= q * Zpos mp) by (apply Z.mul_le_mono_nonneg_r; lia). lia.
  - assert ((q + 1) * Zpos mp <= (t + 1) * 2 ^ n * Zpos mp)
      by (apply Z.mul_le_mono_nonneg_r; lia). lia.
Qed.

End Operations.

Section Accuracy.
Local Open Scope Q_scope.

Lemma pow2_pos (e : Z) : 0 < 2 ^ e.
Proof. apply Qpower_0_lt. reflexivity. Qed.

Lemma pow2_add (a b : Z) : 2 ^ (a + b) == 2 ^ a * 2 ^ b.
Proof. apply Qpower_plus. discriminate. Qed.

Lemma inject_pow2 (k : Z) : (0 <= k)%Z -> inject_Z (2 ^ k) == 2 ^ k.
Proof. intros Hk. rewrite Zpower_Qpower by exact Hk. reflexivity. Qed.

Lemma ulp_bracket (T B : Q) : inject_Z (2 ^ 52) <= T -> 0 < B -> B <= ulp * (T * B).
Proof.
  intros HT HB. change (inject_Z (2 ^ 52)) with (4503599627370496 # 1) in HT.
  change ulp with (1 # 4503599627370496).
  assert (0 <= (T - (4503599627370496 # 1)) * B) by (apply Qmult_le_0_compat; lra).
  lra.
Qed.

(** A value and its rounding between the same two neighbours. *)
Lemma bracket_within (T B Y X : Q) :
  inject_Z (2 ^ 52) <= T -> 0 < B ->
  T * B <= Y <= (T + 1) * B -> T * B <= X <= (T + 1) * B ->
  within ulp Y X.
Proof.
  intros HT HB HY HX. pose proof (ulp_bracket T B HT HB) as Hu.
  assert ((T + 1) * B == T * B + B) as Heq by ring.
  rewrite Heq in HY, HX.
  unfold within. revert Hu HY HX. change ulp with (1 # 4503599627370496).
  generalize (T * B). intros a Hu HY HX. lra.
Qed.

Lemma bracket_sqrt_within (T B Y X : Q) :
  inject_Z (2 ^ 52) <= T -> 0 < B ->
  T * B <= Y <= (T + 1) * B ->
  (T * B) * (T * B) <= X <= ((T + 1) * B) * ((T + 1) * B) ->
  sqrt_within ulp Y X.
Proof.
  intros HT HB HY HX. pose proof (ulp_bracket T B HT HB) as Hu.
  assert (0 < T * B) as Ha.
  { apply Qmult_lt_0_compat; [ | exact HB].
    change (inject_Z (2 ^ 52)) with (4503599627370496 # 1) in HT. lra. }
  unfold sqrt_within. revert Hu.
  assert (0 < ulp /\ ulp < 1) as Hulp by (split; reflexivity).
  revert Hulp. generalize ulp. intros u Hulp Hu.
  assert ((T + 1) * B == T * B + B) as Heq by ring.
  rewrite Heq in HY, HX.
  revert HY HX Hu Ha. generalize (T * B). intros a HY HX Hu Ha.
  assert ((1 - u) * (a + B) <= a) as H1 by nra.
  assert (a + B <= (1 + u) * a) as H2 by nra.
  assert (0 <= (1 - u) * (a + B)) as H3 by (apply Qmult_le_0_compat; lra).
  split.
  - assert (0 <= (1 - u) * (1 - u) * ((a + B) * (a + B) - X)) as P1
      by (apply Qmult_le_0_compat; [apply Qmult_le_0_compat | ]; lra).
    assert (0 <= (a - (1 - u) * (a + B)) * (a + (1 - u) * (a + B))) as P2
      by (apply Qmult_le_0_compat; lra).
    assert (0 <= (Y - a) * (Y + a)) as P3 by (apply Qmult_le_0_compat; lra).
    nra.
  - assert (0 <= (a + B - Y) * (a + B + Y)) as P4 by (apply Qmult_le_0_compat; lra).
    assert (0 <= ((1 + u) * a - (a + B)) * ((1 + u) * a + (a + B))) as P5
      by (apply Qmult_le_0_compat; lra).
    assert (0 <= (1 + u) * (1 + u) * (X - a * a)) as P6
      by (apply Qmult_le_0_compat; [apply Qmult_le_0_compat | ]; lra).
    nra.
Qed.

End Accuracy.

Section Nearest.

(** The record reached from the integer [N] after [k] shifts: the quotient
    by [2^k], whether the remainder is at least the half of [2^k], and
    whether it is neither nothing nor that half. *)
Definition located (N k : Z) (mrs : shr_record) : Prop :=
  shr_m mrs = N / 2 ^ k
  /\ shr_r mrs = (2 ^ k <=? 2 * (N mod 2 ^ k))
  /\ shr_s mrs = negb (N mod 2 ^ k =? 0) && negb (2 * (N mod 2 ^ k) =? 2 ^ k).

Lemma located_exact (N : Z) : located N 0 (shr_record_of_loc N loc_Exact).
Proof.
  unfold located. cbn [shr_record_of_loc shr_m shr_r shr_s].
  change (2 ^ 0) with 1. rewrite Z.div_1_r, Z.mod_1_r. repeat split.
Qed.

Lemma shr_1_bits (mrs : shr_record) :
  0 <= shr_m mrs ->
  shr_m (shr_1 mrs) = shr_m mrs / 2
  /\ shr_r (shr_1 mrs) = Z.odd (shr_m mrs)
  /\ shr_s (shr_1 mrs) = shr_r mrs || shr_s mrs.
Proof.
  intros Hm. split; [apply shr_1_m, Hm | ].
  destruct mrs as [m r s]. cbn [shr_m] in Hm. cbn [shr_m shr_r shr_s].
  destruct m as [ | [p | p | ] | p]; try (split; reflexivity). lia.
Qed.

Lemma located_shr_1 (N k : Z) (mrs : shr_record) :
  0 <= N -> 0 <= k -> located N k mrs -> located N (k + 1) (shr_1 mrs).
Proof.
  intros HN Hk (Hm & Hr & Hs).
  assert (0 < 2 ^ k) as Hpow by (apply Z.pow_pos_nonneg; lia).
  assert (0 <= shr_m mrs) as Hm0 by (rewrite Hm; apply Z.div_pos; lia).
  destruct (shr_1_bits mrs Hm0) as (Hm1 & Hr1 & Hs1).
  pose proof (Z.mod_pos_bound N (2 ^ k) Hpow) as Hrem.
  assert (2 ^ (k + 1) = 2 ^ k * 2) as Hk1 by (rewrite Z.pow_add_r by lia; reflexivity).
  assert (N mod 2 ^ (k + 1) = N mod 2 ^ k + 2 ^ k * ((N / 2 ^ k) mod 2)) as Hmod.
  { rewrite Hk1. apply Z.rem_mul_r; lia. }
  pose proof (Z.mod_pos_bound (N / 2 ^ k) 2 ltac:(lia)) as Hbit.
  assert (Z.odd (shr_m mrs) = ((N / 2 ^ k) mod 2 =? 1)) as Hodd.
  { rewrite Hm, Zmod_odd. destruct (Z.odd (N / 2 ^ k)); reflexivity. }
  unfold located. rewrite Hm1, Hr1, Hs1, Hodd, Hm, Hr, Hs, Hmod.
  split; [rewrite Hk1; rewrite Z.div_div by lia; reflexivity | ].
  rewrite Hk1.
  set (rem := N mod 2 ^ k) in *. set (b := (N / 2 ^ k) mod 2) in *.
  clearbody rem b. clear - Hpow Hrem Hbit. revert Hpow Hrem.
  generalize (2 ^ k). intros K Hpow Hrem.
  assert (b = 0 \/ b = 1) as [-> | ->] by lia.
  - rewrite Z.mul_0_r, Z.add_0_r. split.
    + destruct (Z.leb_spec (K * 2) (2 * rem)); [lia | reflexivity].
    + destruct (Z.leb_spec K (2 * rem)), (Z.eqb_spec rem 0), (Z.eqb_spec (2 * rem) K),
        (Z.eqb_spec (2 * rem) (K * 2)); try reflexivity; lia.
  - rewrite Z.mul_1_r. split.
    + destruct (Z.leb_spec (K * 2) (2 * (rem + K))); [reflexivity | lia].
    + destruct (Z.leb_spec K (2 * rem)), (Z.eqb_spec rem 0), (Z.eqb_spec (2 * rem) K),
        (Z.eqb_spec (rem + K) 0), (Z.eqb_spec (2 * (rem + K)) (K * 2));
        try reflexivity; lia.
Qed.

Lemma located_iter (p : positive) (N k : Z) (mrs : shr_record) :
  0 <= N -> 0 <= k -> located N k mrs ->
  located N (k + Zpos p) (SpecFloat.iter_pos shr_1 p mrs).
Proof.
  intros HN. revert k mrs. induction p as [p IH | p IH | ]; intros k mrs Hk H;
    cbn [SpecFloat.iter_pos].
  - replace (k + Zpos p~1) with (k + 1 + Zpos p + Zpos p) by lia.
    apply IH; [lia | ]. apply IH; [lia | ]. apply located_shr_1; assumption.
  - replace (k + Zpos p~0) with (k + Zpos p + Zpos p) by lia.
    apply IH; [lia | ]. apply IH; assumption.
  - apply located_shr_1; assumption.
Qed.

(** Shifting [N] by [k] digits and rounding gives [target] when [N] is
    less than half of [2^k] away from [target * 2^k]. *)
Lemma round_shift_nearest (N target : Z) (p : positive) :
  0 <= N -> 0 <= target ->
  2 * target * 2 ^ Zpos p - 2 ^ Zpos p < 2 * N < 2 * target * 2 ^ Zpos p + 2 ^ Zpos p ->
  let mrs := SpecFloat.iter_pos shr_1 p (shr_record_of_loc N loc_Exact) in
  round_nearest_even (shr_m mrs) (loc_of_shr_record mrs) = target.
Proof.
  intros HN Ht Hnear mrs.
  destruct (located_iter p N 0 _ HN ltac:(lia) (located_exact N)) as (Hm & Hr & Hs).
  fold mrs in Hm, Hr, Hs. rewrite Z.add_0_l in Hm, Hr, Hs.
  assert (0 < 2 ^ Zpos p) as Hpow by (apply Z.pow_pos_nonneg; lia).
  pose proof (Z.div_mod N (2 ^ Zpos p) ltac:(lia)) as Hdiv.
  pose proof (Z.mod_pos_bound N (2 ^ Zpos p) Hpow) as Hrem.
  destruct mrs as [m r s]. cbn [shr_m shr_r shr_s] in *.
  set (K := 2 ^ Zpos p) in *. set (rem := N mod K) in *. set (t := N / K) in *.
  clearbody rem t. clearbody K. subst m r s.
  destruct (Z.le_gt_cases (target * K) N) as [Hge | Hlt].
  - assert (t = target) as ->.
    { destruct (Z.lt_trichotomy t target) as [H | [H | H]]; [exfalso | exact H | exfalso].
      - assert (K * t <= K * (target - 1)) by (apply Z.mul_le_mono_nonneg_l; lia). lia.
      - assert (K * (target + 1) <= K * t) by (apply Z.mul_le_mono_nonneg_l; lia). lia. }
    destruct (Z.leb_spec K (2 * rem)); [lia | ].
    cbn. destruct (negb (rem =? 0) && negb (2 * rem =? K)); reflexivity.
  - assert (t = target - 1) as ->.
    { destruct (Z.lt_trichotomy t (target - 1)) as [H | [H | H]];
        [exfalso | exact H | exfalso].
      - assert (K * t <= K * (target - 2)) by (apply Z.mul_le_mono_nonneg_l; lia). lia.
      - assert (K * target <= K * t) by (apply Z.mul_le_mono_nonneg_l; lia). lia. }
    destruct (Z.leb_spec K (2 * rem)); [ | lia].
    destruct (Z.eqb_spec rem 0); [lia | ]. destruct (Z.eqb_spec (2 * rem) K); [lia | ].
    cbn. lia.
Qed.

End Nearest.

Section Subnormal.

(** A positive subnormal number: fewer than 53 digits at the least
    exponent. *)
Lemma subnormal_shape (x : float) :
  classify x = PSubn ->
  exists m, Prim2SF x = S754_finite false m (-1074) /\ Zpos m < 2 ^ 52.
Proof.
  rewrite classify_spec. pose proof (Prim2SF_valid x) as Hvalid.
  unfold SF64classify, SFclassify.
  destruct (Prim2SF x) as [[] | [] | | [] m e]; try discriminate;
    destruct (Z.eqb_spec (Z.pos (digits2_pos m)) prec) as [ | Hd]; try discriminate.
  intros _.
  cbn in Hvalid. unfold bounded, canonical_mantissa in Hvalid.
  apply andb_true_iff in Hvalid as [Hc He].
  apply Z.eqb_eq in Hc. apply Z.leb_le in He.
  pose proof (digits2_pos_bounds m) as [_ Hb].
  unfold fexp, SpecFloat.emin, prec, emax in *.
  assert (e = -1074) as -> by lia.
  exists m. split; [reflexivity | ].
  assert (2 ^ Zpos (digits2_pos m) <= 2 ^ 52) by (apply Z.pow_le_mono_r; lia). lia.
Qed.

(** The rounding of a square root: down when the remainder is at most the
    root, up otherwise; the mantissa never reaches [2^53]. *)
Lemma sqrt_round (q r e' : Z) :
  2 ^ 52 <= q < 2 ^ 53 -> 0 <= r <= 2 * q ->
  q * q + r <= (2 ^ 53 - 1) * 2 ^ 53 ->
  -1074 <= e' <= 970 ->
  exists mn : positive,
    binary_round_aux prec emax false q e'
      (if r =? 0 then loc_Exact else loc_Inexact (if r <=? q then Lt else Gt))
    = S754_finite false mn e'
    /\ Zpos mn = (if r <=? q then q else q + 1)
    /\ 2 ^ 52 <= Zpos mn < 2 ^ 53.
Proof.
  intros Hq Hr Htop He.
  set (l := if r =? 0 then loc_Exact else loc_Inexact (if r <=? q then Lt else Gt)).
  assert (Zdigits2 q = 53) as Hdq.
  { destruct q as [ | pq | pq]; try lia. apply digits2_pos_unique. lia. }
  destruct (binary_round_aux_normal false q e' l)
    as (mn & c & Hres & _ & Hmn & Hc & _ & Hround);
    [lia | lia | rewrite Hdq; lia | right; rewrite Hdq; lia | ].
  rewrite Hdq in Hres. specialize (Hround Hdq).
  assert (round_nearest_even q l = if r <=? q then q else q + 1) as Hl.
  { subst l. destruct (Z.eqb_spec r 0) as [-> | Hr0].
    - cbn. destruct (Z.leb_spec 0 q); [reflexivity | lia].
    - destruct (r <=? q); reflexivity. }
  assert (round_nearest_even q l < 2 ^ 53) as Hno.
  { rewrite Hl. destruct (Z.leb_spec r q); nia. }
  assert (c = 0) as -> by (destruct Hc as [-> | ->]; [reflexivity | lia]).
  rewrite Z.mul_1_r in Hround.
  replace (e' + (53 - 53) + 0) with e' in Hres by lia.
  exists mn. split; [exact Hres | ]. split; [rewrite Hround; exact Hl | exact Hmn].
Qed.

(** The square root of a positive subnormal number is a normal number whose
    square is less than half a unit in the last place of the subnormal
    number away from it. *)
Lemma SFsqrt_subnormal (md : positive) :
  Zpos md < 2 ^ 52 ->
  exists (mn : positive) (e' s : Z),
    SF64sqrt (S754_finite false md (-1074)) = S754_finite false mn e'
    /\ 2 ^ 52 <= Zpos mn < 2 ^ 53
    /\ 54 <= s /\ e' + e' + s = -1074
    /\ 2 * Zpos md * 2 ^ s - 2 ^ s < 2 * (Zpos mn * Zpos mn)
       < 2 * Zpos md * 2 ^ s + 2 ^ s.
Proof.
  intros Hmd. unfold SF64sqrt, SFsqrt, SFsqrt_core_binary. cbn [Zdigits2].
  pose proof (digits2_pos_bounds md) as [Hlow Hhigh].
  set (k := Zpos (digits2_pos md)) in *.
  assert (1 <= k <= 52) as Hk.
  { split; [subst k; lia | ].
    destruct (Z.le_gt_cases k 52) as [H | H]; [exact H | exfalso].
    assert (2 ^ 52 <= 2 ^ (k - 1)) by (apply Z.pow_le_mono_r; lia). lia. }
  rewrite !Z.div2_div. change (-1074 / 2) with (-537).
  pose proof (Z.div_mod (k + -1074 + 1) 2 ltac:(lia)) as Hdiv.
  pose proof (Z.mod_pos_bound (k + -1074 + 1) 2 ltac:(lia)) as Hmod.
  set (h := (k + -1074 + 1) / 2) in *.
  replace (Z.min (fexp prec emax h) (-537)) with (h - 53)
    by (unfold fexp, SpecFloat.emin, prec, emax; lia).
  set (s := -1074 - 2 * (h - 53)).
  assert (54 <= s) as Hs by (subst s; lia).
  assert (k + s = 105 \/ k + s = 106) as Hks by (subst s; lia).
  assert (match s with
          | 0 => Zpos md
          | Zpos _ => Z.shiftl (Zpos md) s
          | Zneg _ => 0
          end = Zpos md * 2 ^ s) as ->.
  { destruct s; try lia. rewrite Z.shiftl_mul_pow2 by lia. reflexivity. }
  assert (0 < 2 ^ s) as Hpow by (apply Z.pow_pos_nonneg; lia).
  assert (2 ^ 54 <= 2 ^ s) as Hpow54 by (apply Z.pow_le_mono_r; lia).
  assert (2 ^ 104 <= Zpos md * 2 ^ s) as Hm'low.
  { assert (2 ^ 104 <= 2 ^ (k - 1 + s)) by (apply Z.pow_le_mono_r; lia).
    rewrite Z.pow_add_r in * by lia.
    assert (2 ^ (k - 1) * 2 ^ s <= Zpos md * 2 ^ s)
      by (apply Z.mul_le_mono_nonneg_r; lia). lia. }
  assert (Zpos md * 2 ^ s <= 2 ^ 106 - 2 ^ 54) as Hm'high.
  { assert (2 ^ (k + s) <= 2 ^ 106) by (apply Z.pow_le_mono_r; lia).
    rewrite Z.pow_add_r in * by lia.
    assert (Zpos md * 2 ^ s <= (2 ^ k - 1) * 2 ^ s)
      by (apply Z.mul_le_mono_nonneg_r; lia). lia. }
  pose proof (Z.sqrtrem_spec (Zpos md * 2 ^ s) ltac:(lia)) as Hsqrt.
  destruct (Z.sqrtrem (Zpos md * 2 ^ s)) as [q r]. destruct Hsqrt as [Hq Hr].
  assert (0 <= q) as Hq0 by lia.
  assert (2 ^ 52 <= q) as Hqlow.
  { apply Z.lt_succ_r. apply square_le_inv; [lia | lia | ].
    change (2 ^ 52 * 2 ^ 52) with (2 ^ 104). nia. }
  assert (q < 2 ^ 53) as Hqhigh.
  { apply square_le_inv; [lia | lia | ]. change (2 ^ 53 * 2 ^ 53) with (2 ^ 106). nia. }
  destruct (sqrt_round q r (h - 53)) as (mn & Hres & Hmn & Hmnr); [lia | lia | lia | lia | ].
  exists mn, (h - 53), s.
  split; [exact Hres | ]. split; [exact Hmnr | ]. split; [exact Hs | ].
  split; [subst s; lia | ].
  rewrite Hmn. replace (2 * Zpos md * 2 ^ s) with (2 * (Zpos md * 2 ^ s)) by ring.
  rewrite Hq. destruct (Z.leb_spec r q); nia.
Qed.

(** The square of that square root rounds back to the subnormal number. *)
Lemma SFmul_back (mn md : positive) (e' s : Z) :
  2 ^ 52 <= Zpos mn < 2 ^ 53 -> Zpos md < 2 ^ 52 ->
  54 <= s -> e' + e' + s = -1074 ->
  2 * Zpos md * 2 ^ s - 2 ^ s < 2 * (Zpos mn * Zpos mn) < 2 * Zpos md * 2 ^ s + 2 ^ s ->
  SF64mul (S754_finite false mn e') (S754_finite false mn e') = S754_finite false md (-1074).
Proof.
  intros Hmn Hmd Hs He Hnear. unfold SF64mul, SFmul. cbn [xorb].
  unfold binary_round_aux, shr_fexp. cbn [Zdigits2].
  pose proof (digits2_pos_bounds (mn * mn)) as [Hlow _].
  rewrite Pos2Z.inj_mul in Hlow.
  assert (Zpos (digits2_pos (mn * mn)) <= 106) as Hdg.
  { destruct (Z.le_gt_cases (Zpos (digits2_pos (mn * mn))) 106) as [H | H];
      [exact H | exfalso].
    assert (2 ^ 106 <= 2 ^ (Zpos (digits2_pos (mn * mn)) - 1))
      by (apply Z.pow_le_mono_r; lia).
    change (2 ^ 106) with (2 ^ 53 * 2 ^ 53) in *. nia. }
  replace (fexp prec emax (Zpos (digits2_pos (mn * mn)) + (e' + e')) - (e' + e')) with s
    by (unfold fexp, SpecFloat.emin, prec, emax; lia).
  destruct s as [ | ps | ps]; try lia. cbn [shr].
  rewrite (round_shift_nearest (Zpos (mn * mn)) (Zpos md) ps)
    by (rewrite ?Pos2Z.inj_mul; lia).
  pose proof (digits2_pos_bounds md) as [Hlowd _].
  assert (Zpos (digits2_pos md) <= 52) as Hk.
  { destruct (Z.le_gt_cases (Zpos (digits2_pos md)) 52) as [H | H]; [exact H | exfalso].
    assert (2 ^ 52 <= 2 ^ (Zpos (digits2_pos md) - 1)) by (apply Z.pow_le_mono_r; lia).
    lia. }
  cbn [Zdigits2].
  replace (fexp prec emax (Zpos (digits2_pos md) + (e' + e' + Zpos ps)) - (e' + e' + Zpos ps))
    with 0 by (unfold fexp, SpecFloat.emin, prec, emax; lia).
  cbn [shr shr_record_of_loc shr_m]. rewrite He. reflexivity.
Qed.

(** A positive number divided by itself: one, or the float after it. *)
Lemma SFdiv_same (m : positive) (e : Z) :
  exists mr : positive,
    SF64div (S754_finite false m e) (S754_finite false m e) = S754_finite false mr (-52)
    /\ (Zpos mr = 2 ^ 52 \/ Zpos mr = 2 ^ 52 + 1).
Proof.
  unfold SF64div, SFdiv, SFdiv_core_binary. cbn [xorb].
  replace (Zdigits2 (Zpos m) + e - (Zdigits2 (Zpos m) + e)) with 0 by lia.
  rewrite Z.sub_diag. change (Z.min (fexp prec emax 0) 0) with (-53).
  change (0 - -53) with 53. rewrite Z.shiftl_mul_pow2 by lia.
  pose proof (Z_div_mod (Zpos m * 2 ^ 53) (Zpos m) ltac:(lia)) as Hdiv.
  destruct (Z.div_eucl (Zpos m * 2 ^ 53) (Zpos m)) as [q r]. destruct Hdiv as [Hq Hr].
  assert (q = 2 ^ 53) as ->.
  { destruct (Z.lt_trichotomy q (2 ^ 53)) as [H | [H | H]]; [exfalso | exact H | exfalso].
    - assert (Zpos m * (q + 1) <= Zpos m * 2 ^ 53) by (apply Z.mul_le_mono_nonneg_l; lia).
      lia.
    - assert (Zpos m * (2 ^ 53 + 1) <= Zpos m * q) by (apply Z.mul_le_mono_nonneg_l; lia).
      lia. }
  destruct (binary_round_aux_normal false (2 ^ 53) (-53) (new_location (Zpos m) r))
    as (mr & c & Hres & _ & Hmr & Hc & Hval & _).
  - reflexivity.
  - change (Zdigits2 (2 ^ 53)) with 54. lia.
  - change (Zdigits2 (2 ^ 53)) with 54. lia.
  - right. change (Zdigits2 (2 ^ 53)) with 54. lia.
  - change (Zdigits2 (2 ^ 53)) with 54 in Hres, Hval.
    change (2 ^ 53 / 2 ^ (54 - 53)) with (2 ^ 52) in Hval.
    assert (c = 0) as -> by (destruct Hc as [-> | ->]; [reflexivity | ]; change (2 ^ 1) with 2 in Hval; lia).
    rewrite Z.mul_1_r in Hval. exists mr. split; [exact Hres | exact Hval].
Qed.

End Subnormal.

(* ===================================================================== *)
(** * Cosine similarity                                                 *)
(* ===================================================================== *)

Section Similarity.

Lemma Prim2SF_zero : Prim2SF 0%float = S754_zero false.
Proof. reflexivity. Qed.

Lemma eqb_zero_spec (x : float) : PrimFloat.eqb x 0%float = true <-> is_zero_float x.
Proof.
  rewrite FloatAxioms.eqb_spec, Prim2SF_zero. unfold SFeqb, is_zero_float.
  destruct (Prim2SF x) as [s | s | | s m e]; cbn.
  - split; [eauto | reflexivity].
  - destruct s; split; try discriminate; intros [s' [=]].
  - split; try discriminate; intros [s' [=]].
  - destruct s; split; try discriminate; intros [s' [=]].
Qed.

Lemma is_zero_mul (x y : float) :
  is_zero_float x -> is_zero_float y -> is_zero_float (x * y).
Proof.
  intros [sx Hx] [sy Hy]. unfold is_zero_float.
  rewrite FloatAxioms.mul_spec, Hx, Hy. cbn. eauto.
Qed.

Lemma is_zero_add (x y : float) :
  is_zero_float x -> is_zero_float y -> is_zero_float (x + y).
Proof.
  intros [sx Hx] [sy Hy]. unfold is_zero_float.
  rewrite FloatAxioms.add_spec, Hx, Hy. destruct sx, sy; cbn; eauto.
Qed.

Lemma is_zero_sqrt (x : float) : is_zero_float x -> is_zero_float (PrimFloat.sqrt x).
Proof.
  intros [sx Hx]. unfold is_zero_float.
  rewrite FloatAxioms.sqrt_spec, Hx. cbn. eauto.
Qed.

Lemma dot_from_zero (v : PDFService.vector) :
  forall acc, is_zero_float acc -> Forall is_zero_float v ->
              is_zero_float (dot_from acc v v).
Proof.
  induction v as [ | x v IH]; intros acc Hacc Hv; [exact Hacc | ].
  apply Forall_cons in Hv as [Hx Hv]. cbn.
  apply IH; [ | exact Hv]. apply is_zero_add; [exact Hacc | apply is_zero_mul; assumption].
Qed.

(** The norm of a vector of zeros compares equal to zero. *)
Lemma np_norm_zero_vector (v : PDFService.vector) :
  Forall (fun x => PrimFloat.eqb x 0%float = true) v ->
  PrimFloat.eqb (np_norm v) 0%float = true.
Proof.
  intros Hv. apply eqb_zero_spec, is_zero_sqrt, dot_from_zero.
  - exists false. exact Prim2SF_zero.
  - eapply Forall_impl; [exact Hv | ]. intros x. apply eqb_zero_spec.
Qed.

Lemma dot_from_comm (v1 v2 : PDFService.vector) :
  forall acc, dot_from acc v1 v2 = dot_from acc v2 v1.
Proof.
  revert v2. induction v1 as [ | x v1 IH]; intros [ | y v2] acc; try reflexivity.
  cbn. rewrite (mul_comm x y). apply IH.
Qed.

(** The two paths of [_cosine_similarity] for vectors of one length. *)
Lemma _cosine_similarity_aligned (v1 v2 : PDFService.vector) :
  length v1 = length v2 ->
  _cosine_similarity v1 v2 =
    if PrimFloat.eqb (np_norm v1) 0%float || PrimFloat.eqb (np_norm v2) 0%float
    then 0%float
    else (dot_from 0%float v1 v2 / (np_norm v1 * np_norm v2))%float.
Proof.
  intros Hlen. unfold _cosine_similarity, np_dot.
  rewrite Hlen, Nat.eqb_refl. cbn.
  destruct (_ || _); reflexivity.
Qed.

Lemma _cosine_similarity_misaligned (v1 v2 : PDFService.vector) :
  length v1 <> length v2 -> _cosine_similarity v1 v2 = 0%float.
Proof.
  intros Hlen. unfold _cosine_similarity, np_dot.
  apply Nat.eqb_neq in Hlen. rewrite Hlen. reflexivity.
Qed.

Lemma _cosine_similarity_comm (v1 v2 : PDFService.vector) :
  _cosine_similarity v1 v2 = _cosine_similarity v2 v1.
Proof.
  destruct (decide (length v1 = length v2)) as [Hlen | Hlen].
  - rewrite (_cosine_similarity_aligned v1 v2 Hlen).
    rewrite (_cosine_similarity_aligned v2 v1 (eq_sym Hlen)).
    rewrite (orb_comm (PrimFloat.eqb (np_norm v2) 0)).
    rewrite (dot_from_comm v2 v1), (mul_comm (np_norm v2)). reflexivity.
  - rewrite !_cosine_similarity_misaligned; [reflexivity | congruence | exact Hlen].
Qed.

Lemma _cosine_similarity_zero_norm (v1 v2 : PDFService.vector) :
  PrimFloat.eqb (np_norm v1) 0%float = true \/ PrimFloat.eqb (np_norm v2) 0%float = true ->
  _cosine_similarity v1 v2 = 0%float.
Proof.
  intros Hzero. destruct (decide (length v1 = length v2)) as [Hlen | Hlen].
  - rewrite (_cosine_similarity_aligned v1 v2 Hlen).
    destruct Hzero as [-> | ->]; rewrite ?orb_true_r; reflexivity.
  - apply _cosine_similarity_misaligned, Hlen.
Qed.

Lemma F2Q_nonzero (x : float) (q : Q) :
  F2Q x = Some q -> ~ (q == 0)%Q -> PrimFloat.eqb x 0%float = false.
Proof.
  unfold F2Q. rewrite FloatAxioms.eqb_spec, Prim2SF_zero. unfold SFeqb.
  destruct (Prim2SF x) as [s | s | | s m e]; try discriminate.
  - intros [= <-] H. exfalso. apply H. reflexivity.
  - intros _ _. destruct s; reflexivity.
Qed.

Section SelfSimilarity.
Local Open Scope Q_scope.

Lemma F2Q_finite (x : float) (m : positive) (e : Z) :
  Prim2SF x = S754_finite false m e -> F2Q x = Some (inject_Z (Zpos m) * 2 ^ e).
Proof. unfold F2Q. intros ->. reflexivity. Qed.

Lemma scale_le (a b : Z) (B : Q) : (a <= b)%Z -> 0 < B -> inject_Z a * B <= inject_Z b * B.
Proof.
  intros Hab HB. apply Qmult_le_compat_r; [ | apply Qlt_le_weak, HB].
  rewrite <- Zle_Qle. exact Hab.
Qed.

(** A mantissa that was carried to the next exponent has the same value. *)
Lemma carried (m : positive) (E c : Z) :
  (c = 0 \/ c = 1)%Z -> inject_Z (Zpos m) * 2 ^ (E + c) == inject_Z (Zpos m * 2 ^ c) * 2 ^ E.
Proof.
  intros [-> | ->].
  - rewrite Z.add_0_r. change (2 ^ 0)%Z with 1%Z. rewrite Z.mul_1_r. reflexivity.
  - rewrite pow2_add. change (2 ^ 1)%Z with 2%Z. rewrite inject_Z_mult.
    change (2 ^ 1) with 2. change (inject_Z 2) with 2. ring.
Qed.

(** Three roundings, each within one unit in the last place, leave the
    quotient within eight of them of one. *)
Lemma quotient_close (qd qn qp qr : Q) :
  0 < qd ->
  sqrt_within ulp qn qd ->
  within ulp qp (qn * qn) ->
  within ulp (qr * qp) qd ->
  ~ qn == 0 /\ 1 - 8 * ulp <= qr /\ qr <= 1 + 8 * ulp.
Proof.
  unfold sqrt_within, within. intros Hd [H1 H2] [H3 H4] [H5 H6].
  assert (0 < ulp /\ ulp < 1 # 1000)%Q as Hu by (split; reflexivity).
  revert Hu H1 H2 H3 H4 H5 H6. generalize ulp. intros u Hu H1 H2 H3 H4 H5 H6.
  assert (0 < qn * qn)%Q as Hn by nra.
  assert (0 < qp)%Q as Hp by nra.
  assert ((1 - u) * (1 - u) * (1 - u) * qd <= qp)%Q as Hlow by nra.
  assert (qp <= (1 + u) * (1 + u) * (1 + u) * qd)%Q as Hhigh by nra.
  split; [ | split].
  - intros Hz. rewrite Hz in Hn. revert Hn. apply Qlt_irrefl.
  - destruct (Qlt_le_dec qr (1 - 8 * u)) as [Hlt | Hge]; [ | exact Hge].
    exfalso.
    assert (qr * qp < (1 - 8 * u) * qp)%Q by nra.
    assert ((1 - 8 * u) * ((1 + u) * (1 + u) * (1 + u)) <= 1 - u)%Q by nra.
    nra.
  - destruct (Qlt_le_dec (1 + 8 * u) qr) as [Hlt | Hge]; [ | exact Hge].
    exfalso.
    assert ((1 + 8 * u) * qp < qr * qp)%Q by nra.
    assert (1 + u <= (1 + 8 * u) * ((1 - u) * (1 - u) * (1 - u)))%Q by nra.
    nra.
Qed.

(** The quotient of a positive normal number by the square of its square
    root, as the three operations of binary64 compute it, is within eight
    units in the last place of one; the square root is not zero. *)
Lemma self_ratio_close (d : float) :
  classify d = PNormal ->
  PrimFloat.eqb (PrimFloat.sqrt d) 0%float = false
  /\ close_to_one (d / (PrimFloat.sqrt d * PrimFloat.sqrt d))%float.
Proof.
  intros Hnormal.
  destruct (normal_shape d Hnormal) as (m & e & Hd & Hm & He).
  destruct (SFsqrt_normal m e Hm He) as (mn & q & s & Hsqrt & Hs & Hes & Hq & Hqq & Hmn & Hmnr).
  set (en := (e / 2 - 26)%Z) in *.
  assert (Prim2SF (PrimFloat.sqrt d) = S754_finite false mn en) as Hn
    by (rewrite sqrt_spec, Hd; exact Hsqrt).
  destruct (SFmul_square mn en Hmnr ltac:(lia))
    as (mp & t & n & c & Hmul & Hnn & Hc & Ht & Htt & Hmp & Hmpr).
  assert (Prim2SF (PrimFloat.sqrt d * PrimFloat.sqrt d) = S754_finite false mp (2 * en + n + c))
    as Hp by (rewrite mul_spec, Hn; exact Hmul).
  destruct (SFdiv_normal m mp e (2 * en + n + c) Hm Hmpr ltac:(lia))
    as (mr & t' & n' & c' & Hdiv & Hnn' & Hc' & Ht' & Htt' & Hmr).
  assert (Prim2SF (d / (PrimFloat.sqrt d * PrimFloat.sqrt d))
          = S754_finite false mr (e - (2 * en + n + c) - 53 + n' + c')) as Hr
    by (rewrite div_spec, Hd, Hp; exact Hdiv).
  set (X := inject_Z (Zpos m) * 2 ^ e).
  set (Y := inject_Z (Zpos mn) * 2 ^ en).
  set (P := inject_Z (Zpos mp) * 2 ^ (2 * en + n + c)).
  set (R := inject_Z (Zpos mr) * 2 ^ (e - (2 * en + n + c) - 53 + n' + c')).
  assert (0 < X) as HX.
  { apply Qmult_lt_0_compat; [reflexivity | apply pow2_pos]. }
  assert (0 < P) as HP.
  { apply Qmult_lt_0_compat; [reflexivity | apply pow2_pos]. }
  assert (sqrt_within ulp Y X) as S1.
  { apply (bracket_sqrt_within (inject_Z q) (2 ^ en)).
    - rewrite <- Zle_Qle. exact Hq.
    - apply pow2_pos.
    - subst Y. change (inject_Z q + 1) with (inject_Z q + inject_Z 1).
      rewrite <- inject_Z_plus.
      split; apply scale_le; try apply pow2_pos; lia.
    - assert (X == inject_Z (Zpos m * 2 ^ s) * (2 ^ en * 2 ^ en)) as ->.
      { subst X. rewrite Hes. replace (2 * en + s)%Z with (en + en + s)%Z by lia.
        rewrite !pow2_add, inject_Z_mult, inject_pow2 by lia. ring. }
      change (inject_Z q + 1) with (inject_Z q + inject_Z 1).
      rewrite <- inject_Z_plus.
      assert (0 < 2 ^ en * 2 ^ en) as HB by (apply Qmult_lt_0_compat; apply pow2_pos).
      split.
      + assert (inject_Z q * 2 ^ en * (inject_Z q * 2 ^ en)
                == inject_Z (q * q) * (2 ^ en * 2 ^ en)) as ->
          by (rewrite inject_Z_mult; ring).
        apply scale_le; [lia | exact HB].
      + assert (inject_Z (q + 1) * 2 ^ en * (inject_Z (q + 1) * 2 ^ en)
                == inject_Z ((q + 1) * (q + 1)) * (2 ^ en * 2 ^ en)) as ->
          by (rewrite inject_Z_mult; ring).
        apply scale_le; [lia | exact HB]. }
  assert (within ulp P (Y * Y)) as S2.
  { apply (bracket_within (inject_Z t) (2 ^ (2 * en + n))).
    - rewrite <- Zle_Qle. exact Ht.
    - apply pow2_pos.
    - subst P. rewrite (carried mp (2 * en + n) c Hc).
      change (inject_Z t + 1) with (inject_Z t + inject_Z 1).
      rewrite <- inject_Z_plus.
      split; apply scale_le; try apply pow2_pos; lia.
    - assert (Y * Y == inject_Z (Zpos mn * Zpos mn) * 2 ^ (2 * en)) as ->.
      { subst Y. replace (2 * en)%Z with (en + en)%Z by lia.
        rewrite pow2_add, inject_Z_mult. ring. }
      change (inject_Z t + 1) with (inject_Z t + inject_Z 1).
      rewrite <- inject_Z_plus.
      assert (forall k : Z, inject_Z k * 2 ^ (2 * en + n)
                            == inject_Z (k * 2 ^ n) * 2 ^ (2 * en)) as Hk.
      { intros k. rewrite pow2_add, inject_Z_mult, inject_pow2 by lia. ring. }
      rewrite !Hk.
      split; apply scale_le; try apply pow2_pos; lia. }
  assert (within ulp (R * P) X) as S3.
  { set (E := (e - (2 * en + n + c) - 53 + n')%Z) in *.
    apply (bracket_within (inject_Z t') (2 ^ E * P)).
    - rewrite <- Zle_Qle. exact Ht'.
    - apply Qmult_lt_0_compat; [apply pow2_pos | exact HP].
    - assert (R * P == inject_Z (Zpos mr * 2 ^ c') * (2 ^ E * P)) as ->.
      { subst R. rewrite (carried mr E c' Hc'). ring. }
      change (inject_Z t' + 1) with (inject_Z t' + inject_Z 1).
      rewrite <- inject_Z_plus.
      assert (0 < 2 ^ E * P) by (apply Qmult_lt_0_compat; [apply pow2_pos | exact HP]).
      split; apply scale_le; try assumption; lia.
    - assert (X == inject_Z (Zpos m * 2 ^ 53) * 2 ^ (e - 53)) as ->.
      { subst X. replace e with (53 + (e - 53))%Z at 1 by lia.
        rewrite pow2_add, inject_Z_mult, inject_pow2 by lia. ring. }
      change (inject_Z t' + 1) with (inject_Z t' + inject_Z 1).
      rewrite <- inject_Z_plus.
      assert (forall k : Z, inject_Z k * (2 ^ E * P)
                            == inject_Z (k * 2 ^ n' * Zpos mp) * 2 ^ (e - 53)) as Hk.
      { intros k. subst P.
        replace (e - 53)%Z with (E + (2 * en + n + c) + - n')%Z by (subst E; lia).
        rewrite !inject_Z_mult, inject_pow2 by lia.
        rewrite (pow2_add (E + (2 * en + n + c)) (- n')), (pow2_add E).
        assert (2 ^ n' * 2 ^ (- n') == 1) as Hinv.
        { rewrite <- pow2_add. replace (n' + - n')%Z with 0%Z by lia. reflexivity. }
        transitivity (inject_Z k * inject_Z (Zpos mp) * 2 ^ E * 2 ^ (2 * en + n + c)
                      * (2 ^ n' * 2 ^ (- n'))); [rewrite Hinv | ]; ring. }
      rewrite !Hk.
      split; apply scale_le; try apply pow2_pos; lia. }
  destruct (quotient_close X Y P R HX S1 S2 S3) as (Hnz & Hbounds).
  split.
  - apply (F2Q_nonzero _ Y); [apply F2Q_finite, Hn | exact Hnz].
  - exists R. split; [apply F2Q_finite, Hr | exact Hbounds].
Qed.

End SelfSimilarity.

Section SelfSimilarityFinite.

Lemma self_ratio_close_subnormal (d : float) :
  classify d = PSubn ->
  PrimFloat.eqb (PrimFloat.sqrt d) 0%float = false
  /\ close_to_one (d / (PrimFloat.sqrt d * PrimFloat.sqrt d))%float.
Proof.
  intros Hsub.
  destruct (subnormal_shape d Hsub) as (md & Hd & Hmd).
  destruct (SFsqrt_subnormal md Hmd) as (mn & e' & s & Hsqrt & Hmn & Hs & He & Hnear).
  assert (Prim2SF (PrimFloat.sqrt d) = S754_finite false mn e') as Hn
    by (rewrite sqrt_spec, Hd; exact Hsqrt).
  assert (Prim2SF (PrimFloat.sqrt d * PrimFloat.sqrt d) = S754_finite false md (-1074)) as Hp
    by (rewrite mul_spec, Hn; exact (SFmul_back mn md e' s Hmn Hmd Hs He Hnear)).
  destruct (SFdiv_same md (-1074)) as (mr & Hdiv & Hmr).
  assert (Prim2SF (d / (PrimFloat.sqrt d * PrimFloat.sqrt d)) = S754_finite false mr (-52))
    as Hr by (rewrite div_spec, Hd, Hp; exact Hdiv).
  split.
  - rewrite FloatAxioms.eqb_spec, Hn. reflexivity.
  - eexists. split; [apply F2Q_finite, Hr | ].
    destruct Hmr as [-> | ->]; split; vm_compute; intros [=].
Qed.

(** The quotient of a positive finite number by the square of its square
    root is within eight units in the last place of one, and it is so of no
    other float. *)
Lemma self_ratio_close_iff (d : float) :
  positive_finite d <->
  close_to_one (if PrimFloat.eqb (PrimFloat.sqrt d) 0%float
                   || PrimFloat.eqb (PrimFloat.sqrt d) 0%float
                then 0%float
                else d / (PrimFloat.sqrt d * PrimFloat.sqrt d))%float.
Proof.
  split.
  - intros [H | H];
      [destruct (self_ratio_close d H) as [-> Hc] | destruct (self_ratio_close_subnormal d H) as [-> Hc]];
      exact Hc.
  - intros (q & Hq & Hlow & Hhigh). unfold positive_finite.
    rewrite !classify_spec. unfold SF64classify, SFclassify.
    rewrite !FloatAxioms.eqb_spec, sqrt_spec in Hq.
    unfold F2Q in Hq.
    destruct (Prim2SF d) as [sd | [] | | [] m e] eqn:Hd; cbn in Hq.
    + destruct sd; cbn in Hq; injection Hq as <-; exfalso; revert Hlow; vm_compute; auto.
    + rewrite div_spec, mul_spec, sqrt_spec, Hd in Hq. discriminate.
    + rewrite div_spec, mul_spec, sqrt_spec, Hd in Hq. discriminate.
    + rewrite div_spec, mul_spec, sqrt_spec, Hd in Hq. discriminate.
    + rewrite div_spec, mul_spec, sqrt_spec, Hd in Hq. discriminate.
    + destruct (Z.pos (digits2_pos m) =? prec); [left | right]; reflexivity.
Qed.

End SelfSimilarityFinite.

(** Self-similarity: the result is within [2^-49] of one exactly when the
    sum of squares, as computed, is a positive finite number. *)
Lemma self_similarity_iff (v : PDFService.vector) :
  close_to_one (_cosine_similarity v v) <-> positive_finite (dot_from 0%float v v).
Proof.
  rewrite (_cosine_similarity_aligned v v eq_refl). unfold np_norm.
  symmetry. apply self_ratio_close_iff.
Qed.

(** C5. [_cosine_similarity] is symmetric; it is exactly [0.0], with no
    division, whenever a computed norm compares equal to zero, which is so
    for every vector of zeros; and the similarity of a vector with itself is
    within [2^-49] of one exactly when the sum of its squares, as computed,
    is a positive finite number: it is so unless the squares underflow to
    zero, overflow, or are not numbers. *)
Theorem _cosine_similarity_properties :
  (forall v1 v2, _cosine_similarity v1 v2 = _cosine_similarity v2 v1)
  /\ (forall v1 v2,
        PrimFloat.eqb (np_norm v1) 0%float = true
        \/ PrimFloat.eqb (np_norm v2) 0%float = true ->
        _cosine_similarity v1 v2 = 0%float)
  /\ (forall v1 v2,
        Forall (fun x => PrimFloat.eqb x 0%float = true) v1 ->
        _cosine_similarity v1 v2 = 0%float /\ _cosine_similarity v2 v1 = 0%float)
  /\ (forall v,
        close_to_one (_cosine_similarity v v)
        <-> positive_finite (dot_from 0%float v v)).
Proof.
  split; [exact _cosine_similarity_comm | ].
  split; [exact _cosine_similarity_zero_norm | ].
  split; [ | exact self_similarity_iff].
  intros v1 v2 Hzero. apply np_norm_zero_vector in Hzero.
  split; apply _cosine_similarity_zero_norm; [left | right]; exact Hzero.
Qed.

End Similarity.

(** C5, the claim as worded fails: [tiny] is not the zero vector, its
    square underflows to zero, and its similarity with itself is [0.0]. *)
Lemma _cosine_similarity_underflow :
  Forall (fun x => PrimFloat.eqb x 0%float = false) Fixtures.tiny
  /\ PrimFloat.eqb (np_norm Fixtures.tiny) 0%float = true
  /\ _cosine_similarity Fixtures.tiny Fixtures.tiny = 0%float
  /\ F2Q (_cosine_similarity Fixtures.tiny Fixtures.tiny) = Some 0%Q.
Proof.
  split; [repeat constructor | ]. repeat split; vm_compute; reflexivity.
Qed.

(** The sum of the squares of [(1, 1)] is a normal number. *)
Example self_similarity_diagonal :
  close_to_one (_cosine_similarity Fixtures.diagonal Fixtures.diagonal).
Proof. apply self_similarity_iff. left. reflexivity. Qed.

(** The square of [2^-530] is a subnormal number, and is found again. *)
Example self_similarity_subnormal :
  PrimFloat.classify (dot_from 0%float [0x1p-530%float] [0x1p-530%float]) = PSubn
  /\ _cosine_similarity [0x1p-530%float] [0x1p-530%float] = 1%float
  /\ close_to_one (_cosine_similarity [0x1p-530%float] [0x1p-530%float]).
Proof.
  split; [reflexivity | ]. split; [vm_compute; reflexivity | ].
  apply self_similarity_iff. right. reflexivity.
Qed.

Example self_similarity_three_four :
  _cosine_similarity Fixtures.three_four Fixtures.three_four = 1%float.
Proof. vm_compute. reflexivity. Qed.

Example similarity_orthogonal :
  _cosine_similarity Fixtures.e1 Fixtures.e2 = 0%float.
Proof. vm_compute. reflexivity. Qed.

Example similarity_misaligned :
  _cosine_similarity Fixtures.e1 Fixtures.tiny = 0%float.
Proof. vm_compute. reflexivity. Qed.

(* ===================================================================== *)
(** * The local backend: store, then search                             *)
(* ===================================================================== *)

Section RoundTrip.
Context {W : Type}.
Variable encode : list string -> result (list PDFService.vector).
Variable uuid4 : nat -> string.

(** C6. On a local backend whose earlier records all score strictly less
    against [v] than [v] itself (an empty one in particular), after
    [_store_memory] of one chunk with the vector [v], a search whose query
    embedding is [v] (not empty) with a limit of at least one returns that
    chunk first, with [_cosine_similarity(v, v)] as its score; that score is
    within [2^-49] of one exactly when the sum of the squares of [v], as
    computed, is a positive finite number: it is so unless the squares
    underflow to zero, overflow, or are not numbers. *)
Theorem store_then_search_round_trip (s : VS W) (store : list Item)
    (chunk : string) (v : PDFService.vector) (metadata : option (gmap string pyval))
    (query : string) (limit : Z) :
  _memory_store s = Some store ->
  PDFService.create_query_embedding encode query = v ->
  v <> [] ->
  1 <= limit ->
  Forall (fun item => PrimFloat.ltb (_cosine_similarity v (item_vector item))
                                    (_cosine_similarity v v) = true) store ->
  exists s' rest,
    _store_memory uuid4 [chunk] [v] metadata s = (Ok true, s')
    /\ _search_memory encode query limit s'
       = (Ok (mkDoc (PyStr chunk) (_cosine_similarity v v) (metadata_or_empty metadata)
              :: rest), s')
    /\ (close_to_one (_cosine_similarity v v)
        <-> positive_finite (dot_from 0%float v v)).
Proof.
  intros Hstore Hq Hv Hlimit Hbelow.
  eexists. eexists. split; [ | split; [ | apply self_similarity_iff]].
  { unfold _store_memory, try_exceptM. unfold mbindM at 1.
    change (zip [chunk] [v]) with [(chunk, v)].
    rewrite (for_enumerate_append_closed uuid4 metadata [(chunk, v)] 0%nat s store Hstore).
    reflexivity. }
  rewrite _search_memory_cases. unfold records. cbn [_memory_store new_records].
  rewrite Hq. cbn [fst snd].
  set (item := mkItem _ v chunk 0%nat _).
  change (default [] (Some (store ++ [item])%list)) with (store ++ [item])%list.
  destruct (store ++ [item])%list as [ | first others] eqn:Hall.
  { destruct store; discriminate. }
  rewrite <- Hall. clear first others Hall.
  destruct v as [ | x v']; [contradiction | ].
  unfold similarities. rewrite fmap_app. cbn [fmap list_fmap].
  rewrite (sort_desc_new_maximum (A := float * Item) fst).
  2: { apply Forall_fmap. exact Hbelow. }
  unfold slice_to. rewrite (proj2 (Z.leb_le 0 limit)) by lia.
  replace (Z.to_nat limit) with (S (Z.to_nat (limit - 1))) by lia.
  cbn. reflexivity.
Qed.

End RoundTrip.

(** ** The theorems at concrete stores *)

Lemma uuid_of_inj : Inj (=) (=) Fixtures.uuid_of.
Proof.
  intros m n H. unfold Fixtures.uuid_of in H. cbn in H.
  injection H as H. exact (pretty_nat_inj m n H).
Qed.

Lemma _store_memory_appends_witness :
  exists new s',
    _store_memory Fixtures.uuid_of ["intro"; "body"]
      [Fixtures.e1; Fixtures.e2; Fixtures.diagonal]
      (Some {[ "source" := PyStr "a.pdf" ]}) Fixtures.local_store = (Ok true, s')
    /\ _memory_store s' = Some new
    /\ length new = 2%nat
    /\ NoDup (item_id <$> new).
Proof.
  destruct (_store_memory_appends Fixtures.uuid_of Fixtures.local_store []
              ["intro"; "body"] [Fixtures.e1; Fixtures.e2; Fixtures.diagonal]
              (Some {[ "source" := PyStr "a.pdf" ]}) eq_refl uuid_of_inj)
    as (new & s' & Hrun & Hstore & _ & Hlen & _ & Hids & _).
  exists new, s'. repeat split; assumption.
Defined.

(** C7, the claim as worded fails: in the local backend [chunk_index] is a
    field of the record next to [metadata], not a key merged into it, and the
    search results carry the metadata alone. *)
Lemma _store_memory_chunk_index_apart :
  exists item doc s',
    _store_memory Fixtures.uuid_of ["intro"] [Fixtures.e1]
      (Some {[ "source" := PyStr "a.pdf" ]}) Fixtures.local_store = (Ok true, s')
    /\ _memory_store s' = Some [item]
    /\ item_chunk_index item = 0%nat
    /\ item_metadata item = {[ "source" := PyStr "a.pdf" ]}
    /\ item_metadata item !! "chunk_index" = None
    /\ fst (_search_memory (Fixtures.encode_as Fixtures.e1) "intro" 5 s') = Ok [doc]
    /\ doc_metadata doc !! "chunk_index" = None.
Proof.
  do 3 eexists. repeat split; reflexivity.
Qed.

(** The persistent backend does merge it into the payload. *)
Example payload_merges_chunk_index :
  payload "intro" 0 (Some {[ "source" := PyStr "a.pdf" ]}) !! "chunk_index" = Some (PyInt 0)
  /\ payload "intro" 0 (Some {[ "source" := PyStr "a.pdf" ]}) !! "source"
     = Some (PyStr "a.pdf").
Proof. split; reflexivity. Qed.

(** On an instance demoted by a failed [upsert] the list was never created:
    the local store of a non-empty batch fails. *)
Example _store_memory_without_list :
  _memory_store Fixtures.cloud_store = None
  /\ fst (_store_memory Fixtures.uuid_of ["intro"] [Fixtures.e1] None
            (demoted Fixtures.cloud_store)) = Ok false.
Proof. split; reflexivity. Qed.

Lemma _search_memory_ranked_witness :
  exists docs,
    _search_memory (Fixtures.encode_as Fixtures.e1) "which way is east?" 2
      Fixtures.three_records = (Ok docs, Fixtures.three_records)
    /\ Z.of_nat (length docs) <= 2
    /\ StronglySorted (fun a b => PrimFloat.leb (doc_score b) (doc_score a) = true) docs.
Proof.
  destruct (_search_memory_ranked (Fixtures.encode_as Fixtures.e1)
              Fixtures.three_records "which way is east?" 2)
    as (docs & Hrun & Hlen & Hsorted & _).
  - lia.
  - repeat constructor.
  - exists docs. repeat split; assumption.
Defined.

Example search_three_records :
  doc_text <$> default [] (match fst (_search_memory (Fixtures.encode_as Fixtures.e1)
                                        "which way is east?" 2 Fixtures.three_records) with
                           | Ok docs => Some docs
                           | Raise _ => None
                           end)
  = [PyStr "east"; PyStr "north-east"].
Proof. vm_compute. reflexivity. Qed.

(** C4, the claim as worded fails: a negative limit cuts from the end, so
    three records and the limit [-1] give two results. *)
Lemma _search_memory_negative_limit :
  exists docs,
    _search_memory (Fixtures.encode_as Fixtures.e1) "which way is east?" (-1)
      Fixtures.three_records = (Ok docs, Fixtures.three_records)
    /\ length docs = 2%nat
    /\ ~ (Z.of_nat (length docs) <= -1).
Proof.
  eexists. split; [vm_compute; reflexivity | ].
  split; [reflexivity | cbn; lia].
Qed.

Lemma store_then_search_round_trip_witness :
  exists s' rest,
    _store_memory Fixtures.uuid_of ["a right triangle"] [Fixtures.three_four] None
      Fixtures.three_records = (Ok true, s')
    /\ _search_memory (Fixtures.encode_as Fixtures.three_four) "triangle" 5 s'
       = (Ok (mkDoc (PyStr "a right triangle")
                (_cosine_similarity Fixtures.three_four Fixtures.three_four) ∅ :: rest), s')
    /\ close_to_one (_cosine_similarity Fixtures.three_four Fixtures.three_four).
Proof.
  destruct (store_then_search_round_trip (Fixtures.encode_as Fixtures.three_four)
              Fixtures.uuid_of Fixtures.three_records
              (records Fixtures.three_records)
              "a right triangle" Fixtures.three_four None "triangle" 5)
    as (s' & rest & Hstore & Hsearch & Hclose).
  - reflexivity.
  - reflexivity.
  - discriminate.
  - lia.
  - repeat constructor.
  - exists s', rest. split; [exact Hstore | split; [exact Hsearch | ]].
    apply Hclose. left. reflexivity.
Defined.

(** C6, the claim as worded fails: the chunk stored with [tiny] comes back
    first, with the score [0.0]. *)
Lemma store_then_search_underflow :
  exists s',
    Forall (fun x => PrimFloat.eqb x 0%float = false) Fixtures.tiny
    /\ _store_memory Fixtures.uuid_of ["fine print"] [Fixtures.tiny] None
         Fixtures.local_store = (Ok true, s')
    /\ _search_memory (Fixtures.encode_as Fixtures.tiny) "fine print" 5 s'
       = (Ok [mkDoc (PyStr "fine print") 0%float ∅], s').
Proof.
  eexists. split; [repeat constructor | ].
  split; vm_compute; reflexivity.
Qed.

(* ===================================================================== *)
(** * The ingestion result                                              *)
(* ===================================================================== *)

Section IngestionProperties.
Context {W : Type}.
Variable read_pages : string -> result (list string).
Variable split_text : string -> list string.
Variable encode : list string -> result (list PDFService.vector).

Lemma process_pdf_cases (pdf_path : string) :
  PDFService.process_pdf read_pages split_text encode pdf_path =
    match chunks_of read_pages split_text pdf_path with
    | [] => nothing_to_index
    | chunks =>
        <[ "chunks" := PDFService.py_chunks chunks ]>
        (<[ "embeddings" :=
              PDFService.py_embeddings (PDFService.create_embeddings encode chunks) ]>
        (<[ "metadata" :=
              PyDict (<[ "source" := PyStr pdf_path ]>
                     (<[ "total_chunks" := PyInt (Z.of_nat (length chunks)) ]> ∅)) ]> ∅))
    end.
Proof.
  unfold PDFService.process_pdf, chunks_of.
  destruct (String.eqb_spec (PDFService.extract_text_from_pdf read_pages pdf_path) "")
    as [-> | Htext]; [reflexivity | ].
  destruct (PDFService.chunk_text split_text _); reflexivity.
Qed.

Lemma as_strings_py_chunks (chunks : list string) :
  App.as_strings (PDFService.py_chunks chunks) = chunks.
Proof.
  unfold App.as_strings, PDFService.py_chunks.
  induction chunks as [ | c chunks IH]; [reflexivity | ].
  cbn. f_equal. exact IH.
Qed.

Lemma as_vector_py_vector (v : PDFService.vector) :
  App.as_vector (PDFService.py_vector v) = Some v.
Proof.
  unfold App.as_vector, PDFService.py_vector. f_equal.
  induction v as [ | x v IH]; [reflexivity | ].
  cbn. f_equal. exact IH.
Qed.

Lemma as_vectors_py_embeddings (embeddings : list PDFService.vector) :
  App.as_vectors (PDFService.py_embeddings embeddings) = embeddings.
Proof.
  unfold App.as_vectors, PDFService.py_embeddings.
  induction embeddings as [ | v embeddings IH]; [reflexivity | ].
  cbn [fmap list_fmap omap list_omap]. rewrite as_vector_py_vector. f_equal. exact IH.
Qed.

(** C9, as the code has it.  For every path [process_pdf] returns a
    mapping.  When extraction and chunking give at least one chunk its keys
    are [chunks], [embeddings] and [metadata], and [metadata] holds [source]
    (the path) and [total_chunks] (the number of chunks).  When they give
    none - no text, or only white space - the mapping holds [chunks = []] and
    [embeddings = []] and no [metadata]; the caller in [app.py] then builds
    no store and stores nothing, and otherwise stores the chunks with the
    embeddings. *)
Theorem process_pdf_result (pdf_path : string) :
  (chunks_of read_pages split_text pdf_path <> [] ->
   dom (PDFService.process_pdf read_pages split_text encode pdf_path)
     = {[ "chunks"; "embeddings"; "metadata" ]}
   /\ PDFService.process_pdf read_pages split_text encode pdf_path !! "chunks"
      = Some (PDFService.py_chunks (chunks_of read_pages split_text pdf_path))
   /\ PDFService.process_pdf read_pages split_text encode pdf_path !! "embeddings"
      = Some (PDFService.py_embeddings
                (PDFService.create_embeddings encode (chunks_of read_pages split_text pdf_path)))
   /\ exists m,
        PDFService.process_pdf read_pages split_text encode pdf_path !! "metadata"
          = Some (PyDict m)
        /\ m !! "source" = Some (PyStr pdf_path)
        /\ m !! "total_chunks" = Some (PyInt (Z.of_nat (length (chunks_of read_pages split_text pdf_path)))))
  /\ (chunks_of read_pages split_text pdf_path = [] ->
      PDFService.process_pdf read_pages split_text encode pdf_path = nothing_to_index
      /\ dom (PDFService.process_pdf read_pages split_text encode pdf_path)
         = {[ "chunks"; "embeddings" ]}
      /\ PDFService.process_pdf read_pages split_text encode pdf_path !! "metadata" = None)
  /\ (forall (client : QdrantClient W) uuid4 url key filename (w : W),
        (chunks_of read_pages split_text pdf_path = [] ->
         App.process_pdf read_pages split_text encode client uuid4 url key
           pdf_path filename w = App.NoTextExtracted)
        /\ (chunks_of read_pages split_text pdf_path <> [] ->
            exists success store,
              store_embeddings client uuid4 (chunks_of read_pages split_text pdf_path)
                (PDFService.create_embeddings encode (chunks_of read_pages split_text pdf_path))
                (Some {[ "filename" := PyStr filename ]}) (__init__ client url key w)
              = (Ok success, store)
              /\ App.process_pdf read_pages split_text encode client uuid4 url key
                   pdf_path filename w = App.Stored success store)).
Proof.
  split; [ | split].
  - intros Hchunks. rewrite process_pdf_cases.
    destruct (chunks_of read_pages split_text pdf_path) as [ | c chunks]; [contradiction | ].
    split; [rewrite !dom_insert_L, dom_empty_L; set_solver | ].
    split; [reflexivity | ]. split; [reflexivity | ].
    eexists. split; [reflexivity | ]. split; reflexivity.
  - intros Hchunks. rewrite process_pdf_cases, Hchunks.
    split; [reflexivity | ].
    split; [unfold nothing_to_index; rewrite !dom_insert_L, dom_empty_L; set_solver | ].
    reflexivity.
  - intros client uuid4 url key filename w. unfold App.process_pdf.
    rewrite process_pdf_cases. split.
    + intros ->. reflexivity.
    + intros Hchunks.
      destruct (chunks_of read_pages split_text pdf_path) as [ | c chunks] eqn:Hc; [contradiction | ].
      rewrite lookup_insert_eq.
      rewrite lookup_insert_ne by discriminate. rewrite lookup_insert_eq.
      cbn [default]. unfold id.
      rewrite as_strings_py_chunks, as_vectors_py_embeddings.
      change (truthy (PDFService.py_chunks (c :: chunks))) with true. cbv iota.
      destruct (store_embeddings_returns client uuid4 (c :: chunks)
                  (PDFService.create_embeddings encode (c :: chunks))
                  (Some {[ "filename" := PyStr filename ]}) (__init__ client url key w))
        as [success Hs].
      destruct (store_embeddings client uuid4 (c :: chunks) _ _ _) as [r store].
      cbn in Hs. subst r. exists success, store. split; reflexivity.
Qed.

End IngestionProperties.

(** C9, the claim as worded fails: for a file that cannot be read, and for
    one whose pages hold only white space, the mapping has no [metadata]. *)
Lemma process_pdf_without_metadata :
  PDFService.process_pdf Fixtures.no_file Fixtures.split_lines
    (Fixtures.encode_as Fixtures.e1) "missing.pdf" !! "metadata" = None
  /\ dom (PDFService.process_pdf Fixtures.no_file Fixtures.split_lines
            (Fixtures.encode_as Fixtures.e1) "missing.pdf")
     = {[ "chunks"; "embeddings" ]}
  /\ PDFService.process_pdf Fixtures.blank_pages Fixtures.split_lines
       (Fixtures.encode_as Fixtures.e1) "scan.pdf" !! "metadata" = None.
Proof.
  split; [reflexivity | ]. split; [ | reflexivity].
  change (PDFService.process_pdf Fixtures.no_file Fixtures.split_lines
            (Fixtures.encode_as Fixtures.e1) "missing.pdf")
    with (<[ "chunks" := PyList [] ]> (<[ "embeddings" := PyList [] ]> (∅ : gmap string pyval))).
  rewrite !dom_insert_L, dom_empty_L. set_solver.
Qed.

Example process_pdf_two_pages :
  PDFService.process_pdf Fixtures.two_pages Fixtures.split_lines
    (Fixtures.encode_as Fixtures.e1) "notes.pdf"
  = <[ "chunks" := PyList [PyStr "Rain is water."; PyStr "Snow is ice."] ]>
    (<[ "embeddings" := PyList [PDFService.py_vector Fixtures.e1;
                                PDFService.py_vector Fixtures.e1] ]>
    (<[ "metadata" := PyDict (<[ "source" := PyStr "notes.pdf" ]>
                             (<[ "total_chunks" := PyInt 2 ]> ∅)) ]> ∅)).
Proof. reflexivity. Qed.

(* ===================================================================== *)
(** * The weather summary                                               *)
(* ===================================================================== *)

Section WeatherProperties.
Variables (float_repr : float -> string) (container_repr : pyval -> string).

Abbreviation field := (WeatherService.field float_repr container_repr).
Abbreviation format_weather_response :=
  (WeatherService.format_weather_response float_repr container_repr).





(** The only way to an exception: a [description] that is not a string. *)
Lemma format_weather_response_raises (weather_data : gmap string pyval) :
  raises (format_weather_response weather_data)
  <-> dict_truthy weather_data = true /\ description_ok weather_data = false.
Proof.
  unfold WeatherService.format_weather_response, description_ok.
  destruct (dict_truthy weather_data); cbn [negb]; [ | cbn; intuition discriminate].
  destruct (weather_data !! "description") as [v | ]; [ | cbn; intuition discriminate].
  destruct v; cbn; intuition discriminate.
Qed.

End WeatherProperties.



(** A null [description] makes the formatting raise. *)
Example format_weather_response_null_description :
  WeatherService.format_weather_response Fixtures.no_repr Fixtures.no_repr
    (<[ "city" := PyStr "Unknown" ]> {[ "description" := PyNone ]})
  = Raise (attribute_error "title").
Proof. reflexivity. Qed.

Example format_weather_response_title :
  WeatherService.format_weather_response Fixtures.no_repr Fixtures.no_repr
    (<[ "city" := PyStr "Paris" ]> (<[ "country" := PyStr "FR" ]>
     (<[ "humidity" := PyInt 70 ]> {[ "description" := PyStr "light rain" ]})))
  = Ok ("Weather in Paris, FR:" ++ NL
        ++ "- Temperature: N/A°C (feels like N/A°C)" ++ NL
        ++ "- Condition: Light Rain" ++ NL
        ++ "- Humidity: 70%" ++ NL
        ++ "- Wind Speed: N/A m/s").
Proof. vm_compute. reflexivity. Qed.

(* ===================================================================== *)
(** * The model service                                                 *)
(* ===================================================================== *)

Section GroqProperties.
Variable llm_invoke : list message_like -> result pyval.

(** The role test of the conversion loop, by string comparison. *)
Lemma role_match {A} (v : pyval) (x y z : A) :
  match v with
  | PyStr "system" => x
  | PyStr "assistant" => y
  | _ => z
  end
  = match v with
    | PyStr s =>
        if String.eqb s "system" then x else if String.eqb s "assistant" then y else z
    | _ => z
    end.
Proof.
  destruct v as [ | b | n | f | s | l | d]; try reflexivity.
  repeat (destruct s as [ | [[] [] [] [] [] [] [] []] s]; try reflexivity).
Qed.

Lemma convert_message_convertible (m : message_like) :
  convertible m = true ->
  exists mo, convert_message m = Ok mo /\ MsgObject mo = message_of m.
Proof.
  destruct m as [m | d]; [discriminate | ].
  unfold convertible, convert_message, message_of, role_of. intros Hc.
  rewrite role_match.
  destruct (d !! "content") as [[ | b | z | f | s | l | d'] | ]; try discriminate;
    destruct (d !! "role") as [[ | b' | z' | f' | s' | l' | d''] | ];
    cbn [default from_option id];
    try (eexists; split; reflexivity);
    destruct (String.eqb s' "system"); try (eexists; split; reflexivity);
    destruct (String.eqb s' "assistant"); eexists; split; reflexivity.
Qed.

Lemma convert_message_not_convertible (m : message_like) :
  convertible m = false -> raises (convert_message m).
Proof.
  destruct m as [m | d]; [intros _; exact I | ].
  unfold convertible, convert_message.
  destruct (d !! "content") as [[ | b | z | f | s | l | d'] | ]; try discriminate;
    intros _; exact I.
Qed.

Lemma convert_messages_convertible (messages : list message_like) :
  forallb convertible messages = true ->
  convert_messages messages = Ok (message_of <$> messages).
Proof.
  induction messages as [ | m messages IH]; [reflexivity | ].
  cbn [forallb]. intros [Hm Hrest]%andb_true_iff.
  destruct (convert_message_convertible m Hm) as (mo & Hmo & Heq).
  cbn [convert_messages]. rewrite Hmo. cbn. rewrite (IH Hrest). cbn.
  rewrite Heq. reflexivity.
Qed.

Lemma convert_messages_not_convertible (messages : list message_like) :
  forallb convertible messages = false -> raises (convert_messages messages).
Proof.
  induction messages as [ | m messages IH]; [discriminate | ].
  cbn [forallb convert_messages]. intros H.
  destruct (convertible m) eqn:Hm.
  - destruct (convert_message_convertible m Hm) as (mo & -> & _). cbn.
    specialize (IH H). destruct (convert_messages messages); [destruct IH | exact I].
  - pose proof (convert_message_not_convertible m Hm) as Hr.
    destruct (convert_message m); [destruct Hr | exact I].
Qed.

(** What [invoke] returns, by the shape of the list. *)
Lemma invoke_cases (messages : list message_like) :
  GroqService.invoke llm_invoke messages
  = Ok {[ "content" :=
            match messages with
            | MsgDict _ :: _ =>
                if forallb convertible messages
                then answer_of llm_invoke (message_of <$> messages)
                else PyStr APOLOGY
            | _ => answer_of llm_invoke messages
            end ]}.
Proof.
  unfold GroqService.invoke, answer_of.
  destruct messages as [ | [m | d] rest];
    [cbn; destruct (llm_invoke _); reflexivity .. | ].
  destruct (forallb convertible (MsgDict d :: rest)) eqn:Hall.
  - rewrite (convert_messages_convertible _ Hall). cbn [mbind result_bind Py.bind].
    destruct (llm_invoke _); reflexivity.
  - pose proof (convert_messages_not_convertible _ Hall) as Hr.
    destruct (convert_messages (MsgDict d :: rest)); [destruct Hr | reflexivity].
Qed.

Lemma answer_of_cases (messages : list message_like) :
  answer_of llm_invoke messages = PyStr APOLOGY
  \/ llm_invoke messages = Ok (answer_of llm_invoke messages).
Proof.
  unfold answer_of. destruct (llm_invoke messages); [right | left]; reflexivity.
Qed.

(** X1. [GroqService.invoke] never raises and always returns a mapping whose
    only key is [content]: the content the model returned for a list of as
    many messages as it was handed, or the fixed apology. *)
Theorem invoke_always_answers (messages : list message_like) :
  exists content,
    GroqService.invoke llm_invoke messages = Ok {[ "content" := content ]}
    /\ (content = PyStr APOLOGY
        \/ exists sent, llm_invoke sent = Ok content /\ length sent = length messages).
Proof.
  rewrite invoke_cases. eexists. split; [reflexivity | ].
  destruct messages as [ | [m | d] rest].
  - destruct (answer_of_cases []) as [-> | H]; [left; reflexivity | right].
    exists []. split; [exact H | reflexivity].
  - destruct (answer_of_cases (MsgObject m :: rest)) as [-> | H];
      [left; reflexivity | right].
    exists (MsgObject m :: rest). split; [exact H | reflexivity].
  - destruct (forallb convertible (MsgDict d :: rest)); [ | left; reflexivity].
    destruct (answer_of_cases (message_of <$> MsgDict d :: rest)) as [-> | H];
      [left; reflexivity | right].
    eexists. split; [exact H | ]. rewrite length_fmap. reflexivity.
Qed.

Lemma plain_content_convertible (messages : list message_like) :
  forallb plain_content messages = true -> forallb convertible messages = true.
Proof.
  induction messages as [ | m messages IH]; [reflexivity | ].
  cbn [forallb]. intros [Hm Hrest]%andb_true_iff. rewrite (IH Hrest), andb_true_r.
  destruct m as [m | d]; [discriminate | ].
  unfold plain_content in Hm. unfold convertible.
  destruct (d !! "content") as [[ | b | z | f | s | l | d'] | ];
    try discriminate; reflexivity.
Qed.

Lemma inconvertible_not_convertible (messages : list message_like) :
  existsb inconvertible messages = true -> forallb convertible messages = false.
Proof.
  induction messages as [ | m messages IH]; [discriminate | ].
  cbn [existsb forallb]. intros [Hm | Hrest]%orb_true_iff.
  - destruct m as [m | d]; [reflexivity | ].
    unfold inconvertible in Hm. unfold convertible.
    destruct (d !! "content") as [[ | b | z | f | s | l | d'] | ];
      try discriminate; reflexivity.
  - rewrite (IH Hrest). apply andb_false_r.
Qed.

(** X2. The conversion of [invoke] is decided by the first element.  A list
    that is empty or starts with a message object reaches the model as it
    is.  A list that starts with a dict is converted element by element -
    role ["system"] to a system message, ["assistant"] to an assistant
    message, any other or missing role to a human message, a missing content
    to the empty string - and when one element cannot be converted (a
    message object further down the list, a content that is [None]) the
    model is not consulted: the answer is the apology. *)
Theorem invoke_conversion (messages : list message_like) :
  (match messages with MsgDict _ :: _ => False | _ => True end ->
   GroqService.invoke llm_invoke messages
   = Ok {[ "content" := answer_of llm_invoke messages ]})
  /\ (forall d rest, messages = MsgDict d :: rest ->
      forallb plain_content messages = true ->
      convert_messages messages = Ok (message_of <$> messages)
      /\ GroqService.invoke llm_invoke messages
         = Ok {[ "content" := answer_of llm_invoke (message_of <$> messages) ]})
  /\ (forall d rest, messages = MsgDict d :: rest ->
      existsb inconvertible messages = true ->
      raises (convert_messages messages)
      /\ GroqService.invoke llm_invoke messages = Ok {[ "content" := PyStr APOLOGY ]}).
Proof.
  rewrite invoke_cases. split; [ | split].
  - intros Hhead. destruct messages as [ | [m | d] rest];
      [reflexivity | reflexivity | destruct Hhead].
  - intros d rest -> Hall%plain_content_convertible.
    split; [apply convert_messages_convertible, Hall | ].
    rewrite Hall. reflexivity.
  - intros d rest -> Hall%inconvertible_not_convertible.
    split; [apply convert_messages_not_convertible, Hall | ].
    rewrite Hall. reflexivity.
Qed.

End GroqProperties.

Section ChatProperties.
Variable llm_at : float -> list message_like -> result pyval.

Lemma chat_completion_cases (messages : list message_like) (temperature t : float) :
  chat_completion llm_at messages temperature t
  = let t' := if PrimFloat.eqb temperature DEFAULT_TEMPERATURE then t else temperature in
    (match GroqService.invoke (llm_at t') messages with
     | Ok r => Ok (default PyNone (r !! "content"))
     | Raise _ => Ok PyNone
     end, t').
Proof.
  unfold chat_completion, try_exceptM, mbindM, invoke_at_current, set_temperature, ret.
  destruct (PrimFloat.eqb temperature DEFAULT_TEMPERATURE); cbn;
    destruct (GroqService.invoke _ messages); reflexivity.
Qed.

(** X3. [chat_completion] never raises, and the [None] its handler returns
    is never seen: the call answers with the content [invoke] returns at the
    temperature in force, so a failed model call comes back as the apology
    text, not as [None]. *)
Theorem chat_completion_never_none (messages : list message_like) (temperature t : float) :
  exists content t',
    chat_completion llm_at messages temperature t = (Ok content, t')
    /\ t' = (if PrimFloat.eqb temperature DEFAULT_TEMPERATURE then t else temperature)
    /\ GroqService.invoke (llm_at t') messages = Ok {[ "content" := content ]}
    /\ ((forall sent, raises (llm_at t' sent)) -> content = PyStr APOLOGY).
Proof.
  rewrite chat_completion_cases. cbv zeta.
  set (t' := if PrimFloat.eqb temperature DEFAULT_TEMPERATURE then t else temperature).
  rewrite invoke_cases. rewrite lookup_singleton_eq. cbn [default from_option id].
  eexists; exists t'. split; [reflexivity | ]. split; [reflexivity | ].
  split; [apply invoke_cases | ].
  intros Hdown.
  assert (forall sent, answer_of (llm_at t') sent = PyStr APOLOGY) as Hans.
  { intros sent. unfold answer_of. specialize (Hdown sent).
    destruct (llm_at t' sent); [destruct Hdown | reflexivity]. }
  destruct messages as [ | [m | d] rest]; try apply Hans.
  destruct (forallb convertible (MsgDict d :: rest)); [apply Hans | reflexivity].
Qed.

(** X4. A temperature other than the default, once passed, stays in force:
    [chat_completion] writes it to the model and a later call with the
    default temperature leaves it there, so that call is answered by the
    model at the earlier temperature. *)
Theorem chat_completion_temperature_sticks
    (first later : list message_like) (temperature t : float) :
  PrimFloat.eqb temperature DEFAULT_TEMPERATURE = false ->
  exists a1 a2,
    chat_completion llm_at first temperature t = (Ok a1, temperature)
    /\ chat_completion llm_at later DEFAULT_TEMPERATURE temperature = (Ok a2, temperature)
    /\ GroqService.invoke (llm_at temperature) later = Ok {[ "content" := a2 ]}.
Proof.
  intros Hother. rewrite !chat_completion_cases. cbv zeta. rewrite Hother.
  assert (PrimFloat.eqb DEFAULT_TEMPERATURE DEFAULT_TEMPERATURE = true) as ->
    by reflexivity.
  rewrite !invoke_cases, !lookup_singleton_eq. cbn [default from_option id].
  eexists; eexists. split; [reflexivity | ]. split; reflexivity.
Qed.

End ChatProperties.

(** A model that answers with its temperature, asked at 0.5
    and then at the default. *)
Lemma chat_completion_temperature_sticks_witness :
  exists a1 a2,
    chat_completion Fixtures.llm_reports_temperature [] 0.5%float DEFAULT_TEMPERATURE
      = (Ok a1, 0.5%float)
    /\ chat_completion Fixtures.llm_reports_temperature [] DEFAULT_TEMPERATURE 0.5%float
       = (Ok a2, 0.5%float)
    /\ GroqService.invoke (Fixtures.llm_reports_temperature 0.5%float) []
       = Ok {[ "content" := a2 ]}.
Proof.
  apply (chat_completion_temperature_sticks Fixtures.llm_reports_temperature
           [] [] 0.5%float DEFAULT_TEMPERATURE).
  reflexivity.
Defined.

(* ===================================================================== *)
(** * The weather lookup and the nodes that use it                      *)
(* ===================================================================== *)

Section LookupProperties.
Variable http_get_json : string -> result pyval.
Variables (float_repr : float -> string) (container_repr : pyval -> string).

Lemma get_weather_shape (city : string) :
  match WeatherService.get_weather http_get_json city with
  | Ok None => True
  | Ok (Some weather_data) =>
      dom weather_data = snapshot_keys
      /\ exists d,
           http_get_json city = Ok (PyDict d)
           /\ WeatherService.cod_is_200 (default PyNone (d !! "cod")) = true
           /\ weather_data !! "city" = Some (default (PyStr city) (d !! "name"))
  | Raise e => WeatherService.caught_when_parsing (exn_cls e) = false
  end.
Proof.
  unfold WeatherService.get_weather.
  destruct (http_get_json city) as [data | e] eqn:Hhttp.
  2:{ cbn. destruct (WeatherService.caught_when_parsing (exn_cls e)) eqn:Hc;
        [exact I | exact Hc]. }
  destruct data as [ | b | z | f | s | l | d]; try reflexivity.
  cbn [mbind result_bind Py.bind py_get].
  destruct (WeatherService.cod_is_200 (default PyNone (d !! "cod"))) eqn:Hcod;
    cbn [negb]; [ | exact I].
  destruct (default (PyDict ∅) (d !! "sys")) as [ | ? | ? | ? | ? | ? | sys];
    try reflexivity.
  cbn [mbind result_bind Py.bind py_get].
  destruct (default (PyDict ∅) (d !! "main")) as [ | ? | ? | ? | ? | ? | main];
    try reflexivity.
  cbn [mbind result_bind Py.bind py_get].
  destruct (default (PyList [PyDict ∅]) (d !! "weather"))
    as [ | ? | ? | ? | [ | c w] | [ | first rest] | ? ]; try reflexivity; try exact I.
  cbn [mbind result_bind Py.bind py_get py_index0].
  destruct first as [ | ? | ? | ? | ? | ? | first]; try reflexivity.
  cbn [mbind result_bind Py.bind py_get].
  destruct (default (PyDict ∅) (d !! "wind")) as [ | ? | ? | ? | ? | ? | wind];
    try reflexivity.
  cbn [mbind result_bind Py.bind py_get try_except_only].
  split.
  - unfold snapshot_keys. rewrite !dom_insert_L, dom_empty_L. set_solver.
  - exists d. split; [reflexivity | ]. split; [exact Hcod | ].
    rewrite lookup_insert_eq. reflexivity.
Qed.

(** X5. The outcomes of [get_weather].  A failure of the request of one of
    the classes the handlers name gives [None] and any other exception
    escapes; an answer whose [cod] is neither [200] nor ["200"] gives [None];
    a snapshot, when one is returned, has exactly the seven keys [city],
    [country], [temperature], [feels_like], [humidity], [description] and
    [wind_speed], with [city] the [name] of the answer or else the city
    asked for; and what [get_weather] raises is never a [RequestException],
    [KeyError], [TypeError] or [IndexError]. *)
Theorem get_weather_outcomes (city : string) :
  (forall e, http_get_json city = Raise e ->
     WeatherService.get_weather http_get_json city
     = if WeatherService.caught_when_parsing (exn_cls e) then Ok None else Raise e)
  /\ (forall d, http_get_json city = Ok (PyDict d) ->
       WeatherService.cod_is_200 (default PyNone (d !! "cod")) = false ->
       WeatherService.get_weather http_get_json city = Ok None)
  /\ (forall weather_data,
       WeatherService.get_weather http_get_json city = Ok (Some weather_data) ->
       dom weather_data = snapshot_keys
       /\ exists d,
            http_get_json city = Ok (PyDict d)
            /\ WeatherService.cod_is_200 (default PyNone (d !! "cod")) = true
            /\ weather_data !! "city" = Some (default (PyStr city) (d !! "name")))
  /\ (forall e, WeatherService.get_weather http_get_json city = Raise e ->
       WeatherService.caught_when_parsing (exn_cls e) = false).
Proof.
  split; [ | split; [ | split]].
  - intros e He. unfold WeatherService.get_weather. rewrite He. reflexivity.
  - intros d Hd Hcod. unfold WeatherService.get_weather. rewrite Hd.
    cbn [mbind result_bind Py.bind py_get]. rewrite Hcod. reflexivity.
  - intros weather_data H. pose proof (get_weather_shape city) as Hshape.
    rewrite H in Hshape. exact Hshape.
  - intros e H. pose proof (get_weather_shape city) as Hshape.
    rewrite H in Hshape. exact Hshape.
Qed.

Lemma description_ok_false (weather_data : gmap string pyval) :
  description_ok weather_data = false
  <-> exists v, weather_data !! "description" = Some v /\ is_str v = false.
Proof.
  unfold description_ok. destruct (weather_data !! "description") as [v | ].
  - split; [intros H; exists v; split; [reflexivity | exact H] | ].
    intros (v' & [= <-] & H). exact H.
  - split; [discriminate | intros (v & [=] & _)].
Qed.

(** X6. The summary of a snapshot that [get_weather] returned.  Such a
    snapshot is never empty and holds all seven keys, so
    [format_weather_response] never answers that the data is unavailable and
    none of its placeholders ([N/A], [Unknown]) is used: every field is the
    rendering of the stored value, [None] for a reading the provider left
    out.  The summary raises exactly when the stored description is not a
    string. *)
Theorem format_weather_response_after_get_weather
    (city : string) (weather_data : gmap string pyval) :
  WeatherService.get_weather http_get_json city = Ok (Some weather_data) ->
  dict_truthy weather_data = true
  /\ (forall key dflt, key ∈ snapshot_keys ->
       exists v, weather_data !! key = Some v
         /\ WeatherService.field float_repr container_repr weather_data key dflt
            = py_str float_repr container_repr v)
  /\ (raises (WeatherService.format_weather_response float_repr container_repr
                weather_data)
      <-> exists v, weather_data !! "description" = Some v /\ is_str v = false).
Proof.
  intros H. pose proof (get_weather_shape city) as Hshape.
  rewrite H in Hshape. destruct Hshape as (Hdom & d & _ & _ & Hcity).
  assert (dict_truthy weather_data = true) as Htruthy.
  { unfold dict_truthy. destruct (size weather_data) eqn:Hsize; [ | reflexivity].
    apply map_size_empty_inv in Hsize. rewrite Hsize, lookup_empty in Hcity.
    discriminate. }
  split; [exact Htruthy | ]. split.
  - intros key dflt Hkey. rewrite <- Hdom in Hkey.
    apply elem_of_dom in Hkey as [v Hv]. exists v. split; [exact Hv | ].
    unfold WeatherService.field. rewrite Hv. reflexivity.
  - rewrite format_weather_response_raises, description_ok_false.
    split; [intros [_ Hd]; exact Hd | intros Hd; split; [exact Htruthy | exact Hd]].
Qed.
End LookupProperties.

(** An answer of the provider without readings. *)
Lemma format_weather_response_after_get_weather_witness :
  dict_truthy Fixtures.sparse_snapshot = true
  /\ (forall key dflt, key ∈ snapshot_keys ->
       exists v, Fixtures.sparse_snapshot !! key = Some v
         /\ WeatherService.field Fixtures.no_repr Fixtures.no_repr
              Fixtures.sparse_snapshot key dflt
            = py_str Fixtures.no_repr Fixtures.no_repr v)
  /\ (raises (WeatherService.format_weather_response Fixtures.no_repr Fixtures.no_repr
                Fixtures.sparse_snapshot)
      <-> exists v, Fixtures.sparse_snapshot !! "description" = Some v
                    /\ is_str v = false).
Proof.
  apply (format_weather_response_after_get_weather Fixtures.sparse_answer
           Fixtures.no_repr Fixtures.no_repr "Paris" Fixtures.sparse_snapshot).
  reflexivity.
Defined.

Section NodeProperties.
Variable llm_invoke : list message_like -> result pyval.
Variable http_get_json : string -> result pyval.
Variables (float_repr : float -> string) (container_repr : pyval -> string).

Lemma ask_cases (system human : string) :
  ask llm_invoke system human
  = Ok {[ "content" :=
            answer_of llm_invoke
              [MsgObject (SystemMessage system); MsgObject (HumanMessage human)] ]}.
Proof.
  rewrite invoke_objects. unfold answer_of. destruct (llm_invoke _); reflexivity.
Qed.

Lemma fetch_weather_cases (state : GraphState) :
  fetch_weather llm_invoke http_get_json state
  = Ok (mkUpdate None
          (Some match answer_of llm_invoke (city_messages state) with
                | PyStr s =>
                    snapshot_or_empty (WeatherService.get_weather http_get_json (strip s))
                | _ => ∅
                end)
          None None None).
Proof.
  unfold fetch_weather, city_messages. rewrite ask_cases.
  cbn [mbind result_bind Py.bind]. rewrite getitem_content.
  cbn [mbind result_bind Py.bind].
  destruct (answer_of llm_invoke _) as [ | b | z | f | s | l | d]; try reflexivity.
  cbn [mbind result_bind Py.bind str_method].
  destruct (WeatherService.get_weather http_get_json (strip s)) as [[wd | ] | e];
    reflexivity.
Qed.


Lemma join_strings_ok (sep : string) (texts : list string) :
  join sep (PyStr <$> texts) = Ok (join_strings sep texts).
Proof.
  induction texts as [ | s texts IH]; [reflexivity | ].
  destruct texts as [ | s' texts]; [reflexivity | ].
  change (join sep (PyStr <$> s :: s' :: texts))
    with (tail ← join sep (PyStr <$> s' :: texts); Ok (s ++ sep ++ tail)).
  rewrite IH. reflexivity.
Qed.

Lemma join_raises (sep : string) (l : list pyval) :
  Exists (fun v => is_str v = false) l -> raises (join sep l).
Proof.
  induction l as [ | v l IH]; intros H; [inversion H | ].
  destruct v as [ | b | z | f | s | l' | d]; try exact I.
  inversion H as [? ? Hv | ? ? Hl]; subst; [discriminate | ].
  specialize (IH Hl). destruct l as [ | v' l]; [inversion Hl | ].
  change (join sep (PyStr s :: v' :: l))
    with (tail ← join sep (v' :: l); Ok (s ++ sep ++ tail)).
  destruct (join sep (v' :: l)); [destruct IH | exact I].
Qed.

(** X8. [generate_response] on a weather state never raises and writes
    [final_response] only.  Without weather data it is the fixed sentence
    that the weather could not be retrieved, and with a description that is
    not a string it is the apology of the node; in both cases the model is
    not consulted.  Otherwise it is the answer of the model to the weather
    prompt with the summary, or the apology of the model service when that
    call fails. *)
Theorem generate_response_weather (state : GraphState) :
  intent state = "weather" ->
  exists response,
    generate_response llm_invoke float_repr container_repr state
      = Ok (mkUpdate None None None (Some response) None)
    /\ (dict_truthy (weather_data state) = false -> response = PyStr NO_WEATHER)
    /\ (dict_truthy (weather_data state) = true ->
        description_ok (weather_data state) = false ->
        response = PyStr GENERATE_APOLOGY)
    /\ (dict_truthy (weather_data state) = true ->
        forall weather_text,
          WeatherService.format_weather_response float_repr container_repr
            (weather_data state) = Ok weather_text ->
          response = answer_of llm_invoke (weather_messages state weather_text)).
Proof.
  intros Hintent. unfold generate_response. rewrite Hintent.
  cbn [String.eqb Ascii.eqb Bool.eqb]. unfold _generate_weather_response.
  destruct (dict_truthy (weather_data state)) eqn:Htruthy; cbn [negb].
  - destruct (WeatherService.format_weather_response float_repr container_repr
                (weather_data state)) as [text | e] eqn:Hformat.
    + cbn [mbind result_bind Py.bind]. rewrite ask_cases.
      cbn [mbind result_bind Py.bind]. rewrite getitem_content.
      eexists. split; [reflexivity | ].
      split; [discriminate | ]. split.
      * intros _ Hd.
        assert (raises (WeatherService.format_weather_response float_repr container_repr
                          (weather_data state))) as Hr
          by (apply format_weather_response_raises; split; assumption).
        rewrite Hformat in Hr. destruct Hr.
      * intros _ text' [= <-]. reflexivity.
    + eexists. split; [reflexivity | ].
      split; [discriminate | ]. split; [reflexivity | ].
      intros _ text [=].
  - eexists. split; [reflexivity | ].
    split; [reflexivity | ]. split; discriminate.
Qed.

(** X9. [generate_response] on a state whose intent is not ["weather"]
    never raises and writes [final_response] only.  Without retrieved
    documents it is the fixed sentence that nothing relevant was found, and
    with a document whose text is not a string it is the apology of the
    node; in both cases the model is not consulted.  Otherwise it is the
    answer of the model to the document prompt, whose context is the texts
    in retrieval order separated by blank lines, or the apology of the model
    service when that call fails. *)
Theorem generate_response_documents (state : GraphState) :
  intent state <> "weather" ->
  exists response,
    generate_response llm_invoke float_repr container_repr state
      = Ok (mkUpdate None None None (Some response) None)
    /\ (retrieved_docs state = [] -> response = PyStr NO_DOCUMENTS)
    /\ (Exists (fun d => is_str (doc_text d) = false) (retrieved_docs state) ->
        response = PyStr GENERATE_APOLOGY)
    /\ (forall texts,
          retrieved_docs state <> [] ->
          doc_text <$> retrieved_docs state = PyStr <$> texts ->
          response = answer_of llm_invoke
                       (pdf_messages state (join_strings (NL ++ NL) texts))).
Proof.
  intros Hintent. unfold generate_response.
  destruct (String.eqb (intent state) "weather") eqn:Heq;
    [apply String.eqb_eq in Heq; contradiction | ].
  unfold _generate_pdf_response.
  destruct (retrieved_docs state) as [ | doc docs] eqn:Hdocs.
  - eexists. split; [reflexivity | ].
    split; [reflexivity | ]. split; [intros H; inversion H | ].
    intros texts Hne. contradiction.
  - destruct (join (NL ++ NL) (doc_text <$> doc :: docs)) as [context | e] eqn:Hjoin.
    + cbn [mbind result_bind Py.bind]. rewrite ask_cases.
      cbn [mbind result_bind Py.bind]. rewrite getitem_content.
      eexists. split; [reflexivity | ].
      split; [discriminate | ]. split.
      * intros Hex.
        assert (raises (join (NL ++ NL) (doc_text <$> doc :: docs))) as Hr.
        { apply join_raises. apply Exists_exists in Hex as (d & Hd & Hs).
          apply Exists_exists. exists (doc_text d). split; [ | exact Hs].
          apply list_elem_of_fmap. exists d. split; [reflexivity | exact Hd]. }
        rewrite Hjoin in Hr. destruct Hr.
      * intros texts _ Htexts. rewrite Htexts, join_strings_ok in Hjoin.
        injection Hjoin as <-. reflexivity.
    + cbn [mbind result_bind Py.bind try_except].
      eexists. split; [reflexivity | ].
      split; [discriminate | ]. split; [reflexivity | ].
      intros texts _ Htexts. rewrite Htexts, join_strings_ok in Hjoin. discriminate.
Qed.

End NodeProperties.

(** A weather state without data, the model down. *)
Lemma generate_response_weather_witness :
  exists response,
    generate_response Fixtures.llm_down Fixtures.no_repr Fixtures.no_repr
      (mkState "Will it rain in Paris?" "weather" ∅ [] (PyStr "") ∅)
      = Ok (mkUpdate None None None (Some response) None)
    /\ response = PyStr NO_WEATHER.
Proof.
  destruct (generate_response_weather Fixtures.llm_down Fixtures.no_repr Fixtures.no_repr
              (mkState "Will it rain in Paris?" "weather" ∅ [] (PyStr "") ∅))
    as (response & Hrun & Hempty & _).
  - reflexivity.
  - exists response. split; [exact Hrun | apply Hempty; reflexivity].
Defined.

(** The state before any node ran, the model down. *)
Lemma generate_response_documents_witness :
  exists response,
    generate_response Fixtures.llm_down Fixtures.no_repr Fixtures.no_repr
      (initial_state "What does the report say?")
      = Ok (mkUpdate None None None (Some response) None)
    /\ response = PyStr NO_DOCUMENTS.
Proof.
  destruct (generate_response_documents Fixtures.llm_down Fixtures.no_repr
              Fixtures.no_repr (initial_state "What does the report say?"))
    as (response & Hrun & Hempty & _).
  - discriminate.
  - exists response. split; [exact Hrun | apply Hempty; reflexivity].
Defined.

(* ===================================================================== *)
(** * The workflow, node by node                                        *)
(* ===================================================================== *)

Section PipelineProperties.
Context {W : Type}.
Variable llm_invoke : list message_like -> result pyval.
Variable http_get_json : string -> result pyval.
Variables (float_repr : float -> string) (container_repr : pyval -> string).
Variable client : QdrantClient W.
Variable encode : list string -> result (list PDFService.vector).

Lemma classify_intent_writes (state : GraphState) :
  exists i c,
    classify_intent llm_invoke state
      = Ok (mkUpdate (Some i) None None None (Some {[ "intent_classification" := PyStr c ]}))
    /\ (i = "weather" \/ i = "pdf").
Proof.
  rewrite classify_intent_cases.
  destruct (llm_invoke (classify_messages state)) as [[ | b | z | f | a | l | d] | e];
    try (eexists; eexists; split; [reflexivity | right; reflexivity]).
  destruct (valid_intent (lower (strip a))) eqn:Hv.
  - eexists; eexists. split; [reflexivity | ]. apply valid_intent_spec, Hv.
  - eexists; eexists. split; [reflexivity | right; reflexivity].
Qed.

Lemma generate_response_writes (state : GraphState) :
  exists response,
    generate_response llm_invoke float_repr container_repr state
      = Ok (mkUpdate None None None (Some response) None).
Proof.
  unfold generate_response, try_except.
  destruct (if String.eqb (intent state) "weather" then _ else _) as [response | e];
    eexists; reflexivity.
Qed.

Lemma retrieve_from_pdf_cases (state : GraphState) (s : VS W) :
  exists docs,
    search_similar client encode (query state) 3 s
      = (Ok docs, snd (search_similar client encode (query state) 3 s))
    /\ retrieve_from_pdf client encode state s
       = (Ok (mkUpdate None None (Some docs) None None),
          snd (search_similar client encode (query state) 3 s)).
Proof.
  destruct (search_similar_returns client encode (query state) 3 s) as (docs & Hdocs).
  exists docs. unfold retrieve_from_pdf, try_exceptM, mbindM, ret.
  destruct (search_similar client encode (query state) 3 s) as [r s'].
  cbn in Hdocs. subst r. split; reflexivity.
Qed.

(** A run of the workflow, by the branch taken. *)
Lemma run_outcome (state : GraphState) (s : VS W) :
  exists i c wd docs response s',
    run llm_invoke http_get_json float_repr container_repr client encode state s
      = (Ok (mkState (query state) i wd docs response
               {[ "intent_classification" := PyStr c ]}), s')
    /\ ((i = "weather" /\ docs = retrieved_docs state /\ s' = s)
        \/ (i = "pdf" /\ wd = weather_data state
            /\ search_similar client encode (query state) 3 s = (Ok docs, s'))).
Proof.
  unfold run. unfold mbindM at 1. unfold lift at 1.
  destruct (classify_intent_writes state) as (i & c & -> & Hclosed).
  unfold mbindM at 1. unfold lift at 1. unfold _route_by_intent.
  change (intent (apply_update state _)) with i.
  destruct Hclosed as [-> | ->]; cbn [conditional_edges String.eqb Ascii.eqb Bool.eqb];
    unfold mbindM at 1.
  - unfold lift at 1. rewrite fetch_weather_cases.
    unfold mbindM, lift, ret.
    match goal with
    | |- context [generate_response _ _ _ ?st] =>
        destruct (generate_response_writes st) as (response & ->)
    end.
    eexists; eexists; eexists; eexists; eexists; eexists.
    split; [reflexivity | ]. left. split; [reflexivity | split; reflexivity].
  - match goal with
    | |- context [retrieve_from_pdf _ _ ?st s] =>
        destruct (retrieve_from_pdf_cases st s) as (docs & Hsearch & ->)
    end.
    unfold mbindM, lift, ret.
    match goal with
    | |- context [generate_response _ _ _ ?st] =>
        destruct (generate_response_writes st) as (response & ->)
    end.
    eexists; eexists; eexists; eexists; eexists; eexists.
    split; [reflexivity | ]. right. split; [reflexivity | split; [reflexivity | ]].
    exact Hsearch.
Qed.

Lemma search_similar_local (query : string) (limit : Z) (s : VS W) :
  use_cloud s = false ->
  search_similar client encode query limit s
  = (Ok (match records s, PDFService.create_query_embedding encode query with
         | [], _ | _, [] => []
         | store, q => to_result <$> slice_to limit (sort_desc fst (similarities q store))
         end), s).
Proof.
  intros Hlocal. unfold search_similar. unfold mbindM at 1. unfold get_use_cloud.
  rewrite Hlocal. apply _search_memory_cases.
Qed.

(** X10. On the local backend [retrieve_from_pdf] never raises, writes
    [retrieved_docs] only and leaves the store as it was: at most three
    documents, each with a string as its text, and none when the store holds
    no record. *)
Theorem retrieve_from_pdf_local (state : GraphState) (s : VS W) :
  use_cloud s = false ->
  exists docs,
    retrieve_from_pdf client encode state s
      = (Ok (mkUpdate None None (Some docs) None None), s)
    /\ (length docs <= 3)%nat
    /\ Forall (fun d => is_str (doc_text d) = true) docs
    /\ (records s = [] -> docs = []).
Proof.
  intros Hlocal.
  destruct (retrieve_from_pdf_cases state s) as (docs & Hsearch & ->).
  rewrite (search_similar_local _ _ _ Hlocal) in Hsearch |- *.
  injection Hsearch as <-. cbn [snd]. eexists. split; [reflexivity | ].
  destruct (records s) as [ | item store];
    [split; [cbn; lia | split; [constructor | intros _; reflexivity]] | ].
  destruct (PDFService.create_query_embedding encode (query state)) as [ | x q];
    [split; [cbn; lia | split; [constructor | intros _; reflexivity]] | ].
  split; [ | split; [ | discriminate]].
  - rewrite length_fmap. unfold slice_to. cbn [Z.leb Z.compare].
    rewrite length_take. change (Z.to_nat 3) with 3%nat. lia.
  - apply Forall_fmap, Forall_forall. intros p _. reflexivity.
Qed.

(** X11. A query through the workflow of this repository never reaches the
    handler of the driver: [process_query] returns the mapping built from
    the final state, whose intent is ["weather"] or ["pdf"] (never
    ["unknown"]) and whose metadata is the single entry
    [intent_classification].  Exactly one branch runs: a weather query
    retrieves no document and leaves the store untouched, a document query
    carries no weather data. *)
Theorem process_query_compiled (query : string) (s : VS W) :
  exists final s',
    process_query
      (compiled llm_invoke http_get_json float_repr container_repr client encode)
      query s = (Ok (package query final), s')
    /\ GraphNodes.query final = query
    /\ (intent final = "weather" \/ intent final = "pdf")
    /\ (exists c, metadata final = {[ "intent_classification" := PyStr c ]})
    /\ (intent final = "weather" -> retrieved_docs final = [] /\ s' = s)
    /\ (intent final = "pdf" ->
        weather_data final = ∅
        /\ search_similar client encode query 3 s = (Ok (retrieved_docs final), s')).
Proof.
  unfold process_query. rewrite driver_cases. cbn [invoke compiled].
  destruct (run_outcome (initial_state query) s)
    as (i & c & wd & docs & response & s' & -> & Hbranch).
  eexists; eexists. split; [reflexivity | ]. cbn.
  split; [reflexivity | ].
  split; [destruct Hbranch as [(-> & _) | (-> & _)]; [left | right]; reflexivity | ].
  split; [exists c; reflexivity | ].
  destruct Hbranch as [(-> & -> & ->) | (-> & -> & Hsearch)].
  - split; [intros _; split; reflexivity | discriminate].
  - split; [discriminate | intros _; split; [reflexivity | exact Hsearch]].
Qed.

Lemma process_query_local (query : string) (s : VS W) :
  use_cloud s = false ->
  exists final,
    process_query
      (compiled llm_invoke http_get_json float_repr container_repr client encode)
      query s = (Ok (package query final), s)
    /\ (records s = [] -> retrieved_docs final = []).
Proof.
  intros Hlocal. unfold process_query. rewrite driver_cases. cbn [invoke compiled].
  destruct (run_outcome (initial_state query) s)
    as (i & c & wd & docs & response & s' & -> & Hbranch).
  destruct Hbranch as [(-> & -> & ->) | (-> & -> & Hsearch)].
  - eexists. split; [reflexivity | ]. intros _. reflexivity.
  - cbn [GraphNodes.query initial_state] in Hsearch.
    rewrite (search_similar_local _ _ _ Hlocal) in Hsearch.
    injection Hsearch as <- <-. eexists. split; [reflexivity | ].
    cbn. intros ->. reflexivity.
Qed.

(** X12. Querying never indexes anything.  On the local backend a session
    of queries leaves the instance of the pipeline exactly as it was and
    every query gets its mapping; when that instance holds no record - as
    the one built without both Qdrant settings does - every mapping reports
    [retrieved_docs_count = 0]. *)
Theorem queries_never_index (queries : list string) (s : VS W) :
  use_cloud s = false ->
  exists results,
    ask_all (compiled llm_invoke http_get_json float_repr container_repr client encode)
      queries s = (results, s)
    /\ length results = length queries
    /\ Forall (fun r => exists m, r = Ok m) results
    /\ (records s = [] ->
        Forall (fun r => exists m,
                  r = Ok m /\ m !! "retrieved_docs_count" = Some (PyInt 0)) results)
    /\ (forall url key w,
          url = "" \/ key = "" ->
          use_cloud (__init__ client url key w) = false
          /\ records (__init__ client url key w) = []).
Proof.
  intros Hlocal.
  assert (exists results,
            ask_all (compiled llm_invoke http_get_json float_repr container_repr
                       client encode) queries s = (results, s)
            /\ length results = length queries
            /\ Forall (fun r => exists m, r = Ok m) results
            /\ (records s = [] ->
                Forall (fun r => exists m,
                          r = Ok m /\ m !! "retrieved_docs_count" = Some (PyInt 0))
                  results)) as (results & H1 & H2 & H3 & H4).
  { induction queries as [ | q queries IH].
    - exists []. repeat split; constructor.
    - destruct IH as (results & Hrun & Hlen & Hok & Hzero).
      destruct (process_query_local q s Hlocal) as (final & Hq & Hdocs).
      exists (Ok (package q final) :: results). cbn [ask_all].
      rewrite Hq, Hrun. split; [reflexivity | ].
      split; [cbn; rewrite Hlen; reflexivity | ].
      split; [constructor; [eexists; reflexivity | exact Hok] | ].
      intros Hempty. constructor; [ | apply Hzero, Hempty].
      eexists. split; [reflexivity | ].
      unfold package. rewrite (Hdocs Hempty). reflexivity. }
  exists results. repeat split; try assumption.
  - unfold __init__. destruct H as [-> | ->]; [reflexivity | ].
    rewrite andb_false_r. reflexivity.
  - unfold __init__. destruct H as [-> | ->]; [reflexivity | ].
    rewrite andb_false_r. reflexivity.
Qed.

End PipelineProperties.

(** The store of three records, asked which way is east. *)
Lemma retrieve_from_pdf_local_witness :
  exists docs,
    retrieve_from_pdf Fixtures.client_down (Fixtures.encode_as Fixtures.e1)
      (initial_state "which way is east?") Fixtures.three_records
      = (Ok (mkUpdate None None (Some docs) None None), Fixtures.three_records)
    /\ (length docs <= 3)%nat.
Proof.
  destruct (retrieve_from_pdf_local Fixtures.client_down (Fixtures.encode_as Fixtures.e1)
              (initial_state "which way is east?") Fixtures.three_records)
    as (docs & Hrun & Hlen & _).
  - reflexivity.
  - exists docs. split; [exact Hrun | exact Hlen].
Defined.

(** Two queries on the instance built without credentials. *)
Lemma queries_never_index_witness :
  exists results,
    ask_all (compiled Fixtures.llm_down Fixtures.http_down Fixtures.no_repr
               Fixtures.no_repr Fixtures.client_down (Fixtures.encode_as Fixtures.e1))
      ["What does the report say?"; "And the appendix?"] Fixtures.local_store
      = (results, Fixtures.local_store)
    /\ Forall (fun r => exists m,
                 r = Ok m /\ m !! "retrieved_docs_count" = Some (PyInt 0)) results.
Proof.
  destruct (queries_never_index Fixtures.llm_down Fixtures.http_down Fixtures.no_repr
              Fixtures.no_repr Fixtures.client_down (Fixtures.encode_as Fixtures.e1)
              ["What does the report say?"; "And the appendix?"] Fixtures.local_store)
    as (results & Hrun & _ & _ & Hzero & _).
  - reflexivity.
  - exists results. split; [exact Hrun | apply Hzero; reflexivity].
Defined.

(** ** From the query to the answer *)

Section EndToEnd.
Context {W : Type}.
Variable llm_invoke : list message_like -> result pyval.
Variable http_get_json : string -> result pyval.
Variables (float_repr : float -> string) (container_repr : pyval -> string).
Variable client : QdrantClient W.
Variable encode : list string -> result (list PDFService.vector).

Lemma fetch_weather_down (state : GraphState) :
  (forall city,
     snapshot_or_empty (WeatherService.get_weather http_get_json city) = ∅) ->
  fetch_weather llm_invoke http_get_json state
  = Ok (mkUpdate None (Some ∅) None None None).
Proof.
  intros Hdown. rewrite fetch_weather_cases.
  destruct (answer_of llm_invoke (city_messages state)); try reflexivity.
  rewrite Hdown. reflexivity.
Qed.

(** X30. Two answers a query gets without the model writing them.  When
    the classifier's answer says ["weather"] and no lookup yields a snapshot,
    [process_query] returns the fixed sentence that the weather could not be
    retrieved, with empty weather data.  When the classifier's answer is
    anything else and the store is on the local backend without records, it
    returns the fixed sentence that nothing relevant was found, with no
    retrieved document.  In both cases the store is left as it was. *)
Theorem process_query_fixed_answers (query : string) (s : VS W) :
  (forall a,
     llm_invoke (classify_messages (initial_state query)) = Ok (PyStr a) ->
     says "weather" a ->
     (forall city,
        snapshot_or_empty (WeatherService.get_weather http_get_json city) = ∅) ->
     process_query
       (compiled llm_invoke http_get_json float_repr container_repr client encode)
       query s
     = (Ok (package query
              (mkState query "weather" ∅ [] (PyStr NO_WEATHER)
                 {[ "intent_classification" := PyStr "weather" ]})), s))
  /\ ((forall a,
         llm_invoke (classify_messages (initial_state query)) = Ok (PyStr a) ->
         ~ says "weather" a) ->
      use_cloud s = false ->
      records s = [] ->
      exists c,
        process_query
          (compiled llm_invoke http_get_json float_repr container_repr client encode)
          query s
        = (Ok (package query
                 (mkState query "pdf" ∅ [] (PyStr NO_DOCUMENTS)
                    {[ "intent_classification" := PyStr c ]})), s)).
Proof.
  split.
  - intros a Hllm Hweather Hdown.
    apply (strip_lower_says "weather" a eq_refl) in Hweather.
    unfold process_query. rewrite driver_cases. cbn [invoke compiled].
    unfold run. unfold mbindM at 1. unfold lift at 1.
    rewrite classify_intent_cases, Hllm. cbv zeta. rewrite Hweather.
    cbn [valid_intent String.eqb Ascii.eqb Bool.eqb orb].
    unfold mbindM at 1. unfold lift at 1.
    cbn [_route_by_intent apply_update upd_intent default from_option id intent
         conditional_edges String.eqb Ascii.eqb Bool.eqb].
    unfold mbindM at 1. unfold lift at 1. rewrite (fetch_weather_down _ Hdown).
    unfold mbindM, lift, ret. reflexivity.
  - intros Hother Hlocal Hempty.
    unfold process_query. rewrite driver_cases. cbn [invoke compiled].
    unfold run. unfold mbindM at 1. unfold lift at 1.
    rewrite classify_intent_cases.
    assert (exists c,
              match llm_invoke (classify_messages (initial_state query)) with
              | Ok (PyStr s0) =>
                  let intent :=
                    if valid_intent (lower (strip s0)) then lower (strip s0) else "pdf" in
                  Ok (mkUpdate (Some intent) None None None
                        (Some {[ "intent_classification" := PyStr intent ]}))
              | Ok _ =>
                  Ok (mkUpdate (Some "pdf") None None None
                        (Some {[ "intent_classification" := PyStr "error" ]}))
              | Raise _ =>
                  Ok (mkUpdate (Some "pdf") None None None
                        (Some {[ "intent_classification" := PyStr "pdf" ]}))
              end
              = Ok (mkUpdate (Some "pdf") None None None
                      (Some {[ "intent_classification" := PyStr c ]}))) as (c & ->).
    { destruct (llm_invoke (classify_messages (initial_state query)))
        as [[ | b | z | f | a | l | d] | e] eqn:Hllm;
        try (eexists; reflexivity).
      cbv zeta. destruct (valid_intent (lower (strip a))) eqn:Hv;
        [ | eexists; reflexivity].
      apply valid_intent_spec in Hv as [Hw | Hp].
      - exfalso. apply (Hother a eq_refl), (strip_lower_says "weather" a eq_refl), Hw.
      - rewrite Hp. eexists; reflexivity. }
    exists c.
    unfold mbindM at 1. unfold lift at 1.
    cbn [_route_by_intent apply_update upd_intent default from_option id intent
         conditional_edges String.eqb Ascii.eqb Bool.eqb].
    unfold mbindM at 1. unfold retrieve_from_pdf, try_exceptM. unfold mbindM at 1.
    rewrite (search_similar_local client encode _ _ _ Hlocal), Hempty.
    unfold mbindM, lift, ret. reflexivity.
Qed.

End EndToEnd.

(* ===================================================================== *)
(** * The vector store, method by method                                *)
(* ===================================================================== *)

Section StoreFrames.
Context {W : Type}.
Variable client : QdrantClient W.
Variable encode : list string -> result (list PDFService.vector).
Variable uuid4 : nat -> string.

Lemma call_cases {A} (f : W -> result A * W) (s : VS W) :
  call f s = (fst (f (remote s)), with_remote s (snd (f (remote s)))).
Proof. unfold call. destruct (f (remote s)); reflexivity. Qed.

Lemma with_draws_0 (s : VS W) : with_draws s 0 = s.
Proof. destruct s. unfold with_draws. cbn. rewrite Nat.add_0_r. reflexivity. Qed.

Lemma build_points_closed metadata (pairs : list (string * PDFService.vector)) :
  forall i (s : VS W),
    build_points uuid4 i pairs metadata s
    = (Ok (cloud_points uuid4 metadata i (uuid_drawn s) pairs),
       with_draws s (length pairs)).
Proof.
  induction pairs as [ | [chunk embedding] pairs IH]; intros i s.
  - cbn. rewrite with_draws_0. reflexivity.
  - cbn [build_points]. unfold mbindM at 1. unfold draw_uuid at 1.
    unfold mbindM at 1. rewrite IH. unfold ret, with_draws. cbn.
    do 2 f_equal. lia.
Qed.

Lemma _store_cloud_try_closed chunks embeddings metadata (s : VS W) :
  _store_cloud_try client uuid4 chunks embeddings metadata s
  = let points := cloud_points uuid4 metadata 0 (uuid_drawn s) (zip chunks embeddings) in
    let r := upsert client (collection_name s) points (remote s) in
    (match fst r with
     | Ok _ => Ok true
     | Raise e => Raise e
     end,
     with_remote (with_draws s (length (zip chunks embeddings))) (snd r)).
Proof.
  unfold _store_cloud_try. unfold mbindM at 1. rewrite build_points_closed.
  unfold mbindM at 1. unfold get_collection_name at 1. unfold mbindM.
  rewrite call_cases. cbn.
  destruct (upsert client _ _ _) as [[[] | e] w']; reflexivity.
Qed.

Lemma _store_memory_closed chunks embeddings metadata (s : VS W) :
  _store_memory uuid4 chunks embeddings metadata s
  = match _memory_store s with
    | Some store =>
        (Ok true,
         mkVS (use_cloud s)
           (Some (store ++ new_records uuid4 metadata 0 (uuid_drawn s)
                             (zip chunks embeddings))%list)
           (collection_name s) (remote s)
           (uuid_drawn s + length (zip chunks embeddings))%nat)
    | None => (Ok (negb (non_empty_batch chunks embeddings)), s)
    end.
Proof.
  unfold _store_memory, try_exceptM. unfold mbindM at 1.
  destruct (_memory_store s) as [store | ] eqn:Hstore.
  - rewrite (for_enumerate_append_closed uuid4 metadata _ 0%nat s store Hstore).
    reflexivity.
  - destruct chunks as [ | chunk chunks]; [reflexivity | ].
    destruct embeddings as [ | embedding embeddings]; [reflexivity | ].
    cbn. unfold mbindM at 1. unfold append_record. unfold mbindM at 1.
    unfold get_memory_store. rewrite Hstore. reflexivity.
Qed.

Lemma store_embeddings_closed chunks embeddings metadata (s : VS W) :
  store_embeddings client uuid4 chunks embeddings metadata s
  = if use_cloud s then
      let points := cloud_points uuid4 metadata 0 (uuid_drawn s) (zip chunks embeddings) in
      let r := upsert client (collection_name s) points (remote s) in
      let s1 := with_remote (with_draws s (length (zip chunks embeddings))) (snd r) in
      match fst r with
      | Ok _ => (Ok true, s1)
      | Raise _ => _store_memory uuid4 chunks embeddings metadata (demoted s1)
      end
    else _store_memory uuid4 chunks embeddings metadata s.
Proof.
  unfold store_embeddings. unfold mbindM at 1. unfold get_use_cloud.
  destruct (use_cloud s); [ | reflexivity].
  unfold _store_cloud, try_exceptM. rewrite _store_cloud_try_closed. cbv zeta.
  destruct (fst (upsert client _ _ _)) as [[] | e]; reflexivity.
Qed.

Lemma _search_cloud_try_closed query limit (s : VS W) :
  _search_cloud_try client encode query limit s
  = match PDFService.create_query_embedding encode query with
    | [] => (Ok [], s)
    | q =>
        let r := search client (collection_name s) q limit (remote s) in
        (match fst r with
         | Ok hits => map_results format_hit hits
         | Raise e => Raise e
         end, with_remote s (snd r))
    end.
Proof.
  unfold _search_cloud_try.
  destruct (PDFService.create_query_embedding encode query) as [ | x q]; [reflexivity | ].
  unfold mbindM at 1. unfold get_collection_name at 1. unfold mbindM.
  rewrite call_cases. cbv zeta.
  destruct (fst (search client _ _ _ _)) as [hits | e]; reflexivity.
Qed.

Lemma search_similar_closed query limit (s : VS W) :
  search_similar client encode query limit s
  = if use_cloud s then
      match PDFService.create_query_embedding encode query with
      | [] => (Ok [], s)
      | q =>
          let r := search client (collection_name s) q limit (remote s) in
          match fst r ≫= map_results format_hit with
          | Ok docs => (Ok docs, with_remote s (snd r))
          | Raise _ => _search_memory encode query limit (demoted (with_remote s (snd r)))
          end
      end
    else _search_memory encode query limit s.
Proof.
  unfold search_similar. unfold mbindM at 1. unfold get_use_cloud.
  destruct (use_cloud s); [ | reflexivity].
  unfold _search_cloud, try_exceptM. rewrite _search_cloud_try_closed.
  destruct (PDFService.create_query_embedding encode query) as [ | x q]; [reflexivity | ].
  cbv zeta. destruct (fst (search client _ _ _ _)) as [hits | e]; cbn; [ | reflexivity].
  destruct (map_results format_hit hits); reflexivity.
Qed.

Lemma _ensure_collection_try_frame (s : VS W) :
  exists r w', _ensure_collection_try client s = (r, with_remote s w').
Proof.
  unfold _ensure_collection_try. unfold mbindM at 1. rewrite call_cases.
  destruct (fst (get_collections client (remote s))) as [names | e];
    [ | eexists; eexists; reflexivity].
  unfold mbindM, get_collection_name. cbn.
  destruct (bool_decide _); [eexists; eexists; reflexivity | ].
  rewrite call_cases. cbn. eexists; eexists; reflexivity.
Qed.

Lemma _ensure_collection_closed (s : VS W) :
  exists s',
    _ensure_collection client s = (Ok tt, s')
    /\ (s' = s
        \/ (use_cloud s = true
            /\ exists w',
                 s' = with_remote s w'
                 \/ s' = mkVS false (Some []) (collection_name s) w' (uuid_drawn s))).
Proof.
  unfold _ensure_collection. unfold mbindM at 1. unfold get_use_cloud.
  destruct (use_cloud s) eqn:Hcloud; cbn [negb];
    [ | exists s; split; [reflexivity | left; reflexivity]].
  destruct (_ensure_collection_try_frame s) as (r & w' & Htry).
  unfold try_exceptM. rewrite Htry.
  destruct r as [[] | e]; eexists; (split; [reflexivity | ]);
    right; (split; [reflexivity | ]); exists w'; [left | right]; reflexivity.
Qed.

Lemma get_collection_info_closed (s : VS W) :
  get_collection_info client s
  = if use_cloud s then
      let r := get_collection client (collection_name s) (remote s) in
      (Ok match fst r with
          | Ok info =>
              <[ "name" := PyStr (collection_name s) ]>
              (<[ "vector_size" := info_vector_size info ]>
              (<[ "distance" := info_distance info ]>
              (<[ "points_count" := info_points_count info ]>
              (<[ "storage" := PyStr "Qdrant Cloud" ]> ∅))))
          | Raise e =>
              <[ "name" := PyStr (collection_name s) ]>
              (<[ "storage" := PyStr "Qdrant Cloud (error)" ]>
              (<[ "error" := PyStr (str_exn e) ]> ∅))
          end, with_remote s (snd r))
    else
      match _memory_store s with
      | Some store =>
          (Ok (<[ "name" := PyStr (collection_name s) ]>
              (<[ "storage" := PyStr "In-Memory" ]>
              (<[ "points_count" := PyInt (Z.of_nat (length store)) ]>
              (<[ "vector_size" := PyInt 384 ]> ∅)))), s)
      | None => (Raise (attribute_error "_memory_store"), s)
      end.
Proof.
  unfold get_collection_info. unfold mbindM at 1. unfold get_use_cloud.
  unfold mbindM at 1. unfold get_collection_name.
  destruct (use_cloud s).
  - unfold try_exceptM, mbindM. rewrite call_cases. cbv zeta.
    destruct (fst (get_collection client _ _)) as [info | e]; reflexivity.
  - unfold mbindM, get_memory_store. destruct (_memory_store s); reflexivity.
Qed.

Lemma __init___cases (url key : string) (w : W) :
  (url = "" \/ key = "") /\ __init__ client url key w = mkVS false (Some []) "pdf_embeddings" w 0%nat
  \/ (url <> "" /\ key <> ""
      /\ exists w',
           (_ensure_collection_try client (mkVS true None "pdf_embeddings" w 0%nat)
            = (Ok tt, mkVS true None "pdf_embeddings" w' 0%nat)
            /\ __init__ client url key w = mkVS true None "pdf_embeddings" w' 0%nat)
           \/ (exists e,
                 _ensure_collection_try client (mkVS true None "pdf_embeddings" w 0%nat)
                 = (Raise e, mkVS true None "pdf_embeddings" w' 0%nat)
                 /\ __init__ client url key w
                    = mkVS false (Some []) "pdf_embeddings" w' 0%nat)).
Proof.
  unfold __init__.
  destruct (String.eqb url "") eqn:Hurl; cbn [negb andb].
  { apply String.eqb_eq in Hurl. left. split; [left; exact Hurl | reflexivity]. }
  destruct (String.eqb key "") eqn:Hkey; cbn [negb andb].
  { apply String.eqb_eq in Hkey. left. split; [right; exact Hkey | reflexivity]. }
  apply String.eqb_neq in Hurl, Hkey. right.
  split; [exact Hurl | ]. split; [exact Hkey | ].
  destruct (_ensure_collection_try_frame (mkVS true None "pdf_embeddings" w 0%nat))
    as (r & w' & Htry).
  exists w'. unfold _ensure_collection, mbindM, get_use_cloud, try_exceptM.
  cbn [use_cloud negb]. rewrite Htry.
  destruct r as [[] | e]; [left | right; exists e]; split; reflexivity.
Qed.

(** X13. The backend a new instance ends on.  Without one of the two
    Qdrant settings it is the local backend with an empty list and the
    service is not contacted.  With both, it is the persistent backend
    exactly when the collection check went through, and then the instance
    has no in-memory list; when the check raised, it is the local backend
    with an empty list.  Either way the collection is [pdf_embeddings] and
    [get_collection_info] on the new instance does not raise. *)
Theorem __init___backend (url key : string) (w : W) :
  let s := __init__ client url key w in
  collection_name s = "pdf_embeddings"
  /\ uuid_drawn s = 0%nat
  /\ (url = "" \/ key = "" -> s = mkVS false (Some []) "pdf_embeddings" w 0%nat)
  /\ (use_cloud s = true
      <-> url <> "" /\ key <> ""
          /\ exists s1,
               _ensure_collection_try client (mkVS true None "pdf_embeddings" w 0%nat)
               = (Ok tt, s1))
  /\ (use_cloud s = true -> _memory_store s = None)
  /\ (use_cloud s = false -> _memory_store s = Some [])
  /\ ~ raises (fst (get_collection_info client s)).
Proof.
  cbv zeta. rewrite get_collection_info_closed.
  destruct (__init___cases url key w)
    as [(Hno & ->) | (Hurl & Hkey & w' & [(Htry & ->) | (e & Htry & ->)])]; cbn.
  - split; [reflexivity | ]. split; [reflexivity | ]. split; [reflexivity | ].
    split; [split; [discriminate | intros (? & ? & _); destruct Hno; contradiction] | ].
    split; [discriminate | ]. split; [reflexivity | intros []].
  - split; [reflexivity | ]. split; [reflexivity | ].
    split; [intros [? | ?]; contradiction | ].
    split; [split; [intros _ | reflexivity] | ].
    { split; [exact Hurl | split; [exact Hkey | eexists; exact Htry]]. }
    split; [reflexivity | ]. split; [discriminate | intros []].
  - split; [reflexivity | ]. split; [reflexivity | ].
    split; [intros [? | ?]; contradiction | ].
    split; [split; [discriminate | intros (_ & _ & s1 & Hs1)] | ].
    { rewrite Htry in Hs1. discriminate. }
    split; [discriminate | ]. split; [reflexivity | intros []].
Qed.

(** X14. [get_collection_info] raises in one situation only: on the local
    backend of an instance that has no in-memory list.  On the persistent
    backend a failing lookup is reported in the mapping ([storage] is
    ["Qdrant Cloud (error)"], the text of the exception under [error]) and,
    unlike a failing store or search, does not demote the instance.  The
    call never changes the records, the backend or the identifiers drawn;
    on the local backend with a list it reports the number of records. *)
Theorem get_collection_info_outcomes (s : VS W) :
  (raises (fst (get_collection_info client s))
   <-> use_cloud s = false /\ _memory_store s = None)
  /\ use_cloud (snd (get_collection_info client s)) = use_cloud s
  /\ _memory_store (snd (get_collection_info client s)) = _memory_store s
  /\ uuid_drawn (snd (get_collection_info client s)) = uuid_drawn s
  /\ (forall store, use_cloud s = false -> _memory_store s = Some store ->
      get_collection_info client s
      = (Ok (<[ "name" := PyStr (collection_name s) ]>
            (<[ "storage" := PyStr "In-Memory" ]>
            (<[ "points_count" := PyInt (Z.of_nat (length store)) ]>
            (<[ "vector_size" := PyInt 384 ]> ∅)))), s))
  /\ (forall e w', use_cloud s = true ->
      get_collection client (collection_name s) (remote s) = (Raise e, w') ->
      get_collection_info client s
      = (Ok (<[ "name" := PyStr (collection_name s) ]>
            (<[ "storage" := PyStr "Qdrant Cloud (error)" ]>
            (<[ "error" := PyStr (str_exn e) ]> ∅))), with_remote s w')).
Proof.
  rewrite get_collection_info_closed.
  destruct (use_cloud s) eqn:Hcloud.
  - cbv zeta. cbn [fst snd].
    split; [split; [intros [] | intros [[=] _]] | ].
    split; [exact Hcloud | ]. split; [reflexivity | ]. split; [reflexivity | ].
    split; [discriminate | ].
    intros e w' _ Hget. rewrite Hget. reflexivity.
  - destruct (_memory_store s) as [store | ] eqn:Hstore; cbn [fst snd].
    + split; [split; [intros [] | intros [_ [=]]] | ].
      split; [exact Hcloud | ]. split; [exact Hstore | ]. split; [reflexivity | ].
      split; [intros store' _ [= <-]; reflexivity | discriminate].
    + split; [split; [intros _; split; reflexivity | intros _; exact I] | ].
      split; [exact Hcloud | ]. split; [exact Hstore | ]. split; [reflexivity | ].
      split; [intros store' _ [=] | discriminate].
Qed.

(** X15. Store, then count: on the local backend with its list,
    [store_embeddings] returns [True] and [get_collection_info] then reports
    the earlier number of records plus the number of pairs of the batch -
    the shorter of the two lengths - under [points_count]. *)
Theorem store_then_count (s : VS W) (store : list Item)
    (chunks : list string) (embeddings : list PDFService.vector)
    (metadata : option (gmap string pyval)) :
  use_cloud s = false ->
  _memory_store s = Some store ->
  exists s' info,
    store_embeddings client uuid4 chunks embeddings metadata s = (Ok true, s')
    /\ get_collection_info client s' = (Ok info, s')
    /\ info !! "points_count"
       = Some (PyInt (Z.of_nat (length store
                                + Nat.min (length chunks) (length embeddings))))
    /\ info !! "storage" = Some (PyStr "In-Memory").
Proof.
  intros Hlocal Hstore.
  rewrite store_embeddings_closed, Hlocal, _store_memory_closed, Hstore.
  eexists; eexists. split; [reflexivity | ].
  rewrite get_collection_info_closed. cbn [use_cloud _memory_store]. rewrite Hlocal.
  split; [reflexivity | ].
  split; [ | reflexivity].
  rewrite lookup_insert_ne by discriminate.
  rewrite lookup_insert_ne by discriminate.
  rewrite lookup_insert_eq.
  rewrite length_app, new_records_length, length_zip. reflexivity.
Qed.

End StoreFrames.

(** A batch of two chunks and three vectors on the store of
    three records. *)
Lemma store_then_count_witness :
  exists s' info,
    store_embeddings Fixtures.client_down Fixtures.uuid_of ["intro"; "body"]
      [Fixtures.e1; Fixtures.e2; Fixtures.diagonal] None Fixtures.three_records
      = (Ok true, s')
    /\ get_collection_info Fixtures.client_down s' = (Ok info, s')
    /\ info !! "points_count" = Some (PyInt 5).
Proof.
  destruct (store_then_count Fixtures.client_down Fixtures.uuid_of
              Fixtures.three_records
              (default [] (_memory_store Fixtures.three_records))
              ["intro"; "body"] [Fixtures.e1; Fixtures.e2; Fixtures.diagonal] None)
    as (s' & info & Hstore & Hinfo & Hcount & _).
  - reflexivity.
  - reflexivity.
  - exists s', info. split; [exact Hstore | ]. split; [exact Hinfo | exact Hcount].
Defined.

(* ===================================================================== *)
(** * The vector store: what every sequence of operations keeps         *)
(* ===================================================================== *)

Section StoreInvariants.
Context {W : Type}.
Variable client : QdrantClient W.
Variable encode : list string -> result (list PDFService.vector).
Variable uuid4 : nat -> string.

Lemma new_records_ids metadata (pairs : list (string * PDFService.vector)) :
  forall i k,
    item_id <$> new_records uuid4 metadata i k pairs = uuid4 <$> seq k (length pairs).
Proof.
  induction pairs as [ | entry pairs IH]; intros i k; [reflexivity | ].
  cbn. rewrite IH. reflexivity.
Qed.

(** What a call of [_store_memory] does to the list and the draws. *)
Lemma _store_memory_fields chunks embeddings metadata (s : VS W) :
  let s' := snd (_store_memory uuid4 chunks embeddings metadata s) in
  use_cloud s' = use_cloud s
  /\ collection_name s' = collection_name s
  /\ remote s' = remote s
  /\ (uuid_drawn s <= uuid_drawn s')%nat
  /\ (_memory_store s' = _memory_store s
      \/ exists store new m,
           _memory_store s = Some store
           /\ _memory_store s' = Some (store ++ new)%list
           /\ item_id <$> new = uuid4 <$> seq (uuid_drawn s) m
           /\ (uuid_drawn s + m <= uuid_drawn s')%nat).
Proof.
  cbv zeta. rewrite _store_memory_closed.
  destruct (_memory_store s) as [store | ] eqn:Hstore; cbn.
  - repeat split; try lia. right. eexists; eexists; eexists.
    split; [reflexivity | ]. split; [reflexivity | ].
    split; [apply new_records_ids | lia].
  - repeat split; try lia. left. exact Hstore.
Qed.

(** What an operation does to the fields of the instance. *)
Lemma perform_fields (op : operation) (s : VS W) :
  let s' := perform client encode uuid4 op s in
  collection_name s' = collection_name s
  /\ (uuid_drawn s <= uuid_drawn s')%nat
  /\ (use_cloud s' = true -> use_cloud s = true /\ _memory_store s' = _memory_store s)
  /\ ((use_cloud s = true /\ _memory_store s' = Some [])
      \/ _memory_store s' = _memory_store s
      \/ exists store new k m,
           _memory_store s = Some store
           /\ _memory_store s' = Some (store ++ new)%list
           /\ item_id <$> new = uuid4 <$> seq k m
           /\ (uuid_drawn s <= k)%nat
           /\ (k + m <= uuid_drawn s')%nat).
Proof.
  cbv zeta. destruct op as [ | chunks embeddings metadata | query limit | ];
    cbn [perform].
  - destruct (_ensure_collection_closed client s)
      as (s' & -> & [-> | (Hcloud & w' & [-> | ->])]); cbn.
    + repeat split; try lia; try tauto.
    + repeat split; try lia; try tauto.
    + repeat split; try lia; try discriminate. left. split; [exact Hcloud | reflexivity].
  - rewrite store_embeddings_closed.
    destruct (use_cloud s) eqn:Hcloud.
    + cbv zeta. destruct (fst (upsert client _ _ _)) as [[] | e]; cbn [snd].
      * cbn. repeat split; try lia; try tauto.
      * match goal with
        | |- context [_store_memory _ _ _ _ ?s1] =>
            pose proof (_store_memory_fields chunks embeddings metadata s1) as H
        end.
        cbv zeta in H. cbn [demoted with_remote with_draws use_cloud _memory_store
                              collection_name remote uuid_drawn] in H.
        destruct H as (Hc & Hn & _ & Hu & Hm).
        split; [exact Hn | ]. split; [lia | ].
        split; [rewrite Hc; discriminate | ].
        destruct Hm as [Hm | (store & new & m & Hs & Hs' & Hids & Hle)];
          [right; left; exact Hm | ].
        right; right. exists store, new, (uuid_drawn s + length (zip chunks embeddings))%nat, m.
        split; [exact Hs | ]. split; [exact Hs' | ]. split; [exact Hids | ].
        split; [lia | exact Hle].
    + pose proof (_store_memory_fields chunks embeddings metadata s) as H.
      cbv zeta in H. destruct H as (Hc & Hn & _ & Hu & Hm).
      split; [exact Hn | ]. split; [exact Hu | ].
      split; [rewrite Hc, Hcloud; discriminate | ].
      destruct Hm as [Hm | (store & new & m & Hs & Hs' & Hids & Hle)];
        [right; left; exact Hm | ].
      right; right. exists store, new, (uuid_drawn s), m.
      split; [exact Hs | ]. split; [exact Hs' | ]. split; [exact Hids | ].
      split; [lia | exact Hle].
  - rewrite search_similar_closed.
    destruct (use_cloud s) eqn:Hcloud.
    + destruct (PDFService.create_query_embedding encode query) as [ | x q].
      * cbn. repeat split; try lia; try tauto.
      * cbv zeta. destruct (fst (search client _ _ _ _) ≫= map_results format_hit);
          [cbn; repeat split; try lia; try tauto | ].
        rewrite _search_memory_state. cbn.
        repeat split; try lia; try discriminate. right; left; reflexivity.
    + rewrite _search_memory_state.
      repeat split; try lia; try congruence; tauto.
  - rewrite get_collection_info_closed.
    destruct (use_cloud s) eqn:Hcloud.
    + cbn. repeat split; try lia; try tauto.
    + destruct (_memory_store s) eqn:Hstore; cbn;
        repeat split; try lia; try discriminate; try congruence; tauto.
Qed.

Lemma perform_cloud_without_list (op : operation) (s : VS W) :
  cloud_without_list s ->
  cloud_without_list (perform client encode uuid4 op s)
  /\ records s `prefix_of` records (perform client encode uuid4 op s)
  /\ (uuid_drawn s <= uuid_drawn (perform client encode uuid4 op s))%nat.
Proof.
  intros Hinv. destruct (perform_fields op s) as (_ & Hu & Hc & Hm).
  split; [ | split; [ | exact Hu]].
  - intros Hcloud. destruct (Hc Hcloud) as (Hcloud0 & ->). apply Hinv, Hcloud0.
  - unfold records.
    destruct Hm as [(Hcloud & ->) | [-> | (store & new & k & m & -> & -> & _)]].
    + rewrite (Hinv Hcloud). reflexivity.
    + reflexivity.
    + cbn. apply prefix_app_r. reflexivity.
Qed.

Lemma perform_all_snoc (ops : list operation) (op : operation) (s : VS W) :
  perform_all client encode uuid4 (ops ++ [op]) s
  = perform client encode uuid4 op (perform_all client encode uuid4 ops s).
Proof. unfold perform_all. rewrite foldl_snoc. reflexivity. Qed.

(** X16. The records of an instance are append-only.  An instance on the
    persistent backend has no in-memory list, which holds of every new
    instance and is kept by every operation; from such an instance no
    sequence of ensure, store, search and info calls removes or changes a
    record - the earlier records are a prefix of the later ones - and the
    count of identifiers drawn never decreases. *)
Theorem records_append_only :
  (forall url key w, cloud_without_list (__init__ client url key w))
  /\ (forall ops (s : VS W),
        cloud_without_list s ->
        cloud_without_list (perform_all client encode uuid4 ops s)
        /\ records s `prefix_of` records (perform_all client encode uuid4 ops s)
        /\ (uuid_drawn s <= uuid_drawn (perform_all client encode uuid4 ops s))%nat).
Proof.
  split.
  - intros url key w Hcloud.
    destruct (__init___cases client url key w)
      as [(_ & Hs) | (_ & _ & w' & [(_ & Hs) | (e & _ & Hs)])];
      rewrite Hs in Hcloud |- *; [discriminate | reflexivity | discriminate].
  - intros ops. induction ops as [ | op ops IH] using rev_ind; intros s Hinv.
    + split; [exact Hinv | split; [reflexivity | cbn; lia]].
    + rewrite perform_all_snoc. destruct (IH s Hinv) as (Hinv' & Hpre & Hu).
      destruct (perform_cloud_without_list op _ Hinv') as (Hinv'' & Hpre' & Hu').
      split; [exact Hinv'' | ].
      split; [etransitivity; eassumption | lia].
Qed.

Lemma perform_ids_from_draws (op : operation) (s : VS W) :
  ids_from_draws uuid4 s -> ids_from_draws uuid4 (perform client encode uuid4 op s).
Proof.
  intros (draws & Hids & Hnodup & Hlt).
  destruct (perform_fields op s) as (_ & Hu & _ & Hm).
  unfold ids_from_draws, records in *.
  destruct Hm as [(_ & ->) | [-> | (store & new & k & m & Hs & -> & Hnew & Hk & Hkm)]].
  - exists []. split; [reflexivity | ]. split; constructor.
  - exists draws. split; [exact Hids | ]. split; [exact Hnodup | ].
    eapply Forall_impl; [exact Hlt | ]. cbn. intros; lia.
  - rewrite Hs in Hids. cbn in Hids. exists (draws ++ seq k m)%list. cbn.
    rewrite !fmap_app, Hids, Hnew. split; [reflexivity | ]. split.
    + apply NoDup_app. split; [exact Hnodup | ]. split; [ | apply NoDup_seq].
      intros x Hx Hseq. apply elem_of_seq in Hseq.
      rewrite Forall_forall in Hlt. specialize (Hlt x Hx). lia.
    + apply Forall_app. split.
      * eapply Forall_impl; [exact Hlt | ]. cbn. intros; lia.
      * apply Forall_forall. intros x Hseq. apply elem_of_seq in Hseq. lia.
Qed.

(** X17. Identifiers never repeat.  When [uuid4] never returns the same
    identifier twice, the records of an instance carry pairwise different
    identifiers after any sequence of operations on a new instance, across
    batches as well as within one. *)
Theorem ids_never_repeat (url key : string) (w : W) (ops : list operation) :
  Inj (=) (=) uuid4 ->
  ids_from_draws uuid4 (perform_all client encode uuid4 ops (__init__ client url key w))
  /\ NoDup (item_id <$> records
              (perform_all client encode uuid4 ops (__init__ client url key w))).
Proof.
  intros Hinj.
  assert (ids_from_draws uuid4
            (perform_all client encode uuid4 ops (__init__ client url key w))) as Hinv.
  { induction ops as [ | op ops IH] using rev_ind.
    - exists []. cbn.
      destruct (__init___cases client url key w)
        as [(_ & ->) | (_ & _ & w' & [(_ & ->) | (e & _ & ->)])];
        (split; [reflexivity | split; constructor]).
    - rewrite perform_all_snoc. apply perform_ids_from_draws, IH. }
  split; [exact Hinv | ].
  destruct Hinv as (draws & -> & Hnodup & _).
  apply NoDup_fmap_2; assumption.
Qed.

(** X18. Searching reads only.  On either backend [search_similar] leaves
    the records, the identifiers drawn and the collection name as they
    were, also when a failed search demotes the instance; on the local
    backend it leaves the whole instance unchanged. *)
Theorem search_similar_reads_only (query : string) (limit : Z) (s : VS W) :
  _memory_store (snd (search_similar client encode query limit s)) = _memory_store s
  /\ uuid_drawn (snd (search_similar client encode query limit s)) = uuid_drawn s
  /\ collection_name (snd (search_similar client encode query limit s))
     = collection_name s
  /\ (use_cloud s = false -> snd (search_similar client encode query limit s) = s).
Proof.
  rewrite search_similar_closed.
  destruct (use_cloud s) eqn:Hcloud.
  - destruct (PDFService.create_query_embedding encode query) as [ | x q].
    + repeat split; discriminate.
    + cbv zeta. destruct (fst (search client _ _ _ _) ≫= map_results format_hit).
      * repeat split; discriminate.
      * rewrite _search_memory_state. repeat split; discriminate.
  - rewrite _search_memory_state. repeat split; reflexivity.
Qed.

End StoreInvariants.

(** Two batches and a search on the instance built without
    credentials. *)
Lemma ids_never_repeat_witness :
  NoDup (item_id <$> records
           (perform_all Fixtures.client_down (Fixtures.encode_as Fixtures.e1)
              Fixtures.uuid_of
              [StoreEmbeddings ["intro"; "body"] [Fixtures.e1; Fixtures.e2] None;
               SearchSimilar "which way is east?" 3;
               StoreEmbeddings ["appendix"] [Fixtures.diagonal] None]
              (__init__ Fixtures.client_down "" "" tt))).
Proof.
  apply (ids_never_repeat Fixtures.client_down (Fixtures.encode_as Fixtures.e1)
           Fixtures.uuid_of "" "" tt).
  exact uuid_of_inj.
Defined.

(* ===================================================================== *)
(** * The vector store on the persistent backend                        *)
(* ===================================================================== *)

Section CloudProperties.
Context {W : Type}.
Variable client : QdrantClient W.
Variable encode : list string -> result (list PDFService.vector).
Variable uuid4 : nat -> string.

Lemma cloud_points_length metadata (pairs : list (string * PDFService.vector)) :
  forall i k, length (cloud_points uuid4 metadata i k pairs) = length pairs.
Proof.
  induction pairs as [ | entry pairs IH]; intros i k; [reflexivity | ].
  cbn. rewrite IH. reflexivity.
Qed.

Lemma cloud_points_lookup metadata (pairs : list (string * PDFService.vector)) :
  forall i k j p,
    cloud_points uuid4 metadata i k pairs !! j = Some p ->
    exists entry, pairs !! j = Some entry
      /\ p = mkPoint (uuid4 (k + j)) (snd entry) (payload (fst entry) (i + j) metadata).
Proof.
  induction pairs as [ | entry pairs IH]; intros i k j p H; [discriminate | ].
  destruct j as [ | j]; cbn in H.
  - injection H as <-. exists entry. rewrite !Nat.add_0_r. split; reflexivity.
  - destruct (IH _ _ _ _ H) as (entry' & Hentry & ->).
    exists entry'. split; [exact Hentry | ].
    replace (S k + j)%nat with (k + S j)%nat by lia.
    replace (S i + j)%nat with (i + S j)%nat by lia. reflexivity.
Qed.

(** X19. [store_embeddings] on the persistent backend builds one point per
    pair of chunk and vector - as many as the shorter list has - with the
    identifier of a fresh draw, the vector, and the payload of the chunk at
    its position, and hands them to the service in a single [upsert].  When
    that returns, the call returns [True], the instance stays on the
    persistent backend and its in-memory list is untouched; when it raises,
    the instance is demoted and the result is that of the local store, run
    after the identifiers of the failed attempt were drawn. *)
Theorem store_embeddings_cloud (s : VS W)
    (chunks : list string) (embeddings : list PDFService.vector)
    (metadata : option (gmap string pyval)) :
  use_cloud s = true ->
  let points := cloud_points uuid4 metadata 0 (uuid_drawn s) (zip chunks embeddings) in
  length points = Nat.min (length chunks) (length embeddings)
  /\ (forall j p, points !! j = Some p ->
      exists chunk v,
        chunks !! j = Some chunk /\ embeddings !! j = Some v
        /\ p = mkPoint (uuid4 (uuid_drawn s + j)) v (payload chunk j metadata))
  /\ (forall w', upsert client (collection_name s) points (remote s) = (Ok tt, w') ->
      store_embeddings client uuid4 chunks embeddings metadata s
      = (Ok true, mkVS true (_memory_store s) (collection_name s) w'
                    (uuid_drawn s + length points)))
  /\ (forall e w', upsert client (collection_name s) points (remote s) = (Raise e, w') ->
      store_embeddings client uuid4 chunks embeddings metadata s
      = _store_memory uuid4 chunks embeddings metadata
          (mkVS false (_memory_store s) (collection_name s) w'
             (uuid_drawn s + length points))).
Proof.
  intros Hcloud points.
  assert (length points = length (zip chunks embeddings)) as Hlen
    by apply cloud_points_length.
  split; [rewrite Hlen; apply length_zip | ].
  split.
  - intros j p Hp. apply cloud_points_lookup in Hp as (entry & Hentry & ->).
    apply zip_lookup_Some in Hentry as (Hc & Hv).
    exists (fst entry), (snd entry). split; [exact Hc | ]. split; [exact Hv | reflexivity].
  - rewrite store_embeddings_closed, Hcloud. cbv zeta. fold points. rewrite Hlen.
    split.
    + intros w' ->. cbn. unfold with_remote, with_draws. cbn. rewrite Hcloud.
      reflexivity.
    + intros e w' ->. reflexivity.
Qed.

Lemma map_results_format_hit (hits : list ScoredPoint) :
  Forall (fun h => is_Some (hit_payload h)) hits ->
  map_results format_hit hits = Ok (formatted <$> hits).
Proof.
  induction hits as [ | h hits IH]; intros Hall; [reflexivity | ].
  inversion Hall as [ | ? ? [p Hp] Hrest]; subst.
  assert (format_hit h = Ok (formatted h)) as Hh
    by (unfold format_hit, formatted; rewrite Hp; reflexivity).
  cbn [map_results]. rewrite Hh, (IH Hrest). reflexivity.
Qed.

Lemma map_results_format_hit_raises (hits : list ScoredPoint) :
  Exists (fun h => hit_payload h = None) hits ->
  raises (map_results format_hit hits).
Proof.
  induction hits as [ | h hits IH]; intros Hex; [inversion Hex | ].
  cbn [map_results].
  destruct (format_hit h) as [d | e] eqn:Hh; [ | exact I].
  cbn [mbind result_bind Py.bind].
  inversion Hex as [? ? Hnone | ? ? Hrest]; subst.
  - unfold format_hit in Hh. rewrite Hnone in Hh. discriminate.
  - specialize (IH Hrest).
    destruct (map_results format_hit hits); [destruct IH | exact I].
Qed.

(** X20. [search_similar] on the persistent backend.  With an empty query
    embedding it returns no result without contacting the service.
    Otherwise it asks the service once, with the limit as given; when every
    hit has a payload the results are the hits in the order of the service,
    each with the [text] of its payload (the empty string when the payload
    has none), its score, and the payload without [text] as metadata.  One
    hit without a payload makes the whole search fall back: the instance is
    demoted and the result is that of the local search. *)
Theorem search_similar_cloud (s : VS W) (query : string) (limit : Z) :
  use_cloud s = true ->
  let q := PDFService.create_query_embedding encode query in
  (q = [] -> search_similar client encode query limit s = (Ok [], s))
  /\ (forall hits w',
        q <> [] ->
        search client (collection_name s) q limit (remote s) = (Ok hits, w') ->
        (Forall (fun h => is_Some (hit_payload h)) hits ->
         search_similar client encode query limit s
         = (Ok (formatted <$> hits), with_remote s w'))
        /\ (Exists (fun h => hit_payload h = None) hits ->
            search_similar client encode query limit s
            = _search_memory encode query limit (demoted (with_remote s w')))).
Proof.
  intros Hcloud q. rewrite search_similar_closed, Hcloud. fold q.
  split; [intros ->; reflexivity | ].
  intros hits w' Hq Hsearch.
  destruct q as [ | x q']; [contradiction | ].
  cbv zeta. rewrite Hsearch. cbn [fst snd mbind result_bind Py.bind].
  split.
  - intros Hall. rewrite (map_results_format_hit _ Hall). reflexivity.
  - intros Hex. pose proof (map_results_format_hit_raises _ Hex) as Hr.
    destruct (map_results format_hit hits); [destruct Hr | reflexivity].
Qed.

(** X21. What comes back for a stored payload.  A hit that carries the
    payload [_store_cloud] built for a chunk is formatted into a result
    whose metadata never has the key [text] and always has [chunk_index],
    next to every other key of the caller's metadata.  The caller's metadata
    wins over the two keys of the store: a [text] in it is returned in place
    of the chunk, a [chunk_index] in place of the position. *)
Theorem payload_round_trip (chunk : string) (i : nat)
    (metadata : option (gmap string pyval)) (score : float) :
  exists doc,
    format_hit (mkHit (Some (payload chunk i metadata)) score) = Ok doc
    /\ doc_score doc = score
    /\ doc_text doc = default (PyStr chunk) (metadata_or_empty metadata !! "text")
    /\ doc_metadata doc !! "text" = None
    /\ doc_metadata doc !! "chunk_index"
       = Some (default (PyInt (Z.of_nat i)) (metadata_or_empty metadata !! "chunk_index"))
    /\ (forall key v, key <> "text" ->
          metadata_or_empty metadata !! key = Some v ->
          doc_metadata doc !! key = Some v)
    /\ (forall key, key <> "chunk_index" ->
          metadata_or_empty metadata !! key = None ->
          doc_metadata doc !! key = None).
Proof.
  eexists. split; [reflexivity | ]. cbn [doc_score doc_text doc_metadata hit_payload
                                          hit_score].
  split; [reflexivity | ]. unfold payload.
  set (md := metadata_or_empty metadata).
  split.
  { destruct (md !! "text") as [v | ] eqn:Htext.
    - rewrite (lookup_union_Some_l _ _ _ _ Htext). reflexivity.
    - rewrite (lookup_union_r _ _ _ Htext), lookup_insert_eq. reflexivity. }
  split; [apply lookup_delete_eq | ].
  split.
  { rewrite lookup_delete_ne by discriminate.
    destruct (md !! "chunk_index") as [v | ] eqn:Hidx.
    - rewrite (lookup_union_Some_l _ _ _ _ Hidx). reflexivity.
    - rewrite (lookup_union_r _ _ _ Hidx).
      rewrite lookup_insert_ne by discriminate. rewrite lookup_insert_eq. reflexivity. }
  split.
  - intros key v Hkey Hv. rewrite lookup_delete_ne by congruence.
    apply lookup_union_Some_l, Hv.
  - intros key Hkey Hnone.
    destruct (decide (key = "text")) as [-> | Htext]; [apply lookup_delete_eq | ].
    rewrite lookup_delete_ne by congruence.
    rewrite (lookup_union_r _ _ _ Hnone).
    rewrite lookup_insert_ne by congruence.
    rewrite lookup_insert_ne by congruence. apply lookup_empty.
Qed.

(** X22. A store refused by the service leaves nothing to fall back on.
    On an instance of the persistent backend - which has no in-memory list -
    a store whose [upsert] raises returns [False] for every batch that is
    not empty, and leaves the instance on the local backend still without a
    list: from then on every store of such a batch returns [False] again,
    every search returns no result, and [get_collection_info] raises. *)
Theorem fallback_after_refused_store (s : VS W)
    (chunks : list string) (embeddings : list PDFService.vector)
    (metadata : option (gmap string pyval)) (e : exn) (w' : W) :
  use_cloud s = true ->
  _memory_store s = None ->
  upsert client (collection_name s)
    (cloud_points uuid4 metadata 0 (uuid_drawn s) (zip chunks embeddings)) (remote s)
    = (Raise e, w') ->
  exists s',
    store_embeddings client uuid4 chunks embeddings metadata s
    = (Ok (negb (non_empty_batch chunks embeddings)), s')
    /\ use_cloud s' = false
    /\ _memory_store s' = None
    /\ (forall chunks' embeddings' metadata',
          store_embeddings client uuid4 chunks' embeddings' metadata' s'
          = (Ok (negb (non_empty_batch chunks' embeddings')), s'))
    /\ (forall query limit, search_similar client encode query limit s' = (Ok [], s'))
    /\ raises (fst (get_collection_info client s')).
Proof.
  intros Hcloud Hnone Hupsert.
  rewrite store_embeddings_closed, Hcloud. cbv zeta. rewrite Hupsert. cbn [fst snd].
  set (s' := demoted (with_remote (with_draws s (length (zip chunks embeddings))) w')).
  assert (use_cloud s' = false) as Hlocal' by reflexivity.
  assert (_memory_store s' = None) as Hnone' by exact Hnone.
  rewrite _store_memory_closed, Hnone'.
  exists s'. split; [reflexivity | ].
  split; [exact Hlocal' | ]. split; [exact Hnone' | ].
  split; [ | split].
  - intros chunks' embeddings' metadata'.
    rewrite store_embeddings_closed, Hlocal', _store_memory_closed, Hnone'.
    reflexivity.
  - intros query limit. rewrite search_similar_closed, Hlocal', _search_memory_cases.
    unfold records. rewrite Hnone'. reflexivity.
  - rewrite get_collection_info_closed, Hlocal', Hnone'. exact I.
Qed.

End CloudProperties.

(** One chunk stored on the instance of the working service. *)
Lemma store_embeddings_cloud_witness :
  store_embeddings Fixtures.client_up Fixtures.uuid_of ["intro"] [Fixtures.e1] None
    Fixtures.cloud_up
  = (Ok true,
     mkVS true None "pdf_embeddings"
       [mkPoint "id-0" Fixtures.e1 (payload "intro" 0 None)] 1%nat).
Proof.
  destruct (store_embeddings_cloud Fixtures.client_up Fixtures.uuid_of Fixtures.cloud_up
              ["intro"] [Fixtures.e1] None) as (_ & _ & Hok & _).
  - reflexivity.
  - apply (Hok [mkPoint "id-0" Fixtures.e1 (payload "intro" 0 None)]). reflexivity.
Defined.

(** A search on the instance of the working service after
    one chunk was stored. *)
Lemma search_similar_cloud_witness :
  search_similar Fixtures.client_up (Fixtures.encode_as Fixtures.e1)
    "which way is east?" 3 Fixtures.cloud_one_point
  = (Ok [mkDoc (PyStr "intro") 1%float {[ "chunk_index" := PyInt 0 ]}],
     Fixtures.cloud_one_point).
Proof.
  destruct (search_similar_cloud Fixtures.client_up (Fixtures.encode_as Fixtures.e1)
              Fixtures.cloud_one_point "which way is east?" 3) as (_ & Hhits).
  - reflexivity.
  - destruct (Hhits [mkHit (Some (payload "intro" 0 None)) 1%float]
                [mkPoint "id-0" Fixtures.e1 (payload "intro" 0 None)]) as (Hall & _).
    + discriminate.
    + reflexivity.
    + apply Hall. repeat constructor. eexists. reflexivity.
Defined.

(** The write the read-only service refuses. *)
Lemma fallback_after_refused_store_witness :
  exists s',
    store_embeddings Fixtures.client_read_only Fixtures.uuid_of ["intro"] [Fixtures.e1]
      None Fixtures.cloud_store = (Ok false, s')
    /\ (forall query limit,
          search_similar Fixtures.client_read_only (Fixtures.encode_as Fixtures.e1)
            query limit s' = (Ok [], s'))
    /\ raises (fst (get_collection_info Fixtures.client_read_only s')).
Proof.
  destruct (fallback_after_refused_store Fixtures.client_read_only
              (Fixtures.encode_as Fixtures.e1) Fixtures.uuid_of Fixtures.cloud_store
              ["intro"] [Fixtures.e1] None Fixtures.unreachable tt)
    as (s' & Hstore & _ & _ & _ & Hsearch & Hinfo).
  - reflexivity.
  - reflexivity.
  - reflexivity.
  - exists s'. split; [exact Hstore | ]. split; [exact Hsearch | exact Hinfo].
Defined.

(* ===================================================================== *)
(** * The local search, continued                                       *)
(* ===================================================================== *)

Section LocalSearchProperties.
Context {W : Type}.
Variable client : QdrantClient W.
Variable encode : list string -> result (list PDFService.vector).

Lemma slice_to_length {A} (limit : Z) (l : list A) :
  length (slice_to limit l) = slice_length limit (length l).
Proof.
  unfold slice_to, slice_length. destruct (0 <=? limit); rewrite length_take; lia.
Qed.

(** X23. The number of results of the local search, for every limit: none
    when the store is empty or the query has no embedding; otherwise, for
    [n] records, the smaller of [limit] and [n] when [limit] is not
    negative, and [n - |limit|] (cut at zero) when it is.  The search never
    raises and leaves the instance unchanged. *)
Theorem _search_memory_count (query : string) (limit : Z) (s : VS W) :
  exists docs,
    _search_memory encode query limit s = (Ok docs, s)
    /\ (records s = [] \/ PDFService.create_query_embedding encode query = [] ->
        docs = [])
    /\ (records s <> [] -> PDFService.create_query_embedding encode query <> [] ->
        length docs = slice_length limit (length (records s)))
    /\ (0 <= limit -> (length docs <= Z.to_nat limit)%nat)
    /\ (length docs <= length (records s))%nat.
Proof.
  rewrite _search_memory_cases. eexists. split; [reflexivity | ].
  destruct (records s) as [ | item store] eqn:Hrec.
  { split; [reflexivity | ]. split; [contradiction | ]. split; cbn; lia. }
  destruct (PDFService.create_query_embedding encode query) as [ | x q] eqn:Hq.
  { split; [reflexivity | ]. split; [contradiction | ]. split; cbn; lia. }
  assert (length (to_result <$> slice_to limit
                    (sort_desc fst (similarities (x :: q) (item :: store))))
          = slice_length limit (length (item :: store))) as Hlen.
  { rewrite length_fmap, slice_to_length, sort_desc_length.
    unfold similarities. rewrite length_fmap. reflexivity. }
  split; [intros [? | ?]; discriminate | ].
  split; [intros _ _; exact Hlen | ].
  rewrite Hlen. unfold slice_length.
  split; [intros Hpos; apply Z.leb_le in Hpos; rewrite Hpos; lia | ].
  destruct (0 <=? limit); lia.
Qed.

Lemma search_all_perm (q : PDFService.vector) (l : list Item) (limit : Z) :
  Z.of_nat (length l) <= limit ->
  to_result <$> slice_to limit (sort_desc fst (similarities q l)) ≡ₚ scored q <$> l.
Proof.
  intros Hlimit. unfold slice_to.
  assert ((0 <=? limit) = true) as -> by (apply Z.leb_le; lia).
  rewrite take_ge.
  - rewrite sort_desc_perm. rewrite to_result_similarities. reflexivity.
  - rewrite sort_desc_length. unfold similarities. rewrite length_fmap. lia.
Qed.

(** X24. With a limit that is at least the number of records, the local
    search returns every record exactly once: the results are a permutation
    of the records, each scored against the query. *)
Theorem _search_memory_complete (query : string) (limit : Z) (s : VS W) :
  Z.of_nat (length (records s)) <= limit ->
  PDFService.create_query_embedding encode query <> [] ->
  exists docs,
    _search_memory encode query limit s = (Ok docs, s)
    /\ docs ≡ₚ (scored (PDFService.create_query_embedding encode query) <$> records s).
Proof.
  intros Hlimit Hq. rewrite _search_memory_cases. eexists. split; [reflexivity | ].
  destruct (records s) as [ | item store] eqn:Hrec; [reflexivity | ].
  destruct (PDFService.create_query_embedding encode query) as [ | x q];
    [contradiction | ].
  apply search_all_perm, Hlimit.
Qed.

Lemma sort_desc_constant {A} (key : A -> float) (c : float) (l : list A) :
  PrimFloat.ltb c c = false ->
  Forall (fun y => key y = c) l ->
  sort_desc key l = l.
Proof.
  intros Hc. induction l as [ | x l IH]; intros Hall; [reflexivity | ].
  inversion Hall as [ | ? ? Hx Hrest]; subst.
  cbn [sort_desc]. rewrite (IH Hrest).
  destruct l as [ | h t]; [reflexivity | ].
  inversion Hrest as [ | ? ? Hh _]; subst.
  cbn [insert_desc]. rewrite Hh, Hc. reflexivity.
Qed.

(** X25. A query embedding whose dimension differs from that of every
    stored vector does not make the local search fail: every record scores
    [0.0], so the results are the first [limit] records in the order they
    were stored. *)
Theorem _search_memory_dimension_mismatch (query : string) (limit : Z) (s : VS W) :
  0 <= limit ->
  PDFService.create_query_embedding encode query <> [] ->
  Forall (fun item =>
            length (item_vector item)
            <> length (PDFService.create_query_embedding encode query)) (records s) ->
  _search_memory encode query limit s
  = (Ok (unscored <$> take (Z.to_nat limit) (records s)), s).
Proof.
  intros Hlimit Hq Hall. rewrite _search_memory_cases.
  destruct (records s) as [ | item store] eqn:Hrec; [rewrite take_nil; reflexivity | ].
  destruct (PDFService.create_query_embedding encode query) as [ | x q] eqn:Hemb;
    [contradiction | ].
  assert (similarities (x :: q) (item :: store)
          = (fun it => (0%float, it)) <$> (item :: store)) as Hsim.
  { unfold similarities. apply Forall_fmap_ext_1.
    eapply Forall_impl; [exact Hall | ]. cbn beta. intros it Hlen.
    rewrite _cosine_similarity_misaligned by congruence. reflexivity. }
  rewrite Hsim.
  rewrite (sort_desc_constant fst 0%float); [ | reflexivity | ].
  - unfold slice_to. assert ((0 <=? limit) = true) as -> by (apply Z.leb_le; lia).
    rewrite <- fmap_take, <- list_fmap_compose. reflexivity.
  - apply Forall_fmap, Forall_forall. intros it _. reflexivity.
Qed.

(** X26. A query without an embedding finds nothing and costs nothing.
    The embedding of a query is empty exactly when the encoder raises,
    returns no vector, or returns an empty first vector; [search_similar]
    then returns no result on either backend and leaves the instance as it
    was - the service is not contacted and the instance is not demoted. *)
Theorem search_without_embedding (query : string) :
  (PDFService.create_query_embedding encode query = []
   <-> match encode [query] with
       | Ok (v :: _) => v = []
       | _ => True
       end)
  /\ (PDFService.create_query_embedding encode query = [] ->
      forall limit (s : VS W), search_similar client encode query limit s = (Ok [], s)).
Proof.
  split.
  - unfold PDFService.create_query_embedding.
    destruct (encode [query]) as [[ | v vs] | e]; tauto.
  - intros Hq limit s. rewrite search_similar_closed, _search_memory_cases, Hq.
    destruct (use_cloud s); [reflexivity | ].
    destruct (records s); reflexivity.
Qed.

End LocalSearchProperties.

(** All three records, asked for with the limit 5. *)
Lemma _search_memory_complete_witness :
  exists docs,
    _search_memory (Fixtures.encode_as Fixtures.e1) "which way is east?" 5
      Fixtures.three_records = (Ok docs, Fixtures.three_records)
    /\ docs ≡ₚ (scored Fixtures.e1 <$> records Fixtures.three_records).
Proof.
  apply (_search_memory_complete (Fixtures.encode_as Fixtures.e1)
           "which way is east?" 5 Fixtures.three_records).
  - cbn. lia.
  - discriminate.
Defined.

(** Records of dimension two, a query of dimension one. *)
Lemma _search_memory_dimension_mismatch_witness :
  _search_memory (Fixtures.encode_as Fixtures.tiny) "fine print" 2 Fixtures.three_records
  = (Ok [mkDoc (PyStr "east") 0%float ∅; mkDoc (PyStr "north") 0%float ∅],
     Fixtures.three_records).
Proof.
  apply (_search_memory_dimension_mismatch (Fixtures.encode_as Fixtures.tiny)
           "fine print" 2 Fixtures.three_records).
  - lia.
  - discriminate.
  - repeat constructor; discriminate.
Defined.

(** ** Store, then search *)

Section StoredIsFound.
Context {W : Type}.
Variable client : QdrantClient W.
Variable encode : list string -> result (list PDFService.vector).
Variable uuid4 : nat -> string.

Lemma new_records_lookup_Some metadata (pairs : list (string * PDFService.vector)) :
  forall i k j entry,
    pairs !! j = Some entry ->
    new_records uuid4 metadata i k pairs !! j
    = Some (mkItem (uuid4 (k + j)) (snd entry) (fst entry) (i + j)
              (metadata_or_empty metadata)).
Proof.
  induction pairs as [ | p pairs IH]; intros i k j entry H; [discriminate | ].
  destruct j as [ | j]; cbn in H |- *.
  - injection H as <-. rewrite !Nat.add_0_r. reflexivity.
  - rewrite (IH _ _ _ _ H). do 2 f_equal; [f_equal; lia | lia].
Qed.

(** X29. What is stored is found.  On the local backend with its list,
    after [store_embeddings] a search whose limit is at least the number of
    records returns all of them: the records held before, and for every
    position that has both a chunk and a vector a result with that chunk as
    text, the caller's metadata, and the similarity of the query to that
    vector as score. *)
Theorem stored_chunks_are_found (s : VS W) (store : list Item)
    (chunks : list string) (embeddings : list PDFService.vector)
    (metadata : option (gmap string pyval)) (query : string) (limit : Z) :
  use_cloud s = false ->
  _memory_store s = Some store ->
  PDFService.create_query_embedding encode query <> [] ->
  Z.of_nat (length store + Nat.min (length chunks) (length embeddings)) <= limit ->
  exists s' docs,
    store_embeddings client uuid4 chunks embeddings metadata s = (Ok true, s')
    /\ search_similar client encode query limit s' = (Ok docs, s')
    /\ length docs = (length store + Nat.min (length chunks) (length embeddings))%nat
    /\ (forall j chunk v,
          chunks !! j = Some chunk -> embeddings !! j = Some v ->
          mkDoc (PyStr chunk)
                (_cosine_similarity (PDFService.create_query_embedding encode query) v)
                (metadata_or_empty metadata) ∈ docs)
    /\ (forall item,
          item ∈ store ->
          scored (PDFService.create_query_embedding encode query) item ∈ docs).
Proof.
  intros Hlocal Hstore Hq Hlimit.
  rewrite store_embeddings_closed, Hlocal, _store_memory_closed, Hstore.
  set (new := new_records uuid4 metadata 0 (uuid_drawn s) (zip chunks embeddings)).
  set (s' := mkVS (use_cloud s) (Some (store ++ new)%list) (collection_name s)
               (remote s) (uuid_drawn s + length (zip chunks embeddings))%nat).
  assert (length (store ++ new)%list
          = (length store + Nat.min (length chunks) (length embeddings))%nat) as Hlen.
  { unfold new. rewrite length_app, new_records_length, length_zip. reflexivity. }
  assert (exists docs,
            search_similar client encode query limit s' = (Ok docs, s')
            /\ docs ≡ₚ scored (PDFService.create_query_embedding encode query)
                        <$> (store ++ new)%list) as (docs & Hsearch & Hperm).
  { rewrite search_similar_closed. cbn [use_cloud s']. rewrite Hlocal.
    rewrite _search_memory_cases. cbn [records s' _memory_store default from_option id].
    eexists. split; [reflexivity | ].
    destruct (store ++ new)%list as [ | item rest] eqn:Hrec; [reflexivity | ].
    destruct (PDFService.create_query_embedding encode query) as [ | x q];
      [contradiction | ].
    apply search_all_perm. rewrite Hlen. exact Hlimit. }
  exists s', docs. split; [reflexivity | ]. split; [exact Hsearch | ].
  split; [rewrite Hperm, length_fmap; exact Hlen | ].
  split.
  - intros j chunk v Hchunk Hv. rewrite Hperm.
    assert (zip chunks embeddings !! j = Some (chunk, v)) as Hzip.
    { apply lookup_zip_with_Some. exists chunk, v. repeat split; assumption. }
    pose proof (new_records_lookup_Some metadata _ 0%nat (uuid_drawn s) j _ Hzip) as Hnew.
    apply list_elem_of_fmap. eexists. split; [ | apply elem_of_app; right;
      apply list_elem_of_lookup; exists j; exact Hnew].
    reflexivity.
  - intros item Hitem. rewrite Hperm. apply list_elem_of_fmap.
    exists item. split; [reflexivity | apply elem_of_app; left; exact Hitem].
Qed.

End StoredIsFound.

(** Two chunks added to the store of three records, all five found. *)
Lemma stored_chunks_are_found_witness :
  exists s' docs,
    store_embeddings Fixtures.client_down Fixtures.uuid_of ["south"; "west"]
      [Fixtures.three_four; Fixtures.diagonal] None Fixtures.three_records = (Ok true, s')
    /\ search_similar Fixtures.client_down (Fixtures.encode_as Fixtures.e1)
         "which way is east?" 5 s' = (Ok docs, s')
    /\ length docs = 5%nat
    /\ mkDoc (PyStr "west") (_cosine_similarity Fixtures.e1 Fixtures.diagonal) ∅ ∈ docs.
Proof.
  destruct (stored_chunks_are_found Fixtures.client_down (Fixtures.encode_as Fixtures.e1)
              Fixtures.uuid_of Fixtures.three_records
              (default [] (_memory_store Fixtures.three_records))
              ["south"; "west"] [Fixtures.three_four; Fixtures.diagonal] None
              "which way is east?" 5)
    as (s' & docs & Hstore & Hsearch & Hlen & Hfound & _).
  - reflexivity.
  - reflexivity.
  - discriminate.
  - cbn. lia.
  - exists s', docs. split; [exact Hstore | ]. split; [exact Hsearch | ].
    split; [exact Hlen | ].
    apply (Hfound 1%nat "west" Fixtures.diagonal); reflexivity.
Defined.

(* ===================================================================== *)
(** * Ingestion, continued                                              *)
(* ===================================================================== *)

Section IngestionEdges.
Context {W : Type}.
Variable read_pages : string -> result (list string).
Variable split_text : string -> list string.
Variable encode : list string -> result (list PDFService.vector).
Variable client : QdrantClient W.
Variable uuid4 : nat -> string.







(** X28. An encoder that fails is not noticed by the ingestion.  When the
    file has chunks but their embeddings come back empty - the encoder
    raised or returned nothing - the ingestion on an instance built without
    both Qdrant settings still stores, and the store returns [True] having
    stored no record: success is reported for an index that is empty. *)
Theorem ingestion_without_embeddings (pdf_path filename url key : string) (w : W) :
  chunks_of read_pages split_text pdf_path <> [] ->
  PDFService.create_embeddings encode (chunks_of read_pages split_text pdf_path) = [] ->
  url = "" \/ key = "" ->
  App.process_pdf read_pages split_text encode client uuid4 url key pdf_path filename w
  = App.Stored true (mkVS false (Some []) "pdf_embeddings" w 0%nat)
  /\ PDFService.process_pdf read_pages split_text encode pdf_path !! "embeddings"
     = Some (PyList []).
Proof.
  intros Hchunks Hemb Hno.
  assert (__init__ client url key w = mkVS false (Some []) "pdf_embeddings" w 0%nat)
    as Hinit.
  { destruct (__init___cases client url key w) as [(_ & H) | (Hu & Hk & _)];
      [exact H | destruct Hno; contradiction]. }
  unfold App.process_pdf. rewrite process_pdf_cases.
  destruct (chunks_of read_pages split_text pdf_path) as [ | chunk chunks] eqn:Hc;
    [contradiction | ].
  cbv zeta. rewrite Hemb, Hinit.
  rewrite lookup_insert_eq.
  rewrite lookup_insert_ne by discriminate. rewrite lookup_insert_eq.
  split; [ | reflexivity].
  cbn [truthy PDFService.py_chunks fmap list_fmap default from_option id].
  rewrite as_vectors_py_embeddings.
  rewrite store_embeddings_closed. cbn [use_cloud].
  rewrite _store_memory_closed. cbn [_memory_store].
  rewrite zip_with_nil_r. reflexivity.
Qed.

End IngestionEdges.


(** Two pages of text, the encoder down. *)
Lemma ingestion_without_embeddings_witness :
  App.process_pdf Fixtures.two_pages Fixtures.split_lines Fixtures.encode_down
    Fixtures.client_down Fixtures.uuid_of "" "" "notes.pdf" "notes.pdf" tt
  = App.Stored true (mkVS false (Some []) "pdf_embeddings" tt 0%nat).
Proof.
  apply (ingestion_without_embeddings Fixtures.two_pages Fixtures.split_lines
           Fixtures.encode_down Fixtures.client_down Fixtures.uuid_of
           "notes.pdf" "notes.pdf" "" "" tt).
  - discriminate.
  - reflexivity.
  - left. reflexivity.
Defined.
